(** * Extract / enrich / map pipeline of the Terraform exporter

    A shallow embedding of [src/spacemk/exporters/terraform.py]
    (class [TerraformExporter]): the API client, the extractors, the
    checks, the two sensitive-value enrichment sagas, the schema mapper
    and the relationship expander.

    Python values are embedded as the inductive [value]; a [dict] is an
    association list in insertion order.  Code that raises is embedded in a
    state-and-exception monad in which the state survives a raise, as it
    does in Python. *)

From Stdlib Require Import ZArith Ascii String List Bool Lia.
From stdpp Require Import base strings pretty list gmap.

Local Open Scope string_scope.
Local Open Scope list_scope.

(** ** Python values *)

Module Py.

#[warnings="-register-all"]
Inductive value : Type :=
| VNone
| VBool (b : bool)
| VInt (n : Z)
| VStr (s : string)
| VList (l : list value)
| VDict (d : list (string * value)).

(** A record is the contents of a [dict]. *)
Definition record : Type := list (string * value).

(** The exceptions the embedded code can raise. *)
Inductive exn : Type :=
| RuntimeError (msg : string)
| TypeError
| AttributeError
| IndexError
| ValueError (msg : string)
| UnicodeDecodeError
| RegexError
| TerraformExporterPlanError (organization_id workspace_id : string)
| AgentStartError
| ExternalError (msg : string).

(** Result of running embedded code: a value, a raised exception, or
    [Diverge] when the fuel of a [while True] loop ran out. *)
Inductive outcome (A : Type) : Type :=
| Ret (a : A)
| Raise (e : exn)
| Diverge.
Arguments Ret {A} a.
Arguments Raise {A} e.
Arguments Diverge {A}.

Definition obind {A B} (o : outcome A) (k : A -> outcome B) : outcome B :=
  match o with
  | Ret a => k a
  | Raise e => Raise e
  | Diverge => Diverge
  end.

(** [bool(v)]. *)
Definition truthy (v : value) : bool :=
  match v with
  | VNone => false
  | VBool b => b
  | VInt n => negb (n =? 0)%Z
  | VStr s => negb (String.eqb s "")
  | VList l => match l with [] => false | _ => true end
  | VDict d => match d with [] => false | _ => true end
  end.

(** [d.get(k)] on a plain dict. *)
Fixpoint dict_get (k : string) (d : record) : option value :=
  match d with
  | [] => None
  | (k', v) :: d' => if String.eqb k k' then Some v else dict_get k d'
  end.

(** [d[k] = v]: overwrite in place, or append as the newest key. *)
Fixpoint dict_set (k : string) (v : value) (d : record) : record :=
  match d with
  | [] => [(k, v)]
  | (k', v') :: d' =>
      if String.eqb k k' then (k', v) :: d' else (k', v') :: dict_set k v d'
  end.

(** [del d[k]] when the key is present: no binding of [k] is left. *)
Fixpoint dict_del (k : string) (d : record) : record :=
  match d with
  | [] => []
  | (k', v') :: d' =>
      if String.eqb k k' then dict_del k d' else (k', v') :: dict_del k d'
  end.

Definition dict_has (k : string) (d : record) : bool :=
  match dict_get k d with Some _ => true | None => false end.

(** benedict's [d.get("a.b.c")]: the key path is written as the list of
    its segments; a missing segment, or a non-dict on the way, gives
    [None]. *)
Fixpoint get_path (path : list string) (v : value) : value :=
  match path with
  | [] => v
  | k :: rest =>
      match v with
      | VDict d =>
          match dict_get k d with
          | Some v' => get_path rest v'
          | None => VNone
          end
      | _ => VNone
      end
  end.

Definition get (d : record) (path : list string) : value :=
  get_path path (VDict d).

(** benedict's ["a.b.c" in d]. *)
Fixpoint has_path (path : list string) (v : value) : bool :=
  match path with
  | [] => true
  | k :: rest =>
      match v with
      | VDict d =>
          match dict_get k d with
          | Some v' => has_path rest v'
          | None => false
          end
      | _ => false
      end
  end.

Definition contains (d : record) (path : list string) : bool :=
  has_path path (VDict d).

(** benedict's [d["a.b.c"] = x]: intermediate dicts are created, and a
    non-dict found on the way is replaced by a new dict.  benedict
    raises when what it finds on the way is a list; the paths set in
    the properties below run through dicts only. *)
Fixpoint set_path (path : list string) (x : value) (d : record) : record :=
  match path with
  | [] => d
  | [k] => dict_set k x d
  | k :: rest =>
      let sub := match dict_get k d with
                 | Some (VDict d') => d'
                 | _ => []
                 end in
      dict_set k (VDict (set_path rest x sub)) d
  end.

(** Python's [==] on values: booleans compare equal to 0 and 1, lists
    position by position, dicts key by key whatever the order. *)
Fixpoint py_eq (a b : value) {struct a} : bool :=
  match a, b with
  | VNone, VNone => true
  | VBool x, VBool y => Bool.eqb x y
  | VBool x, VInt y => ((if x then 1 else 0) =? y)%Z
  | VInt x, VBool y => (x =? (if y then 1 else 0))%Z
  | VInt x, VInt y => (x =? y)%Z
  | VStr x, VStr y => String.eqb x y
  | VList x, VList y =>
      (fix go (x : list value) (y : list value) {struct x} : bool :=
         match x, y with
         | [], [] => true
         | a' :: x', b' :: y' => py_eq a' b' && go x' y'
         | _, _ => false
         end) x y
  | VDict x, VDict y =>
      Nat.eqb (length x) (length y) &&
      (fix go (x : list (string * value)) {struct x} : bool :=
         match x with
         | [] => true
         | (k, a') :: x' =>
             match dict_get k y with
             | Some b' => py_eq a' b'
             | None => false
             end && go x'
         end) x
  | _, _ => false
  end.

Definition is_true (v : value) : bool :=
  match v with VBool true => true | _ => false end.

Definition is_false (v : value) : bool :=
  match v with VBool false => true | _ => false end.

Definition is_none (v : value) : bool :=
  match v with VNone => true | _ => false end.

(** benedict's constructor, as [benedict(d)]: with the key path
    separator ["."], a dict that holds a key with a dot in it, at any
    depth of dicts and lists, is refused with [ValueError]. *)
Fixpoint has_separator (key : string) : bool :=
  match key with
  | EmptyString => false
  | String c key' => Ascii.eqb c "."%char || has_separator key'
  end.

Fixpoint check_keys (v : value) : bool :=
  match v with
  | VDict d =>
      (fix go (d : list (string * value)) : bool :=
         match d with
         | [] => true
         | (k, v') :: d' => negb (has_separator k) && check_keys v' && go d'
         end) d
  | VList l =>
      (fix go (l : list value) : bool :=
         match l with
         | [] => true
         | v' :: l' => check_keys v' && go l'
         end) l
  | _ => true
  end.

Definition benedict (d : record) : outcome record :=
  if check_keys (VDict d) then Ret d
  else Raise (ValueError "Key should not contain keypath separator").

(** Characters of a string, as Python iterates over it. *)
Fixpoint chars (s : string) : list value :=
  match s with
  | EmptyString => []
  | String c s' => VStr (String c EmptyString) :: chars s'
  end.

(** ** State and exceptions

    [M S A] is code that runs in a state [S], and returns, raises or
    diverges.  The state reached at a raise is kept: whatever the code
    mutated before raising stays mutated. *)

Definition M (S A : Type) : Type := S -> S * outcome A.

Definition ret {S A} (a : A) : M S A := fun s => (s, Ret a).
Definition raise {S A} (e : exn) : M S A := fun s => (s, Raise e).
Definition diverge {S A} : M S A := fun s => (s, Diverge).
Definition lift {S A} (o : outcome A) : M S A := fun s => (s, o).

Definition bind {S A B} (m : M S A) (k : A -> M S B) : M S B :=
  fun s =>
    match m s with
    | (s', Ret a) => k a s'
    | (s', Raise e) => (s', Raise e)
    | (s', Diverge) => (s', Diverge)
    end.

(** [try: body finally: fin].  The [finally] suite runs whether the body
    returned or raised; an exception raised by the suite itself is the
    one that propagates. *)
Definition try_finally {S A} (body : M S A) (fin : M S unit) : M S A :=
  fun s =>
    match body s with
    | (s1, Diverge) => (s1, Diverge)
    | (s1, r) =>
        match fin s1 with
        | (s2, Ret _) => (s2, r)
        | (s2, Raise e) => (s2, Raise e)
        | (s2, Diverge) => (s2, Diverge)
        end
    end.

End Py.
Import Py.

Notation "'let!' x ':=' m 'in' k" := (bind m (fun x => k))
  (at level 10, x name, m at level 100, k at level 200).

(** ** The API client: [_call_api] and [_extract_data_from_api] *)

Module Api.

(** What [response.content] holds: no bytes, the UTF-8 text of a JSON
    document (a JSON:API document is an object), other UTF-8 text, or
    bytes that are not UTF-8. *)
Inductive content : Type :=
| NoContent
| Json (doc : record)
| Malformed
| NotUtf8.

(** What [requests.request] does: a response, or one of the exceptions
    the client has an [except] clause for. *)
Inductive http_outcome : Type :=
| HttpResponse (status : Z) (body : content)
| HttpReadTimeout
| HttpConnectionError
| HttpRequestException.

Record request : Type := {
  rq_method : string;
  rq_url : string;
  rq_data : option value;
}.

(** The remote server and the libraries the client calls: [requests],
    [pydash.omit], [re] and the configured endpoint.  [re_compile p] is
    [None] when [re.compile(p)] raises; otherwise it tells whether
    [.match(s)] is not [None]. *)
Class Client (server : Type) : Type := {
  http : request -> server -> server * http_outcome;
  pydash_omit : record -> list (list string) -> record;
  re_compile : string -> option (string -> bool);
  api_endpoint : string;
}.

Section Client.

Context {server : Type} `{!Client server}.

Definition is_falsy_list {A} (l : option (list A)) : bool :=
  match l with
  | None | Some [] => true
  | Some _ => false
  end.

(** The part of [_call_api] after the [try]: decode the response and
    wrap it in a [benedict]. *)
Definition decode_response (drop_response_properties : option (list (list string)))
    (body : content) : outcome record :=
  if negb (is_falsy_list drop_response_properties) then
    match body with
    | Json doc => benedict (pydash_omit doc (default [] drop_response_properties))
    | _ => Raise (ValueError "JSONDecodeError")
    end
  else
    match body with
    | NoContent => Ret []
    | Json doc => benedict doc
    | _ => Raise (ValueError "JSONDecodeError")
    end.

(** [request_dump.dump_all(response).decode("utf-8")], the argument of
    the debug log inside the [try]: the dump holds the bytes of the
    body, and decoding raises [UnicodeDecodeError] when they are not
    UTF-8. *)
Definition dump_decodes (body : content) : bool :=
  match body with
  | NotUtf8 => false
  | _ => true
  end.

Definition NOT_FOUND : Z := 404.

(** [response.raise_for_status()] raises for 4xx and 5xx. *)
Definition is_http_error (status : Z) : bool :=
  (400 <=? status)%Z && (status <? 600)%Z.

Definition _call_api (url : value)
    (drop_response_properties : option (list (list string)))
    (method : string) (request_data : option value) : M server record :=
  match url with
  | VStr u =>
      fun σ =>
        let '(σ', out) :=
          http {| rq_method := method; rq_url := u; rq_data := request_data |} σ in
        match out with
        | HttpResponse status body =>
            (* the dump is decoded before the status is looked at, and
               no [except] clause catches [UnicodeDecodeError] *)
            if negb (dump_decodes body) then (σ', Raise UnicodeDecodeError)
            else if is_http_error status then
              if (status =? NOT_FOUND)%Z then (σ', Ret [("data", VDict [])])
              else (σ', Raise (RuntimeError "HTTP Error"))
            else (σ', decode_response drop_response_properties body)
        | HttpReadTimeout => (σ', Raise (RuntimeError "Timeout"))
        | HttpConnectionError => (σ', Raise (RuntimeError "Connection error"))
        | HttpRequestException => (σ', Raise (RuntimeError "Error"))
        end
  | _ =>
      (* [requests] refuses a URL that is not one before sending anything *)
      raise (RuntimeError "Error")
  end.

(** The items one payload adds to [raw_data]. *)
Definition page_items (payload : record) : outcome (list value) :=
  let data := get payload ["data"] in
  if truthy data then
    match data with
    | VDict _ => Ret [data]
    | VList l => Ret l
    | VStr s => Ret (chars s)
    | _ => Raise TypeError
    end
  else Ret [].

(** The [while True] loop of [_extract_data_from_api]. *)
Fixpoint fetch_pages (fuel : nat) (url : value)
    (drop_response_properties : option (list (list string)))
    (method : string) (request_data : option value)
    (raw_data : list value) : M server (list value) :=
  match fuel with
  | O => diverge
  | S fuel' =>
      let! response_payload :=
        _call_api url drop_response_properties method request_data in
      let! items := lift (page_items response_payload) in
      let raw_data := raw_data ++ items in
      let next := get response_payload ["links"; "next"] in
      if truthy next then
        fetch_pages fuel' next drop_response_properties method request_data
          raw_data
      else ret raw_data
  end.

(** [datum[property_] = raw_datum.get(property_)] for each property. *)
Definition project (properties : list (list string)) (raw_datum : record) : record :=
  fold_left (fun datum property_ => set_path property_ (get raw_datum property_) datum)
    properties [].

(** The second loop: name filter, then projection. *)
Fixpoint select_data (include_regex : string -> bool)
    (properties : option (list (list string))) (raw_data : list value)
    : outcome (list record) :=
  match raw_data with
  | [] => Ret []
  | raw_datum :: rest =>
      match raw_datum with
      | VDict d =>
          let name := get d ["attributes"; "name"] in
          let skip :=
            if truthy name then
              match name with
              | VStr n => Ret (negb (include_regex n))
              | _ => Raise TypeError
              end
            else Ret false in
          obind skip (fun skip =>
          obind (select_data include_regex properties rest) (fun data =>
            if skip then Ret data
            else if is_falsy_list properties then Ret data
            else Ret (project (default [] properties) d :: data)))
      | _ => Raise AttributeError
      end
  end.

Definition _extract_data_from_api (fuel : nat) (path : string)
    (drop_response_properties : option (list (list string)))
    (include_pattern : option string) (method : string)
    (properties : option (list (list string)))
    (request_data : option value) : M server (list record) :=
  let include_pattern := default ".*" include_pattern in
  let url := VStr (api_endpoint +:+ "/api/v2" +:+ path) in
  let! raw_data :=
    fetch_pages fuel url drop_response_properties method request_data [] in
  match re_compile include_pattern with
  | None => raise RegexError
  | Some include_regex => lift (select_data include_regex properties raw_data)
  end.

(** The pages a server hands out from [url] on: each answers the call
    with a payload, and links to the next one until the last, which has
    no [links.next].  The list holds the items of each page. *)
Inductive page_chain (drop_response_properties : option (list (list string)))
    (method : string) (request_data : option value)
    : server -> value -> list (list value) -> server -> Prop :=
| chain_last σ url σ' payload items :
    _call_api url drop_response_properties method request_data σ = (σ', Ret payload) ->
    page_items payload = Ret items ->
    truthy (get payload ["links"; "next"]) = false ->
    page_chain drop_response_properties method request_data σ url [items] σ'
| chain_next σ url σ1 payload items rest σ' :
    _call_api url drop_response_properties method request_data σ = (σ1, Ret payload) ->
    page_items payload = Ret items ->
    truthy (get payload ["links"; "next"]) = true ->
    page_chain drop_response_properties method request_data
      σ1 (get payload ["links"; "next"]) rest σ' ->
    page_chain drop_response_properties method request_data σ url (items :: rest) σ'.

(** [_delete_agent_pool]: a mutation helper that passes no projection. *)
Definition _delete_agent_pool (fuel : nat) (id_ : string) : M server (list record) :=
  _extract_data_from_api fuel ("/agent-pools/" +:+ id_) None None "DELETE" None None.

End Client.

End Api.

(** ** Strings, as the mapper uses them *)

Module Str.

Definition starts_with (prefix s : string) : bool := String.prefix prefix s.

Fixpoint ends_with_char (c : ascii) (s : string) : bool :=
  match s with
  | EmptyString => false
  | String a EmptyString => Ascii.eqb a c
  | String _ s' => ends_with_char c s'
  end.

(** [s.replace(a, b)] for one-character [a] and [b]. *)
Fixpoint replace_char (a b : ascii) (s : string) : string :=
  match s with
  | EmptyString => EmptyString
  | String c s' => String (if Ascii.eqb c a then b else c) (replace_char a b s')
  end.

(** [s.split(sep)] for a one-character separator: always at least one
    segment. *)
Fixpoint split_on (sep : ascii) (s : string) : list string :=
  match s with
  | EmptyString => [EmptyString]
  | String c s' =>
      if Ascii.eqb c sep then EmptyString :: split_on sep s'
      else
        match split_on sep s' with
        | seg :: segs => String c seg :: segs
        | [] => [String c EmptyString]
        end
  end.

(** [s.removeprefix(prefix)]. *)
Fixpoint remove_prefix (prefix s : string) : string :=
  match prefix, s with
  | EmptyString, _ => s
  | String a p', String b s' =>
      if Ascii.eqb a b then
        if String.prefix p' s' then remove_prefix p' s' else s
      else s
  | _, _ => s
  end.

Definition in_range (lo hi : nat) (c : ascii) : bool :=
  let n := nat_of_ascii c in Nat.leb lo n && Nat.leb n hi.

Definition is_letter (c : ascii) : bool :=
  in_range 65 90 c || in_range 97 122 c.

Definition is_digit (c : ascii) : bool := in_range 48 57 c.

Definition underscore : ascii := "_"%char.
Definition hyphen : ascii := "-"%char.
Definition newline : ascii := ascii_of_nat 10.

(** [[a-zA-Z_]] and [[a-zA-Z0-9_]]. *)
Definition is_name_start (c : ascii) : bool :=
  is_letter c || Ascii.eqb c underscore.
Definition is_name_char (c : ascii) : bool :=
  is_letter c || is_digit c || Ascii.eqb c underscore.

(** The rest of the name up to [$], which in Python also matches just
    before a newline that ends the string. *)
Fixpoint name_tail (s : string) : bool :=
  match s with
  | EmptyString => true
  | String c s' =>
      if is_name_char c then name_tail s'
      else Ascii.eqb c newline && String.eqb s' EmptyString
  end.

(** [re.search("^[a-zA-Z_]+[a-zA-Z0-9_]*$", s) is not None]. *)
Definition valid_env_var_name (s : string) : bool :=
  match s with
  | EmptyString => false
  | String c s' => is_name_start c && name_tail s'
  end.

End Str.

(** ** The schema mapper and the relationship expander *)

Module Mapper.

(** Libraries the mapper calls: [slugify], [semver.match] ([None] when it
    raises on a string that is no semantic version) and [repr] of a list
    or dict inside an f-string. *)
Class Libs : Type := {
  slugify : string -> string;
  semver_match : string -> string -> option bool;
  py_repr : value -> string;
}.

(** The instance flags [_determine_provider] sets as a side effect. *)
Record flags : Type := {
  is_gitlab : bool;
  is_ado : bool;
}.

Record config : Type := {
  auto_fix_variable_names : bool;
  experimental_support_variable_sets : bool;
}.

(** The extracted or mapped graph: collection name to list of records,
    in key order. *)
Definition dataset : Type := list (string * list record).

Fixpoint collection (name : string) (data : dataset) : option (list record) :=
  match data with
  | [] => None
  | (k, l) :: data' => if String.eqb name k then Some l else collection name data'
  end.

Fixpoint set_collection (name : string) (l : list record) (data : dataset) : dataset :=
  match data with
  | [] => []
  | (k, l') :: data' =>
      if String.eqb name k then (k, l) :: data'
      else (k, l') :: set_collection name l data'
  end.

(** [for x in data.get(name)]: [None] is not iterable. *)
Definition iterate (name : string) (data : dataset) : outcome (list record) :=
  match collection name data with
  | Some l => Ret l
  | None => Raise TypeError
  end.

Fixpoint omap_list {A B} (f : A -> outcome B) (l : list A) : outcome (list B) :=
  match l with
  | [] => Ret []
  | a :: l' =>
      obind (f a) (fun b => obind (omap_list f l') (fun bs => Ret (b :: bs)))
  end.

Fixpoint oflat_map {A B} (f : A -> outcome (list B)) (l : list A) : outcome (list B) :=
  match l with
  | [] => Ret []
  | a :: l' =>
      obind (f a) (fun b => obind (oflat_map f l') (fun bs => Ret (b ++ bs)))
  end.

Fixpoint mmap_list {S A B} (f : A -> M S B) (l : list A) : M S (list B) :=
  match l with
  | [] => ret []
  | a :: l' =>
      let! b := f a in
      let! bs := mmap_list f l' in
      ret (b :: bs)
  end.

Section Mapper.

Context `{!Libs}.

(** What an f-string prints for a value. *)
Definition py_str (v : value) : string :=
  match v with
  | VStr s => s
  | VNone => "None"
  | VBool true => "True"
  | VBool false => "False"
  | VInt n => pretty n
  | _ => py_repr v
  end.

Definition _generate_migration_id (args : list string) : string :=
  Str.replace_char Str.hyphen Str.underscore (slugify (String.concat "_" args)).

(** [_generate_migration_id(v)] on one argument: ["_".join] wants a
    string. *)
Definition generate_migration_id_of (v : value) : outcome string :=
  match v with
  | VStr s => Ret (_generate_migration_id [s])
  | _ => Raise TypeError
  end.

Definition _build_stack_slug (workspace : record) : outcome string :=
  match get workspace ["attributes"; "name"] with
  | VStr s => Ret (slugify s)
  | _ => Raise TypeError
  end.

(** [re.search(prog, v) is None]. *)
Definition name_is_invalid (v : value) : outcome bool :=
  match v with
  | VStr s => Ret (negb (Str.valid_env_var_name s))
  | _ => Raise TypeError
  end.

(** [len(v)]. *)
Definition py_len (v : value) : outcome nat :=
  match v with
  | VList l => Ret (length l)
  | VDict d => Ret (length d)
  | VStr s => Ret (String.length s)
  | _ => Raise TypeError
  end.

(** ["p" in d and d.get("p") is not None and len(d.get("p")) > 0]. *)
Definition attached (d : record) (path : list string) : outcome bool :=
  if contains d path && negb (is_none (get d path)) then
    obind (py_len (get d path)) (fun n => Ret (Nat.ltb 0 n))
  else Ret false.

(** [for x in v] over the elements of a non-empty relationship list,
    each of which is then asked [x.get(...)]. *)
Definition each_dict (f : record -> outcome record) (v : value) : outcome (list record) :=
  match v with
  | VList l =>
      omap_list (fun x => match x with
                          | VDict d => f d
                          | _ => Raise AttributeError
                          end) l
  | VStr _ | VDict _ => Raise AttributeError
  | _ => Raise TypeError
  end.

(** *** [_map_stacks_data] *)

Definition find_workspace_variable_with_invalid_name (data : dataset)
    (workspace_id : value) (type_ : string) : outcome (list record) :=
  obind (iterate "workspace_variables" data) (fun variables =>
    oflat_map (fun variable =>
      let sensitive := get variable ["attributes"; "sensitive"] in
      if (is_true sensitive && String.eqb type_ "plain")
         || (is_false sensitive && String.eqb type_ "secret")
      then Ret []
      else if py_eq (get variable ["relationships"; "workspace"; "data"; "id"]) workspace_id
      then obind (name_is_invalid (get variable ["attributes"; "key"])) (fun bad =>
             Ret (if bad then [variable] else []))
      else Ret []) variables).

Definition supported_providers : list (string * string) :=
  [ ("github", "github_custom");
    ("github_app", "github_custom");
    ("github_enterprise", "github_custom");
    ("bitbucket_server", "bitbucket_datacenter");
    ("gitlab_hosted", "gitlab");
    ("ado_services", "azure_devops") ].

Fixpoint assoc (k : string) (l : list (string * string)) : option string :=
  match l with
  | [] => None
  | (k', v) :: l' => if String.eqb k k' then Some v else assoc k l'
  end.

(** [identifier.split("/")]. *)
Definition segments_of (identifier : value) : outcome (list string) :=
  match identifier with
  | VStr s => Ret (Str.split_on "/"%char s)
  | _ => Raise AttributeError
  end.

(** [segments[i]]. *)
Definition segment (segments : list string) (i : nat) : outcome value :=
  match nth_error segments i with
  | Some s => Ret (VStr s)
  | None => Raise IndexError
  end.

Definition _determine_provider (info : record) : M flags record :=
  let provider := get info ["attributes"; "vcs-repo"; "service-provider"] in
  let! provider :=
    lift (match provider with
          | VNone => Ret VNone
          | VStr p =>
              match assoc p supported_providers with
              | Some p' => Ret (VStr p')
              | None => Raise (ValueError "Unknown VCS provider name")
              end
          | VList _ | VDict _ => Raise TypeError
          | _ => Raise (ValueError "Unknown VCS provider name")
          end) in
  let identifier := get info ["attributes"; "vcs-repo"; "identifier"] in
  let result (vcs_namespace vcs_repository : value) : record :=
    [ ("vcs_namespace", vcs_namespace);
      ("vcs_repository", vcs_repository);
      ("provider", provider) ] in
  if py_eq provider (VStr "gitlab") && truthy identifier then
    fun st =>
      let st := {| is_gitlab := true; is_ado := is_ado st |} in
      (st,
       obind (segments_of identifier) (fun segments =>
         Ret (result (VStr (String.concat "/" (removelast segments)))
                     (VStr (List.last segments "")))))
  else if py_eq provider (VStr "azure_devops") && truthy identifier then
    fun st =>
      let st := {| is_gitlab := is_gitlab st; is_ado := true |} in
      (st,
       obind (segments_of identifier) (fun segments =>
       obind (segment segments 1) (fun vcs_namespace =>
       obind (segment segments 3) (fun vcs_repository =>
         Ret (result vcs_namespace vcs_repository)))))
  else if negb (py_eq provider (VStr "gitlab"))
          && negb (py_eq provider (VStr "azure_devops")) && truthy identifier then
    lift (obind (segments_of identifier) (fun segments =>
          obind (segment segments 0) (fun vcs_namespace =>
          obind (segment segments 1) (fun vcs_repository =>
            Ret (result vcs_namespace vcs_repository)))))
  else ret (result VNone VNone).

(** Lines 1739-1749: the Terraform version and the workflow tool. *)
Definition select_workflow_tool (terraform_version : value) : outcome (value * string) :=
  if py_eq terraform_version (VStr "latest") then
    Ret (VStr "1.5.7", "TERRAFORM_FOSS")
  else
    match terraform_version with
    | VStr v =>
        if Str.starts_with "~" v || Str.starts_with "^" v then
          Ret (terraform_version, "OPEN_TOFU")
        else
          match semver_match v ">1.5.7" with
          | Some true => Ret (terraform_version, "OPEN_TOFU")
          | Some false => Ret (terraform_version, "TERRAFORM_FOSS")
          | None => Raise (ValueError "not valid SemVer")
          end
    | _ => Raise AttributeError
    end.

Definition space_id_of (entity : record) : value :=
  if contains entity ["relationships"; "project"; "data"; "id"]
  then get entity ["relationships"; "project"; "data"; "id"]
  else get entity ["relationships"; "organization"; "data"; "id"].

Definition map_stack (cfg : config) (src_data : dataset) (workspace : record)
    : M flags record :=
  let! variables_with_invalid_name :=
    lift (find_workspace_variable_with_invalid_name src_data
            (get workspace ["id"]) "plain") in
  let! secret_variables_with_invalid_name :=
    lift (find_workspace_variable_with_invalid_name src_data
            (get workspace ["id"]) "secret") in
  let auto_fix_variable_names := auto_fix_variable_names cfg in
  let! vcs_info := _determine_provider workspace in
  let vcs_namespace := get vcs_info ["vcs_namespace"] in
  let vcs_repository := get vcs_info ["vcs_repository"] in
  let provider := get vcs_info ["provider"] in
  let! tf :=
    lift (select_workflow_tool (get workspace ["attributes"; "terraform-version"])) in
  let '(terraform_version, terraform_workflow_tool) := tf in
  let space_id := space_id_of workspace in
  let! slug := lift (_build_stack_slug workspace) in
  ret
    [ ("_relationships", VDict [("space", space_id)]);
      ("_source_id", get workspace ["id"]);
      ("autodeploy", get workspace ["attributes"; "auto-apply"]);
      ("description", get workspace ["attributes"; "description"]);
      ("has_variables_with_invalid_name",
        VBool (Nat.ltb 0 (length variables_with_invalid_name)
               && negb auto_fix_variable_names));
      ("has_secret_variables_with_invalid_name",
        VBool (Nat.ltb 0 (length secret_variables_with_invalid_name)
               && negb auto_fix_variable_names));
      ("name", get workspace ["attributes"; "name"]);
      ("labels",
        if is_none (get workspace ["attributes"; "tag-names"]) then VList []
        else get workspace ["attributes"; "tag-names"]);
      ("slug", VStr slug);
      ("terraform",
        VDict [ ("version", terraform_version);
                ("workflow_tool", VStr terraform_workflow_tool) ]);
      ("vcs",
        VDict [ ("branch", get workspace ["attributes"; "vcs-repo"; "branch"]);
                ("namespace", vcs_namespace);
                ("project_root", get workspace ["attributes"; "working-directory"]);
                ("provider", provider);
                ("repository", vcs_repository) ]) ].

Definition _map_stacks_data (cfg : config) (src_data : dataset) : M flags (list record) :=
  let! workspaces := lift (iterate "workspaces" src_data) in
  mmap_list (map_stack cfg src_data) workspaces.

(** *** [_map_stack_variables_data] *)

Fixpoint find_by_id (entities : list record) (id_ : value) : option record :=
  match entities with
  | [] => None
  | entity :: rest =>
      if py_eq (get entity ["id"]) id_ then Some entity else find_by_id rest id_
  end.

(** The variable fields shared by stack and context variables. *)
Definition replacement_name_of (cfg : config) (key : string) (is_name_valid : bool) : string :=
  if auto_fix_variable_names cfg && negb is_name_valid
  then Str.replace_char Str.hyphen Str.underscore key
  else key.

Definition variable_fields (cfg : config) (variable : record) (key : string)
    (is_name_valid : bool) : record :=
  [ ("description", get variable ["attributes"; "description"]);
    ("hcl", get variable ["attributes"; "hcl"]);
    ("name", get variable ["attributes"; "key"]);
    ("replacement_name", VStr (replacement_name_of cfg key is_name_valid));
    ("type",
      VStr (if py_eq (get variable ["attributes"; "category"]) (VStr "terraform")
            then "terraform" else "env_var"));
    ("valid_name", VBool is_name_valid);
    ("value", get variable ["attributes"; "value"]);
    ("write_only", get variable ["attributes"; "sensitive"]) ].

Definition map_stack_variable (cfg : config) (src_data : dataset) (variable : record)
    : outcome record :=
  obind (iterate "workspaces" src_data) (fun workspaces =>
  let workspace :=
    find_by_id workspaces (get variable ["relationships"; "workspace"; "data"; "id"]) in
  match get variable ["attributes"; "key"] with
  | VStr key =>
      let is_name_valid := Str.valid_env_var_name key in
      match workspace with
      | None => Raise TypeError
      | Some workspace =>
          let space_id := space_id_of workspace in
          Ret ([ ("_relationships",
                   VDict [ ("space", space_id);
                           ("stack", get variable ["relationships"; "workspace"; "data"; "id"]) ]);
                 ("_source_id", get variable ["id"]) ]
               ++ variable_fields cfg variable key is_name_valid)
      end
  | _ => Raise TypeError
  end).

Definition _map_stack_variables_data (cfg : config) (src_data : dataset)
    : outcome (list record) :=
  obind (iterate "workspace_variables" src_data) (fun variables =>
    omap_list (map_stack_variable cfg src_data) variables).

(** *** [_map_contexts_data] *)

Definition migration_ref (v : value) : outcome value :=
  obind (generate_migration_id_of v) (fun id_ =>
    Ret (VDict [("_migration_id", VStr id_)])).

(** One iteration of the loop over [variable_sets]: the records it
    appends. *)
Definition map_context (variable_set : record) : outcome (list record) :=
  if truthy (get variable_set ["attributes"; "global"]) then
    obind (generate_migration_id_of (get variable_set ["id"])) (fun mid =>
    obind (migration_ref (get variable_set ["relationships"; "organization"; "data"; "id"]))
      (fun space =>
      Ret [ [ ("_migration_id", VStr mid);
              ("_relationships", VDict [("space", space); ("stacks", VList [])]);
              ("_source_id", get variable_set ["id"]);
              ("description", get variable_set ["attributes"; "description"]);
              ("labels", VList [VStr "autoattach:*"]);
              ("name", get variable_set ["attributes"; "name"]) ] ]))
  else
  obind (attached variable_set ["relationships"; "projects"; "data"]) (fun to_projects =>
  if to_projects then
    each_dict (fun project =>
      obind (generate_migration_id_of (get variable_set ["id"])) (fun mid =>
      obind (migration_ref (get project ["id"])) (fun space =>
        Ret [ ("_migration_id", VStr mid);
              ("_relationships", VDict [("space", space); ("stacks", VList [])]);
              ("_source_id",
                VStr (py_str (get project ["id"]) +:+ "_" +:+ py_str (get variable_set ["id"])));
              ("description", get variable_set ["attributes"; "description"]);
              ("labels", VList [VStr "autoattach:*"]);
              ("name", get variable_set ["attributes"; "name"]) ])))
      (get variable_set ["relationships"; "projects"; "data"])
  else
  obind (attached variable_set ["relationships"; "workspaces"; "data"]) (fun to_workspaces =>
  if to_workspaces then
    obind (each_dict (fun workspace =>
             obind (generate_migration_id_of (get workspace ["id"])) (fun id_ =>
               Ret [("_migration_id", VStr id_)]))
             (get variable_set ["relationships"; "workspaces"; "data"])) (fun stacks =>
    obind (generate_migration_id_of (get variable_set ["id"])) (fun mid =>
    obind (migration_ref (get variable_set ["relationships"; "organization"; "data"; "id"]))
      (fun space =>
      Ret [ [ ("_migration_id", VStr mid);
              ("_relationships",
                VDict [("space", space); ("stacks", VList (map VDict stacks))]);
              ("_source_id", get variable_set ["id"]);
              ("description", get variable_set ["attributes"; "description"]);
              ("labels", VList []);
              ("name", get variable_set ["attributes"; "name"]) ] ])))
  else Ret [])).

Definition _map_contexts_data (src_data : dataset) : outcome (list record) :=
  obind (iterate "variable_sets" src_data) (fun variable_sets =>
    oflat_map map_context variable_sets).

(** *** [_map_context_variables_data] *)

Definition map_context_variable (cfg : config) (src_data : dataset) (variable : record)
    : outcome (list record) :=
  obind (iterate "variable_sets" src_data) (fun variable_sets =>
  let variable_set :=
    find_by_id variable_sets (get variable ["relationships"; "varset"; "data"; "id"]) in
  match get variable ["attributes"; "key"] with
  | VStr key =>
      let is_name_valid := Str.valid_env_var_name key in
      match variable_set with
      | None => Raise TypeError
      | Some variable_set =>
          obind (attached variable_set ["relationships"; "projects"; "data"])
            (fun to_projects =>
          if to_projects then
            each_dict (fun project =>
              obind (generate_migration_id_of (get variable ["id"])) (fun mid =>
              obind (migration_ref (get project ["id"])) (fun space =>
              let context :=
                VDict [("_migration_id",
                         VStr (_generate_migration_id
                                 [py_str (get project ["id"]) +:+ "_"
                                  +:+ py_str (get variable_set ["id"])]))] in
                Ret ([ ("_migration_id", VStr mid);
                       ("_relationships", VDict [("space", space); ("context", context)]);
                       ("_source_id",
                         VStr (py_str (get project ["id"]) +:+ "_"
                               +:+ py_str (get variable ["id"]))) ]
                     ++ variable_fields cfg variable key is_name_valid))))
              (get variable_set ["relationships"; "projects"; "data"])
          else
            obind (generate_migration_id_of (get variable ["id"])) (fun mid =>
            obind (migration_ref
                     (get variable_set ["relationships"; "organization"; "data"; "id"]))
              (fun space =>
            obind (migration_ref (get variable ["relationships"; "varset"; "data"; "id"]))
              (fun context =>
              Ret [ [ ("_migration_id", VStr mid);
                      ("_relationships", VDict [("space", space); ("context", context)]);
                      ("_source_id", get variable ["id"]) ]
                    ++ variable_fields cfg variable key is_name_valid ]))))
      end
  | _ => Raise TypeError
  end).

Definition _map_context_variables_data (cfg : config) (src_data : dataset)
    : outcome (list record) :=
  obind (iterate "variable_set_variables" src_data) (fun variables =>
    oflat_map (map_context_variable cfg src_data) variables).

(** *** [_map_spaces_data], [_map_modules_data] *)

Definition map_space (entity : record) : record :=
  [ ("_source_id", get entity ["id"]);
    ("name", get entity ["attributes"; "name"]);
    ("requires_terraform_workflow_tool", VBool false) ].

Definition _map_spaces_data (src_data : dataset) : outcome (list record) :=
  obind (iterate "organizations" src_data) (fun organizations =>
  obind (iterate "projects" src_data) (fun projects =>
    Ret (map map_space organizations ++ map map_space projects))).

Definition map_module (st : flags) (vcs_provider : string) (module : record)
    : outcome record :=
  let identifier := get module ["attributes"; "vcs-repo"; "identifier"] in
  obind
    (if is_gitlab st && truthy identifier then
       obind (segments_of identifier) (fun segments =>
         Ret (VStr (String.concat "/" (removelast segments)),
              VStr (List.last segments "")))
     else if is_ado st && truthy identifier then
       obind (segments_of identifier) (fun segments =>
       obind (segment segments 1) (fun vcs_namespace =>
       obind (segment segments 3) (fun vcs_repository =>
         Ret (vcs_namespace, vcs_repository))))
     else if negb (is_gitlab st) && negb (is_ado st) && truthy identifier then
       obind (segments_of identifier) (fun segments =>
       obind (segment segments 0) (fun vcs_namespace =>
       obind (segment segments 1) (fun vcs_repository =>
         Ret (vcs_namespace, vcs_repository))))
     else Ret (VNone, VNone))
    (fun '(vcs_namespace, vcs_repository) =>
      Ret [ ("_relationships", VDict [("space", space_id_of module)]);
            ("_source_id", get module ["id"]);
            ("name", get module ["attributes"; "name"]);
            ("status", get module ["attributes"; "status"]);
            ("terraform_provider", get module ["attributes"; "provider"]);
            ("visibility", get module ["attributes"; "registry-name"]);
            ("vcs",
              VDict [ ("branch", get module ["attributes"; "vcs-repo"; "branch"]);
                      ("namespace", vcs_namespace);
                      ("provider", VStr vcs_provider);
                      ("repository", vcs_repository) ]) ]).

Definition _map_modules_data (src_data : dataset) : M flags (list record) :=
  fun st =>
    let vcs_provider := "github_custom" in
    let vcs_provider :=
      if is_gitlab st && negb (is_ado st) then "gitlab" else vcs_provider in
    let vcs_provider := if is_ado st then "azure_devops" else vcs_provider in
    (st, obind (iterate "modules" src_data) (fun modules =>
           omap_list (map_module st vcs_provider) modules)).

(** *** [_mark_spaces_for_terraform_custom_workflow] *)

Fixpoint find_space_index (spaces : list record) (id_ : value) (i : nat) : option nat :=
  match spaces with
  | [] => None
  | space :: rest =>
      if py_eq (get space ["_source_id"]) id_ then Some i
      else find_space_index rest id_ (S i)
  end.

(** One iteration over [stacks]; the space found is updated in place. *)
Definition mark_space_of (data : dataset) (stack : record) : outcome dataset :=
  if py_eq (get stack ["terraform"; "workflow_tool"]) (VStr "CUSTOM") then
    obind (iterate "spaces" data) (fun spaces =>
      match find_space_index spaces (get stack ["_relationships"; "space"]) 0 with
      | Some i =>
          match spaces !! i with
          | Some space =>
              if truthy (VDict space) then
                Ret (set_collection "spaces"
                       (<[i := dict_set "requires_terraform_workflow_tool" (VBool true) space]>
                          spaces) data)
              else Ret data
          | None => Ret data
          end
      | None => Ret data
      end)
  else Ret data.

Fixpoint mark_spaces (stacks : list record) (data : dataset) : outcome dataset :=
  match stacks with
  | [] => Ret data
  | stack :: rest => obind (mark_space_of data stack) (mark_spaces rest)
  end.

Definition _mark_spaces_for_terraform_custom_workflow (data : dataset) : outcome dataset :=
  obind (iterate "stacks" data) (fun stacks => mark_spaces stacks data).

(** *** [_expand_relationships] *)

(** Pluralize the type if not already pluralized. *)
Definition pluralize (type_ : string) : string :=
  if Str.ends_with_char "s"%char type_ then type_ else type_ +:+ "s".

Fixpoint find_by_source_id (entities : list record) (id_ : value) : option record :=
  match entities with
  | [] => None
  | src_datum :: rest =>
      if py_eq (get src_datum ["_source_id"]) id_ then Some src_datum
      else find_by_source_id rest id_
  end.

(** The record found is cloned, and the clone loses its
    [_relationships]. *)
Definition find_entity (data : dataset) (type_ : string) (id_ : value) : outcome value :=
  match collection (pluralize type_) data with
  | None => Raise TypeError
  | Some entities =>
      match find_by_source_id entities id_ with
      | Some src_datum => Ret (VDict (dict_del "_relationships" src_datum))
      | None => Ret VNone
      end
  end.

Definition expand_entry (data : dataset) (entry : string * value)
    : outcome (string * value) :=
  let '(type_, ids) := entry in
  match ids with
  | VList l =>
      obind (omap_list (find_entity data type_) l) (fun found => Ret (type_, VList found))
  | _ => obind (find_entity data type_ ids) (fun found => Ret (type_, found))
  end.

(** The relationship entries of a record that the loop goes through. *)
Definition relationship_entries (datum : record) : outcome (list (string * value)) :=
  let rels := get datum ["_relationships"] in
  if truthy rels then
    match rels with
    | VDict d => Ret d
    | _ => Raise AttributeError
    end
  else Ret [].

(** The body of the loop of [expand_relationship]: the record that
    [datum.update] leaves. *)
Definition expand_datum (data : dataset) (datum : record) : outcome record :=
  obind (relationship_entries datum) (fun entries =>
  obind (omap_list (expand_entry data) entries) (fun relationships =>
  obind (generate_migration_id_of (get datum ["name"])) (fun mid =>
    Ret (dict_set "_relationships" (VDict relationships)
           (dict_set "_migration_id" (VStr mid) datum))))).

(** [expand_relationship(entity_data)]: the records of the collection
    are updated in place, one index after the other, so that a lookup
    sees the records already updated. *)
Fixpoint expand_from (remaining i : nat) (entity_type : string) (data : dataset)
    : outcome dataset :=
  match remaining with
  | O => Ret data
  | S remaining' =>
      match collection entity_type data with
      | Some entity_data =>
          match entity_data !! i with
          | Some datum =>
              obind (expand_datum data datum) (fun datum' =>
                expand_from remaining' (S i) entity_type
                  (set_collection entity_type (<[i := datum']> entity_data) data))
          | None => Ret data
          end
      | None => Ret data
      end
  end.

Definition expand_relationship (entity_type : string) (data : dataset) : outcome dataset :=
  match collection entity_type data with
  | Some entity_data => expand_from (length entity_data) 0 entity_type data
  | None => Ret data
  end.

Definition is_context_collection (entity_type : string) : bool :=
  String.eqb entity_type "contexts" || String.eqb entity_type "context_variables".

Fixpoint expand_collections (entity_types : list string) (data : dataset)
    : outcome dataset :=
  match entity_types with
  | [] => Ret data
  | entity_type :: rest =>
      if is_context_collection entity_type then expand_collections rest data
      else obind (expand_relationship entity_type data) (expand_collections rest)
  end.

Definition _expand_relationships (data : dataset) : outcome dataset :=
  expand_collections (map fst data) data.

(** *** [_map_data] *)

Definition _map_data (cfg : config) (src_data : dataset) : M flags dataset :=
  let! spaces := lift (_map_spaces_data src_data) in
  let! stacks := _map_stacks_data cfg src_data in
  let! modules := _map_modules_data src_data in
  let! stack_variables := lift (_map_stack_variables_data cfg src_data) in
  let data : dataset :=
    [ ("spaces", spaces);
      ("contexts", []);
      ("context_variables", []);
      ("stacks", stacks);
      ("modules", modules);
      ("stack_variables", stack_variables) ] in
  let! data :=
    if experimental_support_variable_sets cfg then
      let! contexts := lift (_map_contexts_data src_data) in
      let data := set_collection "contexts" contexts data in
      let! context_variables := lift (_map_context_variables_data cfg src_data) in
      ret (set_collection "context_variables" context_variables data)
    else ret data in
  let! data := lift (_mark_spaces_for_terraform_custom_workflow data) in
  lift (_expand_relationships data).

End Mapper.

End Mapper.

(** ** What the relationship expander is expected to leave *)

Module ExpanderSpec.

Import Mapper.

(** The collection that the references of type [type_] point into: the
    type itself when it ends with an s, the type with an s added
    otherwise. *)
Definition plural (type_ name : string) : Prop :=
  ((exists stem, type_ = stem +:+ "s") /\ name = type_)
  \/ ((forall stem, type_ <> stem +:+ "s") /\ name = type_ +:+ "s").

(** [inlined] is [entity] without its [_relationships]: no such key is
    left, and every other key holds what it holds in [entity], up to
    the [_migration_id] that the expander may have added. *)
Definition stripped (entity inlined : record) : Prop :=
  dict_get "_relationships" inlined = None
  /\ forall k, k <> "_relationships" -> k <> "_migration_id" ->
       dict_get k inlined = dict_get k entity.

(** [v] is what the reference [id_] of type [type_] resolves to in the
    graph [data]: [None] when no record of the target collection has
    that [_source_id], or a record of the target collection that has
    it, inlined without its [_relationships]. *)
Definition resolves (data : dataset) (type_ : string) (id_ v : value) : Prop :=
  exists name entities,
    plural type_ name
    /\ collection name data = Some entities
    /\ ((v = VNone
         /\ Forall (fun entity => py_eq (get entity ["_source_id"]) id_ = false) entities)
        \/ (exists entity inlined,
              In entity entities
              /\ py_eq (get entity ["_source_id"]) id_ = true
              /\ v = VDict inlined
              /\ py_eq (get inlined ["_source_id"]) id_ = true
              /\ stripped entity inlined)).

(** An entry of [_relationships] after expansion: same key, and the
    resolution of the id, or the list of the resolutions of the ids. *)
Definition entry_resolved (data : dataset) (entry resolved : string * value) : Prop :=
  fst resolved = fst entry
  /\ match snd entry with
     | VList ids =>
         exists found,
           snd resolved = VList found
           /\ Forall2 (resolves data (fst entry)) ids found
     | id_ => resolves data (fst entry) id_ (snd resolved)
     end.

(** The references that a record holds: the entries of its
    [_relationships], none when it has none. *)
Definition references (datum : record) (entries : list (string * value)) : Prop :=
  get datum ["_relationships"] = VDict entries
  \/ (truthy (get datum ["_relationships"]) = false /\ entries = []).

(** [datum'] is [datum] with its references resolved in [data]: key by
    key and in order, and nothing else changed but the
    [_migration_id]. *)
Definition expanded (data : dataset) (datum datum' : record) : Prop :=
  (exists entries relationships,
     references datum entries
     /\ get datum' ["_relationships"] = VDict relationships
     /\ Forall2 (entry_resolved data) entries relationships)
  /\ forall k, k <> "_relationships" -> k <> "_migration_id" ->
       dict_get k datum' = dict_get k datum.

(** A record the expander can work on: its name is a string, and each
    type it refers to has its collection in [data]. *)
Definition well_formed (data : dataset) (datum : record) : Prop :=
  (exists name, get datum ["name"] = VStr name)
  /\ exists entries,
       references datum entries
       /\ Forall (fun entry =>
                    exists name, plural (fst entry) name /\ collection name data <> None)
            entries.

(** The two collections whose records the expander passes over. *)
Definition passed_over (name : string) : Prop :=
  name = "contexts" \/ name = "context_variables".

(** Two graphs with the same collections and, record by record, the
    same contents but for [_relationships] and [_migration_id]. *)
Definition same_graph (data0 data : dataset) : Prop :=
  forall name,
    match collection name data0, collection name data with
    | Some l0, Some l =>
        Forall2 (fun r0 r => forall k, k <> "_relationships" -> k <> "_migration_id" ->
                               dict_get k r = dict_get k r0) l0 l
    | None, None => True
    | _, _ => False
    end.

Section Spec.

Context {libs : Libs}.

(** What the expander needs of a record: a name that is a string, and
    relationships that are a dict (or nothing) whose types have a
    collection in [data]. *)
Definition expandable (data : dataset) (datum : record) : Prop :=
  (exists name, get datum ["name"] = VStr name)
  /\ exists entries,
       relationship_entries datum = Ret entries
       /\ Forall (fun entry => collection (pluralize (fst entry)) data <> None) entries.

End Spec.

End ExpanderSpec.

(** ** The sensitive-value enrichment saga:
       [_enrich_workspace_variable_data] *)

Module Saga.

Import Mapper.

(** What the saga backs up, changes and restores on a remote workspace:
    [attributes.execution-mode], [attributes.setting-overwrites] and
    [relationships.agent-pool]. *)
Record exec_settings : Type := {
  execution_mode : value;
  setting_overwrites : value;
  agent_pool : value;
}.

(** Where in the [try] statement a call is made. *)
Inductive site : Type := InBody | InFinally.

(** The calls the saga makes to the API, to the container runtime and to
    the disk. *)
Inductive call : Type :=
| CCreatePool (organization_id : string)
| CCreateToken (pool_id : string)
| CDockerRun (container_name : string)
| CDockerPs
| CBackup (workspace_id : string)
| CRepoint (workspace_id : string)
| CTrigger (workspace_id : string)
| CPoll (plan_id : string)
| CReadLog (run_id : string)
| CRestore (s : site) (workspace_id : string)
| CInspect (s : site) (container_name : string)
| CLogs (container_name : string)
| CStop (container_name : string)
| CDeletePool (pool_id : string).

(** The calls issued so far, oldest first, each with whether it
    succeeded. *)
Definition history : Type := list (call * bool).

(** The remote platform and the container runtime.  The containers
    are those that run: the agent is started with [remove=True], so
    that a container that is stopped, or exits, is removed. *)
Record world : Type := {
  workspaces : gmap string exec_settings;
  agent_pools : gset string;
  containers : gset string;
  trace : history;
}.

(** Everything outside the program: which call fails and with what,
    given the calls so far, and whether what a failing call asked for
    was done all the same (a request can be carried out and its answer
    lost, or not understood: lines 73, 82-87 and 96); which containers
    have exited by themselves when the runtime is next asked; what the
    platform answers; the operator. *)
Record env : Type := {
  container_runtime_available : bool;
  confirmed : bool;
  fault : history -> call -> option exn;
  applied : history -> call -> bool;
  exits : history -> string -> bool;
  new_pool_id : string -> string;
  run_of : string -> option (string * string);
  plan_status : string -> nat -> string * value;
  log_of : string -> string;
}.

(** The variables of the loop body that the [finally] suite reads. *)
Record locals : Type := {
  agent_pool_id : option string;
  agent_container : option string;
  current_workspace_id : option string;
  workspace_data_backup : option exec_settings;
  restored_agent : bool;
}.

Record state : Type := {
  st_world : world;
  st_data : dataset;
  st_locals : locals;
}.

Definition initial_locals : locals :=
  {| agent_pool_id := None;
     agent_container := None;
     current_workspace_id := None;
     workspace_data_backup := None;
     restored_agent := true |}.

Definition with_world (f : world -> world) (st : state) : state :=
  {| st_world := f (st_world st); st_data := st_data st; st_locals := st_locals st |}.

Definition with_locals (f : locals -> locals) (st : state) : state :=
  {| st_world := st_world st; st_data := st_data st; st_locals := f (st_locals st) |}.

Definition with_data (d : dataset) (st : state) : state :=
  {| st_world := st_world st; st_data := d; st_locals := st_locals st |}.

Definition log_call (c : call) (ok : bool) (w : world) : world :=
  {| workspaces := workspaces w;
     agent_pools := agent_pools w;
     containers := containers w;
     trace := trace w ++ [(c, ok)] |}.

Definition set_workspaces (f : gmap string exec_settings -> gmap string exec_settings)
    (w : world) : world :=
  {| workspaces := f (workspaces w);
     agent_pools := agent_pools w;
     containers := containers w;
     trace := trace w |}.

Definition set_agent_pools (f : gset string -> gset string) (w : world) : world :=
  {| workspaces := workspaces w;
     agent_pools := f (agent_pools w);
     containers := containers w;
     trace := trace w |}.

Definition set_containers (f : gset string -> gset string) (w : world) : world :=
  {| workspaces := workspaces w;
     agent_pools := agent_pools w;
     containers := f (containers w);
     trace := trace w |}.

Definition set_current_workspace_id (x : option string) (l : locals) : locals :=
  {| agent_pool_id := agent_pool_id l;
     agent_container := agent_container l;
     current_workspace_id := x;
     workspace_data_backup := workspace_data_backup l;
     restored_agent := restored_agent l |}.

Definition set_workspace_data_backup (x : option exec_settings) (l : locals) : locals :=
  {| agent_pool_id := agent_pool_id l;
     agent_container := agent_container l;
     current_workspace_id := current_workspace_id l;
     workspace_data_backup := x;
     restored_agent := restored_agent l |}.

Definition set_restored_agent (x : bool) (l : locals) : locals :=
  {| agent_pool_id := agent_pool_id l;
     agent_container := agent_container l;
     current_workspace_id := current_workspace_id l;
     workspace_data_backup := workspace_data_backup l;
     restored_agent := x |}.

Definition set_agent_pool_id (x : option string) (l : locals) : locals :=
  {| agent_pool_id := x;
     agent_container := agent_container l;
     current_workspace_id := current_workspace_id l;
     workspace_data_backup := workspace_data_backup l;
     restored_agent := restored_agent l |}.

Definition set_agent_container (x : option string) (l : locals) : locals :=
  {| agent_pool_id := agent_pool_id l;
     agent_container := x;
     current_workspace_id := current_workspace_id l;
     workspace_data_backup := workspace_data_backup l;
     restored_agent := restored_agent l |}.

Definition assign (f : locals -> locals) : M state unit :=
  fun st => (with_locals f st, Ret tt).

Definition read {A} (f : state -> A) : M state A :=
  fun st => (st, Ret (f st)).

Section Saga.

Variable E : env.

(** One external call: it raises what the environment says.  Its effect
    on the world is there when it returns, and also when it raises
    after what it asked for was done. *)
Definition external (c : call) (effect : world -> world) : M state unit :=
  fun st =>
    let h := trace (st_world st) in
    match fault E h c with
    | Some e =>
        (with_world (fun w => log_call c false (if applied E h c then effect w else w)) st,
         Raise e)
    | None => (with_world (fun w => log_call c true (effect w)) st, Ret tt)
    end.

(** The containers that have exited by themselves are gone when the
    runtime is asked. *)
Definition settle (w : world) : world :=
  set_containers (filter (fun name => exits E (trace w) name = false)) w.

(** A call to the container runtime. *)
Definition runtime (c : call) (effect : world -> world) : M state unit :=
  fun st => external c effect (with_world settle st).

(** A call to the runtime about one container, which raises when the
    container is gone. *)
Definition on_container (container_name : string) (c : call) (effect : world -> world)
    : M state unit :=
  fun st =>
    let st := with_world settle st in
    if bool_decide (container_name ∈ containers (st_world st))
    then external c effect st
    else (with_world (log_call c false) st, Raise (ExternalError "No such container")).

Definition container_name_of (organization_id : string) : string :=
  "smk-tfc-agent-" +:+ organization_id.

Definition _create_agent_pool (organization_id : string) : M state string :=
  let id_ := new_pool_id E organization_id in
  let! _ := external (CCreatePool organization_id)
              (set_agent_pools (fun pools => {[ id_ ]} ∪ pools)) in
  ret id_.

Definition _create_agent_token (pool_id : string) : M state unit :=
  external (CCreateToken pool_id) id.

(** The [while not found] loop: at most eleven listings of the
    containers that run, in which the agent is looked for by name. *)
Fixpoint verify_started (remaining attempts : nat) (container_name : string)
    : M state unit :=
  match remaining with
  | O => raise AgentStartError
  | S remaining' =>
      let! _ := runtime CDockerPs id in
      let! found :=
        read (fun st => bool_decide (container_name ∈ containers (st_world st))) in
      let attempts := S attempts in
      let max_attempts := 10 in
      if Nat.ltb max_attempts attempts then raise AgentStartError
      else if found then ret tt
      else verify_started remaining' attempts container_name
  end.

Definition _start_agent_container (pool_id container_name : string) : M state string :=
  let! _ := _create_agent_token pool_id in
  let! _ := runtime (CDockerRun container_name)
              (set_containers (fun cs => {[ container_name ]} ∪ cs)) in
  let! _ := verify_started 11 0 container_name in
  ret container_name.

Definition agent_settings (pool_id : string) : exec_settings :=
  {| execution_mode := VStr "agent";
     setting_overwrites :=
       VDict [("execution-mode", VBool true); ("agent-pool", VBool true)];
     agent_pool := VStr pool_id |}.

(** [GET /workspaces/{id}] and [[0]]: an unknown workspace is a 404,
    hence an empty list. *)
Definition backup_workspace (workspace_id : string) : M state exec_settings :=
  let! _ := external (CBackup workspace_id) id in
  fun st =>
    match workspaces (st_world st) !! workspace_id with
    | Some settings => (st, Ret settings)
    | None => (st, Raise IndexError)
    end.

(** [PATCH /workspaces/{id}] to the agent pool. *)
Definition repoint_workspace (workspace_id pool_id : string) : M state unit :=
  external (CRepoint workspace_id)
    (set_workspaces (alter (fun _ => agent_settings pool_id) workspace_id)).

Definition _restore_workspace_exec_mode (s : site) (workspace_id : string)
    (backup : exec_settings) : M state unit :=
  external (CRestore s workspace_id)
    (set_workspaces (alter (fun _ => backup) workspace_id)).

(** The warning when the container is not running any more has no
    effect: the container is stopped all the same. *)
Definition _stop_agent_container (container_name : string) : M state unit :=
  let! _ := runtime (CInspect InFinally container_name) id in
  on_container container_name (CStop container_name)
    (set_containers (fun cs => cs ∖ {[ container_name ]})).

Definition _delete_agent_pool (pool_id : string) : M state unit :=
  external (CDeletePool pool_id) (set_agent_pools (fun pools => pools ∖ {[ pool_id ]})).

(** [_get_plan]: poll until the plan is over; the value returned is the
    [attributes.log-read-url] the caller reads from the result. *)
Fixpoint _get_plan (fuel : nat) (id_ : string) (attempt : nat) : M state value :=
  match fuel with
  | O => diverge
  | S fuel' =>
      let! _ := external (CPoll id_) id in
      let '(status, log_read_url) := plan_status E id_ attempt in
      if String.eqb status "errored" || String.eqb status "finished" then
        ret log_read_url
      else if String.eqb status "canceled" || String.eqb status "unreachable" then
        ret VNone
      else _get_plan fuel' id_ (S attempt)
  end.

(** *** Scanning the plan log *)

Fixpoint index_by_id (entities : list record) (id_ : value) (i : nat) : option nat :=
  match entities with
  | [] => None
  | entity :: rest =>
      if py_eq (get entity ["id"]) id_ then Some i else index_by_id rest id_ (S i)
  end.

(** [entity[path] = x] on the entity of a collection that has that id;
    [missing] is what happens when there is none. *)
Definition update_entity (name : string) (id_ : string) (missing : outcome dataset)
    (f : record -> record) (data : dataset) : outcome dataset :=
  obind (iterate name data) (fun entities =>
    match index_by_id entities (VStr id_) 0 with
    | Some i =>
        match entities !! i with
        | Some entity => Ret (set_collection name (<[i := f entity]> entities) data)
        | None => missing
        end
    | None => missing
    end).

Definition branch_marker : string := "ATLAS_CONFIGURATION_VERSION_GITHUB_BRANCH=".

Definition scan_variable (workspace_id line : string) (data : dataset)
    (variable : string * string) : outcome dataset :=
  let '(workspace_variable_id, workspace_variable_name) := variable in
  let prefix := workspace_variable_name +:+ "=" in
  obind
    (if Str.starts_with prefix line then
       update_entity "workspace_variables" workspace_variable_id (Raise TypeError)
         (set_path ["attributes"; "value"] (VStr (Str.remove_prefix prefix line))) data
     else Ret data)
    (fun data =>
       if Str.starts_with branch_marker line then
         update_entity "workspaces" workspace_id (Ret data)
           (fun workspace =>
              if truthy (VDict workspace)
                 && negb (truthy (get workspace ["attributes"; "vcs-repo"; "branch"]))
              then set_path ["attributes"; "vcs-repo"; "branch"]
                     (VStr (Str.remove_prefix branch_marker line)) workspace
              else workspace) data
       else Ret data).

Fixpoint ofold {A B} (f : A -> B -> outcome A) (l : list B) (a : A) : outcome A :=
  match l with
  | [] => Ret a
  | b :: l' => obind (f a b) (ofold f l')
  end.

Definition scan_log (workspace_id : string) (workspace_variables : list (string * string))
    (logs_data : string) (data : dataset) : outcome dataset :=
  ofold (fun data line => ofold (scan_variable workspace_id line) workspace_variables data)
    (Str.split_on Str.newline logs_data) data.

(** Reading the log from disk and scanning it. *)
Definition recover_values (workspace_id run_id : string)
    (workspace_variables : list (string * string)) : M state unit :=
  let! _ := external (CReadLog run_id) id in
  fun st =>
    match scan_log workspace_id workspace_variables (log_of E run_id) (st_data st) with
    | Ret data' => (with_data data' st, Ret tt)
    | Raise e => (st, Raise e)
    | Diverge => (st, Diverge)
    end.

(** *** The loop over the workspaces of one organization *)

Definition find_workspace (workspace_id : string) : M state (option record) :=
  fun st =>
    (st, obind (iterate "workspaces" (st_data st)) (fun l =>
           Ret (find_by_id l (VStr workspace_id)))).

(** Lines 698-759: what follows the mutation of the workspace. *)
Definition plan_and_restore (fuel : nat) (organization_id workspace_id : string)
    (workspace_variables : list (string * string)) (backup : exec_settings)
    : M state unit :=
  let! _ := external (CTrigger workspace_id) id in
  match run_of E workspace_id with
  | None => raise (TerraformExporterPlanError organization_id workspace_id)
  | Some (run_id, plan_id) =>
      let! log_read_url := _get_plan fuel plan_id 0 in
      let! _ :=
        if truthy log_read_url
        then recover_values workspace_id run_id workspace_variables
        else ret tt in
      let! _ := _restore_workspace_exec_mode InBody workspace_id backup in
      assign (set_restored_agent true)
  end.

(** Lines 669-696: back up, then repoint at the agent pool. *)
Definition backup_and_repoint (workspace_id : string) : M state exec_settings :=
  let! backup := backup_workspace workspace_id in
  let! _ := assign (set_workspace_data_backup (Some backup)) in
  let! pool := read (fun st => agent_pool_id (st_locals st)) in
  let! _ := repoint_workspace workspace_id (default "" pool) in
  let! _ := assign (set_restored_agent false) in
  ret backup.

(** The body of the loop over [workspaces.items()]. *)
Definition enrich_workspace (fuel : nat) (organization_id : string)
    (workspace : string * list (string * string)) : M state unit :=
  let '(workspace_id, workspace_variables) := workspace in
  let! _ := assign (set_current_workspace_id (Some workspace_id)) in
  let! found := find_workspace workspace_id in
  match found with
  | None => raise AttributeError
  | Some w =>
      if is_none (get w ["relationships"; "current-configuration-version"; "data"; "id"])
      then ret tt
      else
        let! backup := backup_and_repoint workspace_id in
        plan_and_restore fuel organization_id workspace_id workspace_variables backup
  end.

Fixpoint enrich_workspaces (fuel : nat) (organization_id : string)
    (workspaces : list (string * list (string * string))) : M state unit :=
  match workspaces with
  | [] => ret tt
  | workspace :: rest =>
      let! _ := enrich_workspace fuel organization_id workspace in
      enrich_workspaces fuel organization_id rest
  end.

(** The [try] suite for one organization. *)
Definition saga_body (fuel : nat) (organization_id : string)
    (workspaces : list (string * list (string * string))) : M state unit :=
  let! pool := _create_agent_pool organization_id in
  let! _ := assign (set_agent_pool_id (Some pool)) in
  let agent_container_name := container_name_of organization_id in
  let! container := _start_agent_container pool agent_container_name in
  let! _ := assign (set_agent_container (Some container)) in
  let! _ := enrich_workspaces fuel organization_id workspaces in
  let! _ := runtime (CInspect InBody container) id in
  let! running := read (fun st => bool_decide (container ∈ containers (st_world st))) in
  if running then on_container container (CLogs container) id else ret tt.

(** The [finally] suite. *)
Definition saga_cleanup : M state unit :=
  let! l := read st_locals in
  let! _ :=
    if negb (restored_agent l) then
      match current_workspace_id l, workspace_data_backup l with
      | Some workspace_id, Some backup =>
          _restore_workspace_exec_mode InFinally workspace_id backup
      | _, _ => raise AttributeError
      end
    else ret tt in
  let! _ :=
    match agent_container l with
    | Some container => _stop_agent_container container
    | None => ret tt
    end in
  match agent_pool_id l with
  | Some pool => if String.eqb pool "" then ret tt else _delete_agent_pool pool
  | None => ret tt
  end.

(** One iteration of the loop over [organizations.items()]. *)
Definition enrich_organization (fuel : nat) (organization_id : string)
    (workspaces : list (string * list (string * string))) : M state unit :=
  let! _ := assign (fun _ => initial_locals) in
  try_finally (saga_body fuel organization_id workspaces) saga_cleanup.

Fixpoint enrich_organizations (fuel : nat)
    (organizations : list (string * list (string * list (string * string))))
    : M state unit :=
  match organizations with
  | [] => ret tt
  | (organization_id, workspaces) :: rest =>
      let! _ := enrich_organization fuel organization_id workspaces in
      enrich_organizations fuel rest
  end.

(** [_enrich_workspace_variable_data], from the dictionary
    [organizations] that its first loop builds (organization id to
    workspace id to variable id to variable key, for the sensitive
    variables). *)
Definition _enrich_workspace_variable_data (fuel : nat)
    (organizations : list (string * list (string * list (string * string))))
    : M state unit :=
  if negb (container_runtime_available E) then ret tt
  else if negb (confirmed E) then ret tt
  else enrich_organizations fuel organizations.

End Saga.

End Saga.

(** ** What the saga is expected to leave *)

Module SagaSpec.

Import Saga.

Fixpoint count (p : call * bool -> bool) (h : history) : nat :=
  match h with
  | [] => 0
  | entry :: h' => (if p entry then 1 else 0) + count p h'
  end.

(** A mutation applied to a workspace: a repoint that succeeded. *)
Definition is_mutation_of (workspace_id : string) (entry : call * bool) : bool :=
  match entry with
  | (CRepoint w, true) => String.eqb w workspace_id
  | _ => false
  end.

(** A restoration triggered for a workspace, from either site. *)
Definition is_restore_of (workspace_id : string) (entry : call * bool) : bool :=
  match entry with
  | (CRestore _ w, _) => String.eqb w workspace_id
  | _ => false
  end.

Definition mutations (workspace_id : string) (h : history) : nat :=
  count (is_mutation_of workspace_id) h.

Definition restores (workspace_id : string) (h : history) : nat :=
  count (is_restore_of workspace_id) h.

(** The calls of steps 3 to 5 of the per-workspace saga: backup,
    repoint, trigger, poll and reading the log. *)
Definition step_call (c : call) : bool :=
  match c with
  | CBackup _ | CRepoint _ | CTrigger _ | CPoll _ | CReadLog _ => true
  | _ => false
  end.

Definition faults_within_steps (E : env) : Prop :=
  forall h c, fault E h c <> None -> step_call c = true.

Definition plan_is_over (status : string) : bool :=
  String.eqb status "errored" || String.eqb status "finished"
  || String.eqb status "canceled" || String.eqb status "unreachable".

(** Every plan is over within [fuel] polls. *)
Definition plans_end_within (E : env) (fuel : nat) : Prop :=
  forall plan_id, exists n, n < fuel /\ plan_is_over (fst (plan_status E plan_id n)) = true.

(** The agent container keeps running until it is stopped. *)
Definition agent_stays_up (E : env) : Prop :=
  forall h container_name, exits E h container_name = false.

(** A repoint that raises was not carried out. *)
Definition repoint_fails_cleanly (E : env) : Prop :=
  forall h workspace_id, applied E h (CRepoint workspace_id) = false.



(** The world after more calls were logged. *)
Definition append_trace (new : history) (w : world) : world :=
  {| workspaces := workspaces w;
     agent_pools := agent_pools w;
     containers := containers w;
     trace := trace w ++ new |}.

(** Calls that neither mutate nor restore a workspace. *)
Definition neutral (new : history) : Prop :=
  forall workspace_id,
    restores workspace_id new = 0 /\ mutations workspace_id new = 0.

(** The loop leaves the pool, the container and their variables alone. *)
Definition infrastructure_kept (st st' : state) : Prop :=
  agent_pools (st_world st') = agent_pools (st_world st)
  /\ containers (st_world st') = containers (st_world st)
  /\ agent_pool_id (st_locals st') = agent_pool_id (st_locals st)
  /\ agent_container (st_locals st') = agent_container (st_locals st).

(** Between [st] and [st'] every mutation applied was restored. *)
Definition settled (st st' : state) : Prop :=
  restored_agent (st_locals st') = true
  /\ workspaces (st_world st') = workspaces (st_world st)
  /\ exists new,
       trace (st_world st') = trace (st_world st) ++ new
       /\ forall workspace_id, restores workspace_id new = mutations workspace_id new.

(** Between [st] and [st'] one mutation is applied and not yet restored:
    the one of the current workspace, whose backup holds the settings
    it had in [st]. *)
Definition pending (st st' : state) : Prop :=
  restored_agent (st_locals st') = false
  /\ exists workspace_id backup changed new,
       current_workspace_id (st_locals st') = Some workspace_id
       /\ workspace_data_backup (st_locals st') = Some backup
       /\ workspaces (st_world st) !! workspace_id = Some backup
       /\ workspaces (st_world st')
          = alter (fun _ => changed) workspace_id (workspaces (st_world st))
       /\ trace (st_world st') = trace (st_world st) ++ new
       /\ forall w,
            restores w new + (if String.eqb workspace_id w then 1 else 0)
            = mutations w new.




(** What the loop over the workspaces guarantees when it stops. *)
Definition loop_post (st st' : state) (r : outcome unit) : Prop :=
  r <> Diverge
  /\ infrastructure_kept st st'
  /\ (settled st st' \/ (pending st st' /\ exists e, r = Raise e)).

End SagaSpec.

(** ** Example servers and inputs *)

Module Examples.

Import Api.

(** A server with two pages of workspaces behind [/organizations/o/workspaces],
    a single object behind [/workspaces/ws-1], and nothing else. *)
Definition page1 : record :=
  [ ("data", VList [ VDict [("id", VStr "ws-1");
                            ("attributes", VDict [("name", VStr "alpha")])];
                     VDict [("id", VStr "ws-2");
                            ("attributes", VDict [("name", VStr "beta")])] ]);
    ("links", VDict [("next", VStr "https://tfe/api/v2/organizations/o/workspaces?page=2")]) ].

Definition page2 : record :=
  [ ("data", VList [ VDict [("id", VStr "ws-3");
                            ("attributes", VDict [("name", VStr "gamma")])] ]);
    ("links", VDict [("next", VNone)]) ].

Definition single : record :=
  [ ("data", VDict [("id", VStr "ws-1");
                    ("attributes", VDict [("name", VStr "alpha")])]) ].

Definition two_page_http (rq : request) (σ : unit) : unit * http_outcome :=
  if String.eqb (rq_url rq) "https://tfe/api/v2/organizations/o/workspaces"
  then (σ, HttpResponse 200 (Json page1))
  else if String.eqb (rq_url rq) "https://tfe/api/v2/organizations/o/workspaces?page=2"
  then (σ, HttpResponse 200 (Json page2))
  else if String.eqb (rq_url rq) "https://tfe/api/v2/workspaces/ws-1"
  then (σ, HttpResponse 200 (Json single))
  else (σ, HttpResponse 404 NoContent).

Definition two_page_client : Client unit :=
  {| http := two_page_http;
     pydash_omit := fun doc _ => doc;
     re_compile := fun _ => Some (fun _ => true);
     api_endpoint := "https://tfe" |}.

(** Stand-ins for the libraries, for running the mapper on examples:
    a slug that lower-cases letters and puts a hyphen for whatever is
    neither a letter nor a digit, and a [semver.match] that reads three
    dot-separated numbers (and raises on anything else). *)
Definition slug_char (c : ascii) : ascii :=
  if Str.in_range 65 90 c then ascii_of_nat (nat_of_ascii c + 32)
  else if Str.is_letter c || Str.is_digit c then c
  else Str.hyphen.

Fixpoint example_slugify (s : string) : string :=
  match s with
  | EmptyString => EmptyString
  | String c s' => String (slug_char c) (example_slugify s')
  end.

Fixpoint number_of (s : string) (acc : nat) : option nat :=
  match s with
  | EmptyString => Some acc
  | String c s' =>
      if Str.is_digit c then number_of s' (10 * acc + (nat_of_ascii c - 48))
      else None
  end.

Definition number (s : string) : option nat :=
  match s with
  | EmptyString => None
  | _ => number_of s 0
  end.

Definition example_semver_match (version match_expr : string) : option bool :=
  if String.eqb match_expr ">1.5.7" then
    match Str.split_on "."%char version with
    | [a; b; c] =>
        match number a, number b, number c with
        | Some major, Some minor, Some patch =>
            Some (Nat.ltb 1 major
                  || (Nat.eqb major 1
                      && (Nat.ltb 5 minor || (Nat.eqb minor 5 && Nat.ltb 7 patch))))
        | _, _, _ => None
        end
    | _ => None
    end
  else None.

Definition example_libs : Mapper.Libs :=
  {| Mapper.slugify := example_slugify;
     Mapper.semver_match := example_semver_match;
     Mapper.py_repr := fun _ => "" |}.

Definition no_flags : Mapper.flags :=
  {| Mapper.is_gitlab := false; Mapper.is_ado := false |}.

Definition auto_fix_off : Mapper.config :=
  {| Mapper.auto_fix_variable_names := false;
     Mapper.experimental_support_variable_sets := true |}.

Definition auto_fix_on : Mapper.config :=
  {| Mapper.auto_fix_variable_names := true;
     Mapper.experimental_support_variable_sets := true |}.

Definition workspace_with_version (id_ name version : string) : record :=
  [ ("id", VStr id_);
    ("attributes",
      VDict [ ("name", VStr name); ("terraform-version", VStr version) ]);
    ("relationships",
      VDict [ ("organization", VDict [("data", VDict [("id", VStr "org-1")])]) ]) ].

Definition variable_of (id_ key workspace_id : string) (sensitive : bool) : record :=
  [ ("id", VStr id_);
    ("attributes",
      VDict [ ("key", VStr key); ("sensitive", VBool sensitive);
              ("category", VStr "env") ]);
    ("relationships",
      VDict [ ("workspace", VDict [("data", VDict [("id", VStr workspace_id)])]) ]) ].

(** One workspace with one variable named [bad-name]. *)
Definition bad_name_data (sensitive : bool) : Mapper.dataset :=
  [ ("workspaces", [workspace_with_version "ws-1" "network" "1.5.7"]);
    ("workspace_variables", [variable_of "var-1" "bad-name" "ws-1" sensitive]) ].

(** A variable set attached to the projects [prj-a] and [prj-b], with
    one variable. *)
Definition shared_variable_set : record :=
  [ ("id", VStr "varset-1");
    ("attributes",
      VDict [ ("name", VStr "shared"); ("description", VStr "shared settings");
              ("global", VBool false) ]);
    ("relationships",
      VDict [ ("organization", VDict [("data", VDict [("id", VStr "org-1")])]);
              ("projects",
                VDict [("data", VList [ VDict [("id", VStr "prj-a"); ("type", VStr "projects")];
                                        VDict [("id", VStr "prj-b"); ("type", VStr "projects")] ])]);
              ("workspaces", VDict [("data", VList [])]) ]) ].

Definition shared_variable : record :=
  [ ("id", VStr "var-9");
    ("attributes",
      VDict [ ("key", VStr "REGION"); ("sensitive", VBool false);
              ("category", VStr "env") ]);
    ("relationships",
      VDict [ ("varset", VDict [("data", VDict [("id", VStr "varset-1")])]) ]) ].

Definition shared_data : Mapper.dataset :=
  [ ("variable_sets", [shared_variable_set]);
    ("variable_set_variables", [shared_variable]) ].

(** A variable set attached to two workspaces only. *)
Definition workspace_variable_set : record :=
  [ ("id", VStr "varset-2");
    ("attributes",
      VDict [ ("name", VStr "local"); ("description", VNone);
              ("global", VBool false) ]);
    ("relationships",
      VDict [ ("organization", VDict [("data", VDict [("id", VStr "org-1")])]);
              ("projects", VDict [("data", VList [])]);
              ("workspaces",
                VDict [("data", VList [ VDict [("id", VStr "ws-1"); ("type", VStr "workspaces")];
                                        VDict [("id", VStr "ws-2"); ("type", VStr "workspaces")] ])]) ]) ].

(** Four workspaces with the versions the selection distinguishes. *)
Definition versions_data : Mapper.dataset :=
  [ ("workspaces",
      [ workspace_with_version "ws-1" "network" "latest";
        workspace_with_version "ws-2" "cluster" "~1.6.0";
        workspace_with_version "ws-3" "dns" "1.6.0";
        workspace_with_version "ws-4" "vault" "1.5.7" ]);
    ("workspace_variables", []) ].

(** A mapped graph as [_map_data] hands it to the expander: a stack in
    a space, and a variable that refers to a space that does not exist
    and to two stacks, one of which does not exist. *)
Definition mapped_graph : Mapper.dataset :=
  [ ("spaces", [ [ ("_source_id", VStr "org-1"); ("name", VStr "Acme") ] ]);
    ("contexts", []);
    ("stacks",
      [ [ ("_relationships", VDict [("space", VStr "org-1")]);
          ("_source_id", VStr "ws-1"); ("name", VStr "network") ] ]);
    ("stack_variables",
      [ [ ("_relationships",
            VDict [ ("space", VStr "org-9");
                    ("stack", VList [VStr "ws-1"; VStr "ws-0"]) ]);
          ("_source_id", VStr "var-1"); ("name", VStr "REGION") ] ]) ].

(** A remote platform with two workspaces run remotely, and the data
    extracted from it: one sensitive variable in each workspace. *)
Definition remote_settings : Saga.exec_settings :=
  {| Saga.execution_mode := VStr "remote";
     Saga.setting_overwrites :=
       VDict [("execution-mode", VBool false); ("agent-pool", VBool false)];
     Saga.agent_pool := VNone |}.

Definition saga_world : Saga.world :=
  {| Saga.workspaces := {[ "ws-1" := remote_settings; "ws-2" := remote_settings ]};
     Saga.agent_pools := ∅;
     Saga.containers := ∅;
     Saga.trace := [] |}.

Definition configured_workspace (id_ : string) : record :=
  [ ("id", VStr id_);
    ("attributes", VDict [("name", VStr id_); ("vcs-repo", VDict [("branch", VNone)])]);
    ("relationships",
      VDict [ ("current-configuration-version",
                VDict [("data", VDict [("id", VStr "cv-1")])]);
              ("organization", VDict [("data", VDict [("id", VStr "org-1")])]) ]) ].

Definition saga_data : Mapper.dataset :=
  [ ("workspaces", [configured_workspace "ws-1"; configured_workspace "ws-2"]);
    ("workspace_variables",
      [ variable_of "var-1" "TOKEN" "ws-1" true;
        variable_of "var-2" "PASSWORD" "ws-2" true ]) ].

Definition saga_state : Saga.state :=
  {| Saga.st_world := saga_world;
     Saga.st_data := saga_data;
     Saga.st_locals := Saga.initial_locals |}.

Definition saga_workspaces : list (string * list (string * string)) :=
  [ ("ws-1", [("var-1", "TOKEN")]); ("ws-2", [("var-2", "PASSWORD")]) ].

Definition plan_log : string :=
  "TOKEN=s3cr3t" +:+ String Str.newline "PASSWORD=hunter2".

(** The agent keeps running, plans finish at the second poll, and the
    calls in [faulty] raise without having been carried out. *)
Definition env_with_faults (faulty : Saga.call -> option exn) : Saga.env :=
  {| Saga.container_runtime_available := true;
     Saga.confirmed := true;
     Saga.fault := fun _ c => faulty c;
     Saga.applied := fun _ _ => false;
     Saga.exits := fun _ _ => false;
     Saga.new_pool_id := fun organization_id => "apool-" +:+ organization_id;
     Saga.run_of := fun workspace_id =>
       Some ("run-" +:+ workspace_id, "plan-" +:+ workspace_id);
     Saga.plan_status := fun _ n =>
       if Nat.leb 1 n then ("finished", VStr "https://archivist/log")
       else ("running", VNone);
     Saga.log_of := fun _ => plan_log |}.

(** Triggering the plan of [ws-2] fails. *)
Definition trigger_fails : Saga.env :=
  env_with_faults (fun c =>
    match c with
    | Saga.CTrigger w =>
        if String.eqb w "ws-2" then Some (RuntimeError "HTTP Error") else None
    | _ => None
    end).

(** Triggering the plan of [ws-2] fails, and so does the restoration
    issued by the [finally] suite. *)
Definition restore_fails_too : Saga.env :=
  env_with_faults (fun c =>
    match c with
    | Saga.CTrigger w =>
        if String.eqb w "ws-2" then Some (RuntimeError "HTTP Error") else None
    | Saga.CRestore Saga.InFinally _ => Some (RuntimeError "Connection error")
    | _ => None
    end).

(** Listing the containers fails. *)
Definition listing_fails : Saga.env :=
  env_with_faults (fun c =>
    match c with
    | Saga.CDockerPs => Some (ExternalError "docker ps")
    | _ => None
    end).

(** The platform repoints [ws-1], and the answer to the [PATCH] is
    lost: the call raises for a timeout. *)
Definition repoint_answer_lost : Saga.env :=
  {| Saga.container_runtime_available := true;
     Saga.confirmed := true;
     Saga.fault := fun _ c =>
       match c with
       | Saga.CRepoint w =>
           if String.eqb w "ws-1" then Some (RuntimeError "Timeout") else None
       | _ => None
       end;
     Saga.applied := fun _ c =>
       match c with
       | Saga.CRepoint _ => true
       | _ => false
       end;
     Saga.exits := fun _ _ => false;
     Saga.new_pool_id := fun organization_id => "apool-" +:+ organization_id;
     Saga.run_of := fun workspace_id =>
       Some ("run-" +:+ workspace_id, "plan-" +:+ workspace_id);
     Saga.plan_status := fun _ n =>
       if Nat.leb 1 n then ("finished", VStr "https://archivist/log")
       else ("running", VNone);
     Saga.log_of := fun _ => plan_log |}.

(** Nothing fails, but the agent exits as soon as it is started. *)
Definition agent_never_up : Saga.env :=
  {| Saga.container_runtime_available := true;
     Saga.confirmed := true;
     Saga.fault := fun _ _ => None;
     Saga.applied := fun _ _ => false;
     Saga.exits := fun _ _ => true;
     Saga.new_pool_id := fun organization_id => "apool-" +:+ organization_id;
     Saga.run_of := fun _ => None;
     Saga.plan_status := fun _ _ => ("running", VNone);
     Saga.log_of := fun _ => "" |}.

End Examples.

(** ** The checks of the extracted data: [_check_data] *)

Module Checks.

Import Mapper.

Section Checks.

Context {libs : Libs}.

(** [data[key]["warnings"] = ", ".join(warnings)]. *)
Definition with_warnings (warnings : list string) (item : record) : record :=
  dict_set "warnings" (VStr (String.concat ", " warnings)) item.

(** The loop the five checks share: every item gets its warnings, in
    order; an exception while computing them ends the check. *)
Definition check_items (warnings_of : record -> outcome (list string))
    (data : list record) : outcome (list record) :=
  omap_list (fun item =>
    obind (warnings_of item) (fun warnings => Ret (with_warnings warnings item))) data.

Definition agent_pool_warnings (item : record) : outcome (list string) :=
  Ret (if py_eq (get item ["attributes"; "agent-count"]) (VInt 0)
       then ["No agents"] else []).

Definition _check_agent_pools_data : list record -> outcome (list record) :=
  check_items agent_pool_warnings.

Definition module_warnings (item : record) : outcome (list string) :=
  Ret (if negb (py_eq (get item ["attributes"; "status"]) (VStr "setup_complete"))
       then ["Setup incomplete"] else []).

Definition _check_modules_data : list record -> outcome (list record) :=
  check_items module_warnings.

Definition policy_warnings (item : record) : outcome (list string) :=
  Ret (if negb (truthy (get item ["attributes"; "kind"]))
          || py_eq (get item ["attributes"; "kind"]) (VStr "sentinel")
       then ["Sentinel policy"] else []).

Definition _check_policies_data : list record -> outcome (list record) :=
  check_items policy_warnings.

Definition workspace_variable_warnings (item : record) : outcome (list string) :=
  obind (name_is_invalid (get item ["attributes"; "key"])) (fun bad =>
    Ret (if bad then ["Key is an invalid env var name"] else [])).

Definition _check_workspace_variables_data : list record -> outcome (list record) :=
  check_items workspace_variable_warnings.

(** The nested [check_for_bsl_terraform]: the verdict and an optional
    warning. *)
Definition check_for_bsl_terraform (version : value) : outcome (bool * option string) :=
  match version with
  | VStr v =>
      if Str.starts_with "~" v || Str.starts_with "^" v then
        Ret (true, Some "Pessimistic version, unable to determine if it's BSL Terraform")
      else if String.eqb v "latest" then Ret (true, None)
      else
        match semver_match v ">=1.5.7" with
        | Some matched => Ret (matched, None)
        | None => Raise (ValueError "not valid SemVer")
        end
  | _ => Raise AttributeError
  end.

Definition workspace_warnings (item : record) : outcome (list string) :=
  let no_resources :=
    if py_eq (get item ["attributes"; "resource-count"]) (VInt 0)
    then ["No resources"] else [] in
  let no_vcs :=
    if is_none (get item ["attributes"; "vcs-repo"; "service-provider"])
    then ["No VCS configuration"] else [] in
  obind (check_for_bsl_terraform (get item ["attributes"; "terraform-version"]))
    (fun '(bsl, warning) =>
      Ret (no_resources ++ no_vcs
           ++ (if bsl then ["BSL Terraform version"] else [])
           ++ match warning with Some w => [w] | None => [] end)).

Definition _check_workspaces_data : list record -> outcome (list record) :=
  check_items workspace_warnings.

(** [data[name] = check(data.get(name))]. *)
Definition check_collection (name : string)
    (check : list record -> outcome (list record)) (data : dataset) : outcome dataset :=
  obind (iterate name data) (fun items =>
  obind (check items) (fun checked => Ret (set_collection name checked data))).

Definition _check_data (data : dataset) : outcome dataset :=
  obind (check_collection "agent_pools" _check_agent_pools_data data) (fun data =>
  obind (check_collection "modules" _check_modules_data data) (fun data =>
  obind (check_collection "policies" _check_policies_data data) (fun data =>
  obind (check_collection "workspaces" _check_workspaces_data data) (fun data =>
    check_collection "workspace_variables" _check_workspace_variables_data data)))).

End Checks.

End Checks.

(** ** The extractors: [_extract_data] and the [_extract_*_data] it calls *)

Module Extract.

Import Api Mapper.

(** [include.workspaces] as the configuration can hold it, and
    [include.workspace_list] once the file it names was read: the
    stripped non-empty lines, or nothing when reading failed. *)
Record settings : Type := {
  include : string -> option string;
  include_workspaces : value;
  include_workspace_list : option (option (list string));
  experimental_support_variable_sets : bool;
}.

Definition agent_pool_properties : list (list string) :=
  [ ["attributes"; "agent-count"];
    ["attributes"; "name"];
    ["attributes"; "organization-scoped"];
    ["id"];
    ["relationships"; "organization"; "data"; "id"] ].

Definition module_listing_properties : list (list string) :=
  [ ["attributes"; "name"];
    ["attributes"; "namespace"];
    ["attributes"; "provider"];
    ["attributes"; "registry-name"];
    ["id"] ].

Definition module_properties : list (list string) :=
  [ ["attributes"; "name"];
    ["attributes"; "provider"];
    ["attributes"; "registry-name"];
    ["attributes"; "status"];
    ["attributes"; "vcs-repo"; "branch"];
    ["attributes"; "vcs-repo"; "identifier"];
    ["id"];
    ["relationships"; "organization"; "data"; "id"] ].

Definition organization_properties : list (list string) :=
  [ ["attributes"; "email"]; ["attributes"; "name"]; ["id"] ].

Definition policy_properties : list (list string) :=
  [ ["attributes"; "description"];
    ["attributes"; "enforcement-level"];
    ["attributes"; "kind"];
    ["attributes"; "name"];
    ["id"];
    ["relationships"; "organization"; "data"; "id"] ].

Definition policy_set_properties : list (list string) :=
  [ ["attributes"; "description"];
    ["attributes"; "enforcement-level"];
    ["attributes"; "global"];
    ["attributes"; "kind"];
    ["attributes"; "name"];
    ["id"];
    ["relationships"; "organization"; "data"; "id"] ].

Definition project_properties : list (list string) :=
  [ ["attributes"; "name"];
    ["id"];
    ["relationships"; "organization"; "data"; "id"] ].

Definition provider_properties : list (list string) :=
  [ ["attributes"; "name"];
    ["attributes"; "namespace"];
    ["attributes"; "registry-name"];
    ["id"];
    ["relationships"; "organization"; "data"; "id"] ].

Definition task_properties : list (list string) :=
  [ ["attributes"; "category"];
    ["attributes"; "description"];
    ["attributes"; "enabled"];
    ["attributes"; "name"];
    ["attributes"; "url"];
    ["id"];
    ["relationships"; "organization"; "data"; "id"] ].

Definition team_properties : list (list string) :=
  [ ["attributes"; "name"];
    ["attributes"; "users-count"];
    ["id"];
    ["relationships"; "organization"; "data"; "id"] ].

Definition variable_set_properties : list (list string) :=
  [ ["attributes"; "description"];
    ["attributes"; "global"];
    ["attributes"; "name"];
    ["attributes"; "project-count"];
    ["attributes"; "var-count"];
    ["attributes"; "workspace-count"];
    ["id"];
    ["relationships"; "organization"; "data"; "id"];
    ["relationships"; "projects"; "data"];
    ["relationships"; "workspaces"; "data"] ].

Definition variable_set_variable_properties : list (list string) :=
  [ ["attributes"; "category"];
    ["attributes"; "description"];
    ["attributes"; "hcl"];
    ["attributes"; "key"];
    ["attributes"; "sensitive"];
    ["attributes"; "value"];
    ["id"];
    ["relationships"; "varset"; "data"; "id"] ].

Definition workspace_variable_properties : list (list string) :=
  [ ["attributes"; "category"];
    ["attributes"; "description"];
    ["attributes"; "hcl"];
    ["attributes"; "key"];
    ["attributes"; "sensitive"];
    ["attributes"; "value"];
    ["id"];
    ["relationships"; "workspace"; "data"; "id"] ].

Definition workspace_properties : list (list string) :=
  [ ["attributes"; "auto-apply"];
    ["attributes"; "description"];
    ["attributes"; "name"];
    ["attributes"; "resource-count"];
    ["attributes"; "terraform-version"];
    ["attributes"; "vcs-repo"; "branch"];
    ["attributes"; "vcs-repo"; "identifier"];
    ["attributes"; "vcs-repo"; "service-provider"];
    ["attributes"; "working-directory"];
    ["id"];
    ["relationships"; "current-configuration-version"; "data"; "id"];
    ["relationships"; "current-state-version"; "data"; "id"];
    ["relationships"; "organization"; "data"; "id"];
    ["relationships"; "project"; "data"; "id"] ].

(** The property lists of the extractors, by collection. *)
Definition extractor_properties : list (string * list (list string)) :=
  [ ("agent_pools", agent_pool_properties);
    ("modules", module_properties);
    ("organizations", organization_properties);
    ("policies", policy_properties);
    ("policy_sets", policy_set_properties);
    ("projects", project_properties);
    ("providers", provider_properties);
    ("tasks", task_properties);
    ("teams", team_properties);
    ("variable_sets", variable_set_properties);
    ("variable_set_variables", variable_set_variable_properties);
    ("workspace_variables", workspace_variable_properties);
    ("workspaces", workspace_properties) ].

(** One key path is the beginning of the other. *)
Fixpoint is_prefix (p q : list string) : bool :=
  match p, q with
  | [], _ => true
  | a :: p', b :: q' => String.eqb a b && is_prefix p' q'
  | _ :: _, [] => false
  end.

Definition overlap (p q : list string) : bool := is_prefix p q || is_prefix q p.

Fixpoint prefix_free (properties : list (list string)) : bool :=
  match properties with
  | [] => true
  | p :: rest => forallb (fun q => negb (overlap p q)) rest && prefix_free rest
  end.

(** [x in l]. *)
Definition py_in (x : value) (l : list value) : bool := existsb (py_eq x) l.

(** [data[name].extend(items)]. *)
Definition extend (name : string) (items : list record) (data : dataset) : dataset :=
  match collection name data with
  | Some l => set_collection name (l ++ items) data
  | None => data
  end.

(** [_find_entity]: the first record of [data] whose [id] equals [id_]. *)
Fixpoint _find_entity (data : list record) (id_ : value) : option record :=
  match data with
  | [] => None
  | datum :: rest =>
      if py_eq (get datum ["id"]) id_ then Some datum else _find_entity rest id_
  end.

Section Extract.

Context {server : Type} {client : Client server} {libs : Libs}.

Variable cfg : settings.
Variable fuel : nat.

Definition is_none_filter (kind : string) : bool :=
  match include cfg kind with
  | Some pattern => String.eqb pattern "none"
  | None => false
  end.

Definition listing (kind path : string) (properties : list (list string))
    : M server (list record) :=
  _extract_data_from_api fuel path None (include cfg kind) "GET" (Some properties) None.

Definition organization_path (organization : record) (suffix : string) : string :=
  "/organizations/" +:+ py_str (get organization ["id"]) +:+ suffix.

Definition _extract_agent_pools_data (organization : record) : M server (list record) :=
  if is_none_filter "agent_pools" then ret []
  else listing "agent_pools" (organization_path organization "/agent-pools")
         agent_pool_properties.

(** [_extract_data_from_api(...)[0]]. *)
Definition first_of (path : string) (properties : list (list string)) : M server record :=
  let! found :=
    _extract_data_from_api fuel path None None "GET" (Some properties) None in
  match found with
  | module_data :: _ => ret module_data
  | [] => raise IndexError
  end.

Definition module_path (organization list_datum : record) : string :=
  organization_path organization "/registry-modules/"
  +:+ py_str (get list_datum ["attributes"; "registry-name"]) +:+ "/"
  +:+ py_str (get list_datum ["attributes"; "namespace"]) +:+ "/"
  +:+ py_str (get list_datum ["attributes"; "name"]) +:+ "/"
  +:+ py_str (get list_datum ["attributes"; "provider"]).

Definition _extract_modules_data (organization : record) : M server (list record) :=
  let! list_data :=
    listing "modules" (organization_path organization "/registry-modules")
      module_listing_properties in
  mmap_list (fun list_datum =>
               first_of (module_path organization list_datum) module_properties)
    list_data.

Definition _extract_organization_data : M server (list record) :=
  listing "organizations" "/organizations" organization_properties.

Definition _extract_policies_data (organization : record) : M server (list record) :=
  if is_none_filter "policies" then ret []
  else listing "policies" (organization_path organization "/policies") policy_properties.

Definition _extract_policy_sets_data (organization : record) : M server (list record) :=
  listing "policy_sets" (organization_path organization "/policy-sets")
    policy_set_properties.

Definition _extract_projects_data (organization : record) : M server (list record) :=
  if is_none_filter "projects" then ret []
  else listing "projects" (organization_path organization "/projects") project_properties.

Definition _extract_providers_data (organization : record) : M server (list record) :=
  listing "providers" (organization_path organization "/registry-providers")
    provider_properties.

Definition _extract_tasks_data (organization : record) : M server (list record) :=
  if is_none_filter "tasks" then ret []
  else listing "tasks" (organization_path organization "/tasks") task_properties.

Definition _extract_teams_data (organization : record) : M server (list record) :=
  if is_none_filter "teams" then ret []
  else listing "teams" (organization_path organization "/teams") team_properties.

Definition _extract_variable_sets_data (organization : record) : M server (list record) :=
  listing "variable_sets" (organization_path organization "/varsets")
    variable_set_properties.

Definition _extract_variable_set_variables_data (variable_set : record)
    : M server (list record) :=
  listing "variable_set_variables"
    ("/varsets/" +:+ py_str (get variable_set ["id"]) +:+ "/relationships/vars")
    variable_set_variable_properties.

Definition _extract_workspace_variables_data (workspace : record)
    : M server (list record) :=
  listing "workspace_variables"
    ("/workspaces/" +:+ py_str (get workspace ["id"]) +:+ "/vars")
    workspace_variable_properties.

(** The first part of [_extract_workspaces_data]: the name list to
    filter by, if any, and the pattern. *)
Definition workspace_selection : outcome (option (list value) * option string) :=
  match include_workspace_list cfg with
  | Some (Some lines) => Ret (Some (map VStr lines), Some ".*")
  | Some None => Raise (ExternalError "Abort")
  | None =>
      match include_workspaces cfg with
      | VStr pattern => Ret (None, Some pattern)
      | VList names => Ret (Some names, Some ".*")
      | _ => Ret (None, Some ".*")
      end
  end.

(** The loop that fetches the tag names of each workspace kept. *)
Definition add_tag_names (workspace_filter : option (list value))
    (include_pattern : option string) (workspace : record) : M server record :=
  let skipped :=
    match workspace_filter with
    | Some names => negb (py_in (get workspace ["attributes"; "name"]) names)
    | None => false
    end in
  if skipped then ret workspace else
  let! additional_data :=
    _extract_data_from_api fuel ("/workspaces/" +:+ py_str (get workspace ["id"]))
      None include_pattern "GET" (Some [["attributes"; "tag-names"]]) None in
  match additional_data with
  | first :: _ =>
      ret (set_path ["attributes"; "tag-names"] (get first ["attributes"; "tag-names"])
             workspace)
  | [] => raise IndexError
  end.

Definition _extract_workspaces_data (organization : record) : M server (list record) :=
  let! selection := lift workspace_selection in
  let '(workspace_filter, include_pattern) := selection in
  let! data :=
    _extract_data_from_api fuel (organization_path organization "/workspaces")
      None include_pattern "GET" (Some workspace_properties) None in
  let data :=
    match workspace_filter with
    | Some names =>
        List.filter (fun workspace => py_in (get workspace ["attributes"; "name"]) names) data
    | None => data
    end in
  mmap_list (add_tag_names workspace_filter include_pattern) data.

(** One iteration of the loop over the organizations. *)
Definition extract_organization (organization : record) (data : dataset) : M server dataset :=
  let! agent_pools := _extract_agent_pools_data organization in
  let data := extend "agent_pools" agent_pools data in
  let! modules := _extract_modules_data organization in
  let data := extend "modules" modules data in
  let! policies := _extract_policies_data organization in
  let data := extend "policies" policies data in
  let! policy_sets := _extract_policy_sets_data organization in
  let data := extend "policy_sets" policy_sets data in
  let! projects := _extract_projects_data organization in
  let data := extend "projects" projects data in
  let! providers := _extract_providers_data organization in
  let data := extend "providers" providers data in
  let! tasks := _extract_tasks_data organization in
  let data := extend "tasks" tasks data in
  let! teams := _extract_teams_data organization in
  let data := extend "teams" teams data in
  let! workspaces := _extract_workspaces_data organization in
  let data := extend "workspaces" workspaces data in
  if experimental_support_variable_sets cfg then
    let! variable_sets := _extract_variable_sets_data organization in
    ret (extend "variable_sets" variable_sets data)
  else ret data.

(** [for x in parents: data[name].extend(extractor(x))]. *)
Fixpoint extend_each (name : string) (extractor : record -> M server (list record))
    (parents : list record) (data : dataset) : M server dataset :=
  match parents with
  | [] => ret data
  | parent :: rest =>
      let! items := extractor parent in
      extend_each name extractor rest (extend name items data)
  end.

Fixpoint extract_organizations (organizations : list record) (data : dataset)
    : M server dataset :=
  match organizations with
  | [] => ret data
  | organization :: rest =>
      let! data := extract_organization organization data in
      extract_organizations rest data
  end.

Definition _extract_data : M server dataset :=
  let! organizations := _extract_organization_data in
  let data : dataset :=
    [ ("agent_pools", []);
      ("modules", []);
      ("organizations", organizations);
      ("policies", []);
      ("policy_sets", []);
      ("projects", []);
      ("providers", []);
      ("tasks", []);
      ("teams", []);
      ("variable_sets", []);
      ("variable_set_variables", []);
      ("workspace_variables", []);
      ("workspaces", []) ] in
  let! data := extract_organizations organizations data in
  let! data :=
    if experimental_support_variable_sets cfg then
      extend_each "variable_set_variables" _extract_variable_set_variables_data
        (default [] (collection "variable_sets" data)) data
    else ret data in
  extend_each "workspace_variables" _extract_workspace_variables_data
    (default [] (collection "workspaces" data)) data.

End Extract.

End Extract.

(** ** What the pagination of a failing server looks like *)

Module ExtractSpec.

Import Api.

Section Spec.

Context {server : Type} {client : Client server}.

(** From [url] on the server hands out pages until one request fails
    with [e], or the payload of one cannot be iterated over. *)
Inductive failing_chain (drop_response_properties : option (list (list string)))
    (method : string) (request_data : option value)
    : server -> value -> server -> exn -> Prop :=
| fails_here σ url σ' e :
    _call_api url drop_response_properties method request_data σ = (σ', Raise e) ->
    failing_chain drop_response_properties method request_data σ url σ' e
| fails_on_items σ url σ' payload e :
    _call_api url drop_response_properties method request_data σ = (σ', Ret payload) ->
    page_items payload = Raise e ->
    failing_chain drop_response_properties method request_data σ url σ' e
| fails_later σ url σ1 payload items σ' e :
    _call_api url drop_response_properties method request_data σ = (σ1, Ret payload) ->
    page_items payload = Ret items ->
    truthy (get payload ["links"; "next"]) = true ->
    failing_chain drop_response_properties method request_data
      σ1 (get payload ["links"; "next"]) σ' e ->
    failing_chain drop_response_properties method request_data σ url σ' e.

(** An item the name filter has nothing to test on. *)
Definition nameless (raw_datum : record) : Prop :=
  truthy (get raw_datum ["attributes"; "name"]) = false.

End Spec.

End ExtractSpec.

(** ** Words about strings that the properties are stated with *)

Module StrSpec.

(** Every character of [s] satisfies [p]; some character does. *)
Fixpoint all_chars (p : ascii -> bool) (s : string) : bool :=
  match s with
  | EmptyString => true
  | String c s' => p c && all_chars p s'
  end.

Fixpoint has_char (p : ascii -> bool) (s : string) : bool :=
  match s with
  | EmptyString => false
  | String c s' => p c || has_char p s'
  end.

Definition is_slash (c : ascii) : bool := Ascii.eqb c "/"%char.
Definition is_hyphen (c : ascii) : bool := Ascii.eqb c Str.hyphen.

(** A letter or an underscore, then letters, digits and underscores. *)
Definition is_name (s : string) : bool :=
  match s with
  | EmptyString => false
  | String c s' => Str.is_name_start c && all_chars Str.is_name_char s'
  end.

(** A character that replacing hyphens by underscores can make part
    of a name, and one that it cannot. *)
Definition fixable (c : ascii) : bool := Str.is_name_char c || is_hyphen c.

Definition unfixable (c : ascii) : bool :=
  negb (Str.is_name_char c) && negb (is_hyphen c) && negb (Ascii.eqb c Str.newline).

End StrSpec.

(** ** More example servers and inputs *)

Module MoreExamples.

Import Api Examples.

(** A server whose only page links to itself. *)
Definition looping_page : record :=
  [ ("data", VList [ VDict [("id", VStr "ws-1")] ]);
    ("links", VDict [("next", VStr "https://tfe/api/v2/organizations/o/workspaces")]) ].

Definition looping_client : Client unit :=
  {| http := fun _ σ => (σ, HttpResponse 200 (Json looping_page));
     pydash_omit := fun doc _ => doc;
     re_compile := fun _ => Some (fun _ => true);
     api_endpoint := "https://tfe" |}.

(** A server that answers the first page and fails with status 500 on
    the second. *)
Definition failing_http (rq : request) (σ : unit) : unit * http_outcome :=
  if String.eqb (rq_url rq) "https://tfe/api/v2/organizations/o/workspaces"
  then (σ, HttpResponse 200 (Json page1))
  else (σ, HttpResponse 500 NoContent).

Definition failing_client : Client unit :=
  {| http := failing_http;
     pydash_omit := fun doc _ => doc;
     re_compile := fun _ => Some (fun _ => true);
     api_endpoint := "https://tfe" |}.

(** A proxy in front of the platform that answers every request with
    status 404 and an error page in Latin-1. *)
Definition latin1_proxy_client : Client unit :=
  {| http := fun _ σ => (σ, HttpResponse 404 NotUtf8);
     pydash_omit := fun doc _ => doc;
     re_compile := fun _ => Some (fun _ => true);
     api_endpoint := "https://tfe" |}.


(** A registry that lists one module and has no page for it. *)
Definition listed_module : record :=
  [ ("id", VStr "mod-1");
    ("attributes",
      VDict [ ("name", VStr "vpc"); ("namespace", VStr "acme");
              ("provider", VStr "aws"); ("registry-name", VStr "private") ]) ].

Definition registry_http (rq : request) (σ : unit) : unit * http_outcome :=
  if String.eqb (rq_url rq) "https://tfe/api/v2/organizations/org-1/registry-modules"
  then (σ, HttpResponse 200 (Json [("data", VList [VDict listed_module])]))
  else (σ, HttpResponse 404 NoContent).

Definition registry_client : Client unit :=
  {| http := registry_http;
     pydash_omit := fun doc _ => doc;
     re_compile := fun _ => Some (fun _ => true);
     api_endpoint := "https://tfe" |}.

Definition organization_1 : record :=
  [ ("id", VStr "org-1"); ("attributes", VDict [("name", VStr "Acme")]) ].

Definition default_settings : Extract.settings :=
  {| Extract.include := fun _ => None;
     Extract.include_workspaces := VNone;
     Extract.include_workspace_list := None;
     Extract.experimental_support_variable_sets := false |}.

(** Workspaces are selected by a list of names. *)
Definition by_names (names : list string) : Extract.settings :=
  {| Extract.include := fun _ => None;
     Extract.include_workspaces := VList (map VStr names);
     Extract.include_workspace_list := None;
     Extract.experimental_support_variable_sets := false |}.

(** A server with one organization [o] that has the workspaces of
    [page1] and [page2], and answers every other listing with an empty
    collection. *)
Definition organization_http (rq : request) (σ : unit) : unit * http_outcome :=
  if String.eqb (rq_url rq) "https://tfe/api/v2/organizations"
  then (σ, HttpResponse 200 (Json [("data", VList [VDict [("id", VStr "o")]])]))
  else if String.eqb (rq_url rq) "https://tfe/api/v2/organizations/o/workspaces"
  then (σ, HttpResponse 200 (Json page1))
  else if String.eqb (rq_url rq) "https://tfe/api/v2/organizations/o/workspaces?page=2"
  then (σ, HttpResponse 200 (Json page2))
  else if String.prefix "https://tfe/api/v2/workspaces/ws-" (rq_url rq)
          && negb (Str.ends_with_char "s"%char (rq_url rq))
  then (σ, HttpResponse 200
             (Json [("data", VDict [("id", VStr "ws");
                                    ("attributes", VDict [("tag-names", VList [VStr "prod"])])])]))
  else (σ, HttpResponse 200 (Json [("data", VList [])])).

Definition organization_client : Client unit :=
  {| http := organization_http;
     pydash_omit := fun doc _ => doc;
     re_compile := fun _ => Some (fun _ => true);
     api_endpoint := "https://tfe" |}.

(** A [semver.match] that also knows [>=1.5.7]. *)
Definition semver_at_least (version match_expr : string) : option bool :=
  if String.eqb match_expr ">=1.5.7" then
    match example_semver_match version ">1.5.7" with
    | Some above => Some (above || String.eqb version "1.5.7")
    | None => None
    end
  else example_semver_match version match_expr.

Definition checking_libs : Mapper.Libs :=
  {| Mapper.slugify := example_slugify;
     Mapper.semver_match := semver_at_least;
     Mapper.py_repr := fun _ => "" |}.

(** A workspace with a repository at a VCS provider. *)
Definition workspace_on (id_ name provider identifier : string) : record :=
  [ ("id", VStr id_);
    ("attributes",
      VDict [ ("name", VStr name); ("terraform-version", VStr "1.6.0");
              ("vcs-repo",
                VDict [ ("service-provider", VStr provider);
                        ("identifier", VStr identifier);
                        ("branch", VStr "main") ]) ]);
    ("relationships",
      VDict [ ("organization", VDict [("data", VDict [("id", VStr "org-1")])]) ]) ].

Definition module_at (id_ name identifier : string) : record :=
  [ ("id", VStr id_);
    ("attributes",
      VDict [ ("name", VStr name); ("status", VStr "setup_complete");
              ("vcs-repo", VDict [("identifier", VStr identifier)]) ]);
    ("relationships",
      VDict [ ("organization", VDict [("data", VDict [("id", VStr "org-1")])]) ]) ].

(** One workspace on GitHub, one on GitLab in a nested group, and a
    module whose repository is on GitHub. *)
Definition mixed_providers_data : Mapper.dataset :=
  [ ("workspaces",
      [ workspace_on "ws-1" "network" "github" "acme/network";
        workspace_on "ws-2" "cluster" "gitlab_hosted" "acme/platform/cluster" ]);
    ("workspace_variables", []);
    ("modules", [module_at "mod-1" "vpc" "acme/terraform-aws-vpc"]) ].

(** The second workspace is on a provider that is not supported. *)
Definition unknown_provider_data : Mapper.dataset :=
  [ ("workspaces",
      [ workspace_on "ws-1" "network" "github" "acme/network";
        workspace_on "ws-2" "cluster" "gitea" "acme/cluster" ]);
    ("workspace_variables", []) ].

(** The second variable belongs to a workspace that was not
    extracted. *)
Definition orphan_variable_data : Mapper.dataset :=
  [ ("workspaces", [workspace_with_version "ws-1" "network" "1.5.7"]);
    ("workspace_variables",
      [ variable_of "var-1" "REGION" "ws-1" false;
        variable_of "var-2" "ZONE" "ws-9" false ]) ].

(** One workspace with a variable whose key holds a dot. *)
Definition dotted_name_data : Mapper.dataset :=
  [ ("workspaces", [workspace_with_version "ws-1" "network" "1.5.7"]);
    ("workspace_variables", [variable_of "var-1" "my.var" "ws-1" false]) ].

(** A variable set attached to three projects and to one workspace. *)
Definition doubly_attached_variable_set : record :=
  [ ("id", VStr "varset-3");
    ("attributes",
      VDict [ ("name", VStr "both"); ("description", VNone);
              ("global", VBool false) ]);
    ("relationships",
      VDict [ ("organization", VDict [("data", VDict [("id", VStr "org-1")])]);
              ("projects",
                VDict [("data", VList [ VDict [("id", VStr "prj-a")];
                                        VDict [("id", VStr "prj-b")];
                                        VDict [("id", VStr "prj-c")] ])]);
              ("workspaces",
                VDict [("data", VList [ VDict [("id", VStr "ws-1")] ])]) ]) ].

(** A variable of the variable set [varset-2], which is attached to
    workspaces only. *)
Definition local_variable : record :=
  [ ("id", VStr "var-7");
    ("attributes",
      VDict [ ("key", VStr "ZONE"); ("sensitive", VBool false);
              ("category", VStr "env") ]);
    ("relationships",
      VDict [ ("varset", VDict [("data", VDict [("id", VStr "varset-2")])]) ]) ].

Definition local_data : Mapper.dataset :=
  [ ("variable_sets", [workspace_variable_set]);
    ("variable_set_variables", [local_variable]) ].

(** The context that the mapper makes of the variable set [varset-2]:
    its relationships hold migration ids, not references. *)
Definition mapped_context : record :=
  [ ("_migration_id", VStr "varset_2");
    ("_relationships",
      VDict [ ("space", VDict [("_migration_id", VStr "org_1")]);
              ("stacks", VList [ VDict [("_migration_id", VStr "ws_1")];
                                 VDict [("_migration_id", VStr "ws_2")] ]) ]);
    ("_source_id", VStr "varset-2"); ("description", VNone);
    ("labels", VList []); ("name", VStr "local") ].

(** A mapped graph with that context. *)
Definition context_graph : Mapper.dataset :=
  [ ("spaces", [ [ ("_source_id", VStr "org-1"); ("name", VStr "Acme") ] ]);
    ("contexts", [mapped_context]);
    ("stacks",
      [ [ ("_relationships", VDict [("space", VStr "org-1")]);
          ("_source_id", VStr "ws-1"); ("name", VStr "network") ] ]) ].

(** A graph in which a stack refers to an owner, a type that has no
    collection. *)
Definition missing_collection_graph : Mapper.dataset :=
  [ ("stacks",
      [ [ ("_relationships", VDict [("owner", VStr "user-1")]);
          ("_source_id", VStr "ws-1"); ("name", VStr "network") ] ]) ].

(** An extracted graph with something to warn about in each of the
    collections that are checked. *)
Definition unchecked_data : Mapper.dataset :=
  [ ("agent_pools",
      [ [("id", VStr "apool-1"); ("attributes", VDict [("agent-count", VInt 0)])] ]);
    ("modules",
      [ [("id", VStr "mod-1"); ("attributes", VDict [("status", VStr "pending")])] ]);
    ("policies",
      [ [("id", VStr "pol-1"); ("attributes", VDict [("kind", VStr "sentinel")])];
        [("id", VStr "pol-2"); ("attributes", VDict [("kind", VStr "opa")])] ]);
    ("workspaces",
      [ workspace_with_version "ws-1" "network" "1.6.0";
        workspace_with_version "ws-2" "cluster" "~1.4.0" ]);
    ("workspace_variables",
      [ variable_of "var-1" "bad-name" "ws-1" false;
        variable_of "var-2" "REGION" "ws-2" false ]) ].

End MoreExamples.

(** ** The enrichment saga of the variable sets:
       [_enrich_variable_set_data] *)

Module VarsetSaga.

Import Mapper.

(** The calls that this saga makes besides those it shares with the
    saga of the workspaces (agent pool, agent container, plans and
    logs, which are [Saga.call]s). *)
Inductive call : Type :=
| CListProjects (organization_id : string)
| CCreateWorkspace (organization_id : string) (default_project_id : value)
| CPush (organization_name : value)
| CUseAgent (workspace_id : string)
| CBackupVarset (var_set_id : string)
| CAttachVarset (var_set_id workspace_id : string)
| CTriggerRun (workspace_id : string)
| CResetVarset (s : Saga.site) (var_set_id : string)
| CDeleteWorkspace (workspace_id : string).

Definition history : Type := list (call * bool).

(** What is outside the program: the environment of the shared calls,
    which of the other calls fails, whether what a failing call asked
    for was done all the same, and what the platform answers: the
    projects of an organization, the id of the workspace it creates
    for one (nothing when the answer holds no workspace), the
    attachments of a variable set (nothing when the answer is
    empty). *)
Record env : Type := {
  shared_env : Saga.env;
  fault : history -> call -> option exn;
  applied : history -> call -> bool;
  projects_of : string -> list record;
  created_workspace : string -> option string;
  backup_of : string -> option record;
}.

(** The variables that the [finally] suite reads. *)
Record locals : Type := {
  new_workspace : option string;
  variable_set_relationship_backup : option record;
  var_set_reset : bool;
  var_set_id : value;
  agent_container : option string;
  agent_pool_id : option string;
}.

(** The platform and the runtime as the shared calls see them (with the
    extracted data), the workspaces named SMK that exist, the other
    calls made so far, and the variables. *)
Record state : Type := {
  platform : Saga.state;
  smk_workspaces : gset string;
  calls : history;
  variables : locals;
}.

Definition initial_locals : locals :=
  {| new_workspace := None;
     variable_set_relationship_backup := None;
     var_set_reset := true;
     var_set_id := VNone;
     agent_container := None;
     agent_pool_id := None |}.

Definition with_platform (f : Saga.state -> Saga.state) (st : state) : state :=
  {| platform := f (platform st);
     smk_workspaces := smk_workspaces st;
     calls := calls st;
     variables := variables st |}.

Definition with_smk_workspaces (f : gset string -> gset string) (st : state) : state :=
  {| platform := platform st;
     smk_workspaces := f (smk_workspaces st);
     calls := calls st;
     variables := variables st |}.

Definition with_variables (f : locals -> locals) (st : state) : state :=
  {| platform := platform st;
     smk_workspaces := smk_workspaces st;
     calls := calls st;
     variables := f (variables st) |}.

Definition log_call (c : call) (ok : bool) (st : state) : state :=
  {| platform := platform st;
     smk_workspaces := smk_workspaces st;
     calls := calls st ++ [(c, ok)];
     variables := variables st |}.

Definition set_new_workspace (x : option string) (l : locals) : locals :=
  {| new_workspace := x;
     variable_set_relationship_backup := variable_set_relationship_backup l;
     var_set_reset := var_set_reset l;
     var_set_id := var_set_id l;
     agent_container := agent_container l;
     agent_pool_id := agent_pool_id l |}.

Definition set_variable_set_relationship_backup (x : option record) (l : locals) : locals :=
  {| new_workspace := new_workspace l;
     variable_set_relationship_backup := x;
     var_set_reset := var_set_reset l;
     var_set_id := var_set_id l;
     agent_container := agent_container l;
     agent_pool_id := agent_pool_id l |}.

Definition set_var_set_reset (x : bool) (l : locals) : locals :=
  {| new_workspace := new_workspace l;
     variable_set_relationship_backup := variable_set_relationship_backup l;
     var_set_reset := x;
     var_set_id := var_set_id l;
     agent_container := agent_container l;
     agent_pool_id := agent_pool_id l |}.

Definition set_var_set_id (x : value) (l : locals) : locals :=
  {| new_workspace := new_workspace l;
     variable_set_relationship_backup := variable_set_relationship_backup l;
     var_set_reset := var_set_reset l;
     var_set_id := x;
     agent_container := agent_container l;
     agent_pool_id := agent_pool_id l |}.

Definition set_agent_container (x : option string) (l : locals) : locals :=
  {| new_workspace := new_workspace l;
     variable_set_relationship_backup := variable_set_relationship_backup l;
     var_set_reset := var_set_reset l;
     var_set_id := var_set_id l;
     agent_container := x;
     agent_pool_id := agent_pool_id l |}.

Definition set_agent_pool_id (x : option string) (l : locals) : locals :=
  {| new_workspace := new_workspace l;
     variable_set_relationship_backup := variable_set_relationship_backup l;
     var_set_reset := var_set_reset l;
     var_set_id := var_set_id l;
     agent_container := agent_container l;
     agent_pool_id := x |}.

Definition assign (f : locals -> locals) : M state unit :=
  fun st => (with_variables f st, Ret tt).

Definition read {A} (f : state -> A) : M state A :=
  fun st => (st, Ret (f st)).

(** A call that the two sagas share, run on the platform. *)
Definition shared {A} (m : M Saga.state A) : M state A :=
  fun st =>
    let '(platform', r) := m (platform st) in
    (with_platform (fun _ => platform') st, r).

(** The second loop of lines 380-382: the id of the last project named
    [Default Project]. *)
Definition default_project_of (projects : list record) : value :=
  fold_left (fun default_project_id project =>
               if py_eq (get project ["attributes"; "name"]) (VStr "Default Project")
               then get project ["id"]
               else default_project_id)
    projects VNone.

Section VarsetSaga.

Context {libs : Libs}.

Variable E : env.

(** One call of this saga: as for the shared calls, its effect is
    there when it returns, and also when it raises after what it asked
    for was done. *)
Definition external (c : call) (effect : state -> state) : M state unit :=
  fun st =>
    match fault E (calls st) c with
    | Some e =>
        (log_call c false (if applied E (calls st) c then effect st else st), Raise e)
    | None => (log_call c true (effect st), Ret tt)
    end.

(** [POST /organizations/{id}/workspaces] and [[0]]. *)
Definition create_workspace (organization_id : string) (default_project_id : value)
    : M state string :=
  let! _ := external (CCreateWorkspace organization_id default_project_id)
              (match created_workspace E organization_id with
               | Some id_ => with_smk_workspaces (fun ws => {[ id_ ]} ∪ ws)
               | None => id
               end) in
  match created_workspace E organization_id with
  | Some id_ => ret id_
  | None => raise IndexError
  end.

(** The nested [reset_variable_set_relationships]. *)
Definition reset_variable_set_relationships (s : Saga.site) (var_set_id : value)
    (variable_set_relationship_backup : option record) : M state unit :=
  match variable_set_relationship_backup with
  | Some _ => external (CResetVarset s (py_str var_set_id)) id
  | None => raise AttributeError
  end.

(** Lines 538-548: one line of the plan output, on one variable. *)
Definition scan_line (var_set_id : value) (line : string) (var : record) : record :=
  if py_eq (get var ["relationships"; "varset"; "data"; "id"]) var_set_id then
    let key := py_str (get var ["attributes"; "key"]) +:+ "=" in
    if Str.starts_with key line
    then set_path ["attributes"; "value"] (VStr (Str.remove_prefix key line)) var
    else var
  else var.

Definition scan_log (var_set_id : value) (logs_data : string) (data : dataset)
    : outcome dataset :=
  Saga.ofold (fun data line =>
                obind (iterate "variable_set_variables" data) (fun vars =>
                  Ret (set_collection "variable_set_variables"
                         (map (scan_line var_set_id line) vars) data)))
    (Str.split_on Str.newline logs_data) data.

Definition recover_values (var_set_id : value) (run_id : string) : M state unit :=
  let! _ := shared (Saga.external (shared_env E) (Saga.CReadLog run_id) id) in
  fun st =>
    match scan_log var_set_id (Saga.log_of (shared_env E) run_id)
            (Saga.st_data (platform st)) with
    | Ret data' => (with_platform (Saga.with_data data') st, Ret tt)
    | Raise e => (st, Raise e)
    | Diverge => (st, Diverge)
    end.

(** The body of the loop over the variable sets of the organization. *)
Definition enrich_variable_set (fuel : nat) (organization_id workspace_id : string)
    (var_set : record) : M state unit :=
  let id_ := get var_set ["id"] in
  let! _ := assign (set_var_set_id id_) in
  let! _ := external (CBackupVarset (py_str id_)) id in
  match backup_of E (py_str id_) with
  | None => raise IndexError
  | Some backup =>
      let! _ := assign (set_variable_set_relationship_backup (Some backup)) in
      let! _ := assign (set_var_set_reset false) in
      let! _ := external (CAttachVarset (py_str id_) workspace_id) id in
      let! _ := external (CTriggerRun workspace_id) id in
      match Saga.run_of (shared_env E) workspace_id with
      | None => raise (TerraformExporterPlanError organization_id workspace_id)
      | Some (run_id, plan_id) =>
          let! log_read_url := shared (Saga._get_plan (shared_env E) fuel plan_id 0) in
          let! _ :=
            if truthy log_read_url then recover_values id_ run_id else ret tt in
          let! _ := reset_variable_set_relationships Saga.InBody id_ (Some backup) in
          assign (set_var_set_reset true)
      end
  end.

Fixpoint enrich_variable_sets (fuel : nat) (organization_id workspace_id : string)
    (var_sets : list record) : M state unit :=
  match var_sets with
  | [] => ret tt
  | var_set :: rest =>
      let! _ := enrich_variable_set fuel organization_id workspace_id var_set in
      enrich_variable_sets fuel organization_id workspace_id rest
  end.

(** The body of the loop over the organizations. *)
Definition enrich_organization (fuel : nat) (organization : record) : M state unit :=
  let organization_id := py_str (get organization ["id"]) in
  let! _ := external (CListProjects organization_id) id in
  let default_project_id := default_project_of (projects_of E organization_id) in
  let! pool := shared (Saga._create_agent_pool (shared_env E) organization_id) in
  let! _ := assign (set_agent_pool_id (Some pool)) in
  let agent_container_name := Saga.container_name_of organization_id in
  let! container :=
    shared (Saga._start_agent_container (shared_env E) pool agent_container_name) in
  let! _ := assign (set_agent_container (Some container)) in
  let! workspace_id := create_workspace organization_id default_project_id in
  let! _ := assign (set_new_workspace (Some workspace_id)) in
  let! _ := external (CPush (get organization ["attributes"; "name"])) id in
  let! _ := external (CUseAgent workspace_id) id in
  let! variable_sets :=
    fun st => (st, iterate "variable_sets" (Saga.st_data (platform st))) in
  let variable_sets_in_organization :=
    List.filter (fun variable_set =>
                   py_eq (get variable_set ["relationships"; "organization"; "data"; "id"])
                     (get organization ["id"]))
      variable_sets in
  let! _ :=
    enrich_variable_sets fuel organization_id workspace_id
      variable_sets_in_organization in
  let! _ := shared (Saga.runtime (shared_env E) (Saga.CInspect Saga.InBody container) id) in
  let! running :=
    read (fun st =>
            bool_decide (container ∈ Saga.containers (Saga.st_world (platform st)))) in
  if running
  then shared (Saga.on_container (shared_env E) container (Saga.CLogs container) id)
  else ret tt.

Fixpoint enrich_organizations (fuel : nat) (organizations : list record) : M state unit :=
  match organizations with
  | [] => ret tt
  | organization :: rest =>
      let! _ := enrich_organization fuel organization in
      enrich_organizations fuel rest
  end.

(** The [try] suite: the loop over [data.get("organizations")]. *)
Definition saga_body (fuel : nat) : M state unit :=
  let! organizations :=
    fun st => (st, iterate "organizations" (Saga.st_data (platform st))) in
  enrich_organizations fuel organizations.

(** The [finally] suite. *)
Definition saga_cleanup : M state unit :=
  let! l := read variables in
  let! _ :=
    match new_workspace l with
    | Some workspace_id =>
        external (CDeleteWorkspace workspace_id)
          (with_smk_workspaces (fun ws => ws ∖ {[ workspace_id ]}))
    | None => ret tt
    end in
  let! _ :=
    if negb (var_set_reset l)
    then reset_variable_set_relationships Saga.InFinally (var_set_id l)
           (variable_set_relationship_backup l)
    else ret tt in
  let! _ :=
    match agent_container l with
    | Some container => shared (Saga._stop_agent_container (shared_env E) container)
    | None => ret tt
    end in
  match agent_pool_id l with
  | Some pool =>
      if String.eqb pool "" then ret tt
      else shared (Saga._delete_agent_pool (shared_env E) pool)
  | None => ret tt
  end.

Definition _enrich_variable_set_data (fuel : nat) : M state unit :=
  if negb (Saga.container_runtime_available (shared_env E)) then ret tt
  else if negb (Saga.confirmed (shared_env E)) then ret tt
  else
    let! _ := assign (fun _ => initial_locals) in
    try_finally (saga_body fuel) saga_cleanup.

End VarsetSaga.

End VarsetSaga.

(** ** What the saga of the variable sets leaves behind *)

Module VarsetSagaSpec.

Import VarsetSaga.

(** The calls that create an agent pool, a container, a workspace. *)
Definition creates (c : Saga.call) : bool :=
  match c with
  | Saga.CCreatePool _ | Saga.CDockerRun _ => true
  | _ => false
  end.

Definition creates_workspace (c : call) : bool :=
  match c with
  | CCreateWorkspace _ _ => true
  | _ => false
  end.

(** At some point of the calls [h] the container had exited by
    itself. *)
Definition exited (E' : Saga.env) (h : Saga.history) (container_name : string) : Prop :=
  exists h1 h2, h = h1 ++ h2 /\ Saga.exits E' h1 container_name = true.

(** Between [s] and [s'] the shared calls tore nothing down: the agent
    pools of [s] are still there, and so are its containers but for
    those that exited by themselves; and so is whatever was created
    since. *)
Definition platform_keeps (E' : Saga.env) (s s' : Saga.state) : Prop :=
  Saga.agent_pools (Saga.st_world s) ⊆ Saga.agent_pools (Saga.st_world s')
  /\ (forall container_name,
        container_name ∈ Saga.containers (Saga.st_world s) ->
        container_name ∈ Saga.containers (Saga.st_world s')
        \/ exited E' (Saga.trace (Saga.st_world s')) container_name)
  /\ exists new,
       Saga.trace (Saga.st_world s') = Saga.trace (Saga.st_world s) ++ new
       /\ (forall organization_id,
             In (Saga.CCreatePool organization_id, true) new ->
             Saga.new_pool_id E' organization_id ∈ Saga.agent_pools (Saga.st_world s'))
       /\ (forall container_name,
             In (Saga.CDockerRun container_name, true) new ->
             container_name ∈ Saga.containers (Saga.st_world s')
             \/ exited E' (Saga.trace (Saga.st_world s')) container_name).

(** The same of the saga as a whole, with the SMK workspaces. *)
Definition keeps (E : env) (st st' : state) : Prop :=
  platform_keeps (shared_env E) (platform st) (platform st')
  /\ smk_workspaces st ⊆ smk_workspaces st'
  /\ exists own,
       calls st' = calls st ++ own
       /\ (forall organization_id default_project_id workspace_id,
             In (CCreateWorkspace organization_id default_project_id, true) own ->
             created_workspace E organization_id = Some workspace_id ->
             workspace_id ∈ smk_workspaces st').

(** Between [st] and [st'] nothing was created, the variables were
    left alone, and what is gone is what the variables [l] hold: one
    pool, one container and one workspace at most, besides the
    containers that exited by themselves. *)
Definition loses (E : env) (l : locals) (st st' : state) : Prop :=
  variables st' = variables st
  /\ (forall pool,
        pool ∈ Saga.agent_pools (Saga.st_world (platform st)) ->
        pool ∈ Saga.agent_pools (Saga.st_world (platform st'))
        \/ agent_pool_id l = Some pool)
  /\ (forall container,
        container ∈ Saga.containers (Saga.st_world (platform st)) ->
        container ∈ Saga.containers (Saga.st_world (platform st'))
        \/ agent_container l = Some container
        \/ exited (shared_env E) (Saga.trace (Saga.st_world (platform st'))) container)
  /\ (forall workspace_id,
        workspace_id ∈ smk_workspaces st ->
        workspace_id ∈ smk_workspaces st' \/ new_workspace l = Some workspace_id)
  /\ exists fin own,
       Saga.trace (Saga.st_world (platform st'))
       = Saga.trace (Saga.st_world (platform st)) ++ fin
       /\ calls st' = calls st ++ own
       /\ (forall c, In (c, true) fin -> creates c = false)
       /\ (forall c, In (c, true) own -> creates_workspace c = false).

(** What was created between [st] and [st'] and is gone at [st'] is
    what the variables hold at [st']: one workspace, one container,
    one pool at most. *)
Definition tears_down_at_most_the_last (E : env) (st st' : state) : Prop :=
  exists new own,
    Saga.trace (Saga.st_world (platform st'))
    = Saga.trace (Saga.st_world (platform st)) ++ new
    /\ calls st' = calls st ++ own
    /\ (forall organization_id,
          In (Saga.CCreatePool organization_id, true) new ->
          Saga.new_pool_id (shared_env E) organization_id
            ∈ Saga.agent_pools (Saga.st_world (platform st'))
          \/ agent_pool_id (variables st')
             = Some (Saga.new_pool_id (shared_env E) organization_id))
    /\ (forall container_name,
          In (Saga.CDockerRun container_name, true) new ->
          container_name ∈ Saga.containers (Saga.st_world (platform st'))
          \/ agent_container (variables st') = Some container_name)
    /\ (forall organization_id default_project_id workspace_id,
          In (CCreateWorkspace organization_id default_project_id, true) own ->
          created_workspace E organization_id = Some workspace_id ->
          workspace_id ∈ smk_workspaces st'
          \/ new_workspace (variables st') = Some workspace_id).

(** The same when containers can exit by themselves: started with
    [remove=True], a container that exited is removed by the runtime,
    whatever the variables hold. *)
Definition tears_down_the_last_or_exited (E : env) (st st' : state) : Prop :=
  exists new own,
    Saga.trace (Saga.st_world (platform st'))
    = Saga.trace (Saga.st_world (platform st)) ++ new
    /\ calls st' = calls st ++ own
    /\ (forall organization_id,
          In (Saga.CCreatePool organization_id, true) new ->
          Saga.new_pool_id (shared_env E) organization_id
            ∈ Saga.agent_pools (Saga.st_world (platform st'))
          \/ agent_pool_id (variables st')
             = Some (Saga.new_pool_id (shared_env E) organization_id))
    /\ (forall container_name,
          In (Saga.CDockerRun container_name, true) new ->
          container_name ∈ Saga.containers (Saga.st_world (platform st'))
          \/ agent_container (variables st') = Some container_name
          \/ exited (shared_env E) (Saga.trace (Saga.st_world (platform st')))
               container_name)
    /\ (forall organization_id default_project_id workspace_id,
          In (CCreateWorkspace organization_id default_project_id, true) own ->
          created_workspace E organization_id = Some workspace_id ->
          workspace_id ∈ smk_workspaces st'
          \/ new_workspace (variables st') = Some workspace_id).

End VarsetSagaSpec.

(** ** An example for the saga of the variable sets *)

Module VarsetExamples.

Import Examples.

(** Two organizations, each with one variable set that has one
    sensitive variable. *)
Definition variable_set_of (id_ organization_id : string) : record :=
  [ ("id", VStr id_);
    ("attributes", VDict [("name", VStr id_); ("global", VBool true)]);
    ("relationships",
      VDict [ ("organization", VDict [("data", VDict [("id", VStr organization_id)])]) ]) ].

Definition variable_set_variable_of (id_ key var_set_id : string) : record :=
  [ ("id", VStr id_);
    ("attributes", VDict [("key", VStr key); ("sensitive", VBool true)]);
    ("relationships",
      VDict [ ("varset", VDict [("data", VDict [("id", VStr var_set_id)])]) ]) ].

Definition two_organizations_data : Mapper.dataset :=
  [ ("organizations",
      [ [("id", VStr "org-1"); ("attributes", VDict [("name", VStr "Acme")])];
        [("id", VStr "org-2"); ("attributes", VDict [("name", VStr "Globex")])] ]);
    ("variable_sets",
      [ variable_set_of "varset-1" "org-1"; variable_set_of "varset-2" "org-2" ]);
    ("variable_set_variables",
      [ variable_set_variable_of "var-1" "TOKEN" "varset-1";
        variable_set_variable_of "var-2" "PASSWORD" "varset-2" ]) ].

(** Nothing fails; the platform creates the workspace [ws-smk-<org>]
    for an organization. *)
Definition nothing_fails : VarsetSaga.env :=
  {| VarsetSaga.shared_env := env_with_faults (fun _ => None);
     VarsetSaga.fault := fun _ _ => None;
     VarsetSaga.applied := fun _ _ => false;
     VarsetSaga.projects_of := fun _ =>
       [ [("id", VStr "prj-0"); ("attributes", VDict [("name", VStr "Default Project")])] ];
     VarsetSaga.created_workspace := fun organization_id =>
       Some ("ws-smk-" +:+ organization_id);
     VarsetSaga.backup_of := fun _ =>
       Some [("attributes", VDict [("global", VBool true); ("priority", VBool false)])] |}.

Definition two_organizations_state : VarsetSaga.state :=
  {| VarsetSaga.platform :=
       {| Saga.st_world :=
            {| Saga.workspaces := ∅;
               Saga.agent_pools := ∅;
               Saga.containers := ∅;
               Saga.trace := [] |};
          Saga.st_data := two_organizations_data;
          Saga.st_locals := Saga.initial_locals |};
     VarsetSaga.smk_workspaces := ∅;
     VarsetSaga.calls := [];
     VarsetSaga.variables := VarsetSaga.initial_locals |}.

(** Nothing fails, but the agent of the first organization exits once
    the agent of the second has been started. *)
Definition first_agent_exits : VarsetSaga.env :=
  {| VarsetSaga.shared_env :=
       {| Saga.container_runtime_available := true;
          Saga.confirmed := true;
          Saga.fault := fun _ _ => None;
          Saga.applied := fun _ _ => false;
          Saga.exits := fun h container_name =>
            String.eqb container_name "smk-tfc-agent-org-1"
            && existsb (fun entry =>
                          match fst entry with
                          | Saga.CDockerRun name => String.eqb name "smk-tfc-agent-org-2"
                          | _ => false
                          end) h;
          Saga.new_pool_id := Saga.new_pool_id (VarsetSaga.shared_env nothing_fails);
          Saga.run_of := Saga.run_of (VarsetSaga.shared_env nothing_fails);
          Saga.plan_status := Saga.plan_status (VarsetSaga.shared_env nothing_fails);
          Saga.log_of := Saga.log_of (VarsetSaga.shared_env nothing_fails) |};
     VarsetSaga.fault := fun _ _ => None;
     VarsetSaga.applied := fun _ _ => false;
     VarsetSaga.projects_of := VarsetSaga.projects_of nothing_fails;
     VarsetSaga.created_workspace := VarsetSaga.created_workspace nothing_fails;
     VarsetSaga.backup_of := VarsetSaga.backup_of nothing_fails |}.

End VarsetExamples.

(** * Properties *)

(** ** The API client *)

Module ApiFacts.

Import Api.

Section Client.

Context {server : Type} `{!Client server}.

Lemma fetch_pages_chain drop method request_data σ url pages σ' :
  page_chain drop method request_data σ url pages σ' ->
  forall fuel raw_data,
    length pages <= fuel ->
    fetch_pages fuel url drop method request_data raw_data σ
    = (σ', Ret (raw_data ++ concat pages)).
Proof.
  induction 1 as [σ url σ' payload items Hcall Hitems Hnext
                 |σ url σ1 payload items rest σ' Hcall Hitems Hnext _ IH];
    intros fuel raw_data Hfuel.
  - destruct fuel as [|fuel]; [simpl in Hfuel; lia|].
    simpl. unfold bind, lift. rewrite Hcall, Hitems, Hnext.
    simpl. now rewrite app_nil_r.
  - destruct fuel as [|fuel]; [simpl in Hfuel; lia|].
    simpl. unfold bind, lift. rewrite Hcall, Hitems, Hnext.
    rewrite IH by (simpl in Hfuel; lia).
    simpl. now rewrite <- app_assoc.
Qed.

Lemma select_data_no_properties include_regex properties raw_data data :
  is_falsy_list properties = true ->
  select_data include_regex properties raw_data = Ret data ->
  data = [].
Proof.
  intros Hprops. revert data.
  induction raw_data as [|raw_datum rest IH]; intros data Hsel; simpl in Hsel.
  - now inversion Hsel.
  - destruct raw_datum; try discriminate.
    destruct (if truthy _ then _ else _) as [skip| |]; simpl in Hsel; try discriminate.
    destruct (select_data include_regex properties rest) as [data'| |];
      simpl in Hsel; try discriminate.
    rewrite Hprops in Hsel.
    specialize (IH data' eq_refl). subst data'.
    destruct skip; now inversion Hsel.
Qed.

Lemma call_api_not_found method url drop request_data σ σ' body :
  http {| rq_method := method; rq_url := url; rq_data := request_data |} σ
  = (σ', HttpResponse NOT_FOUND body) ->
  dump_decodes body = true ->
  _call_api (VStr url) drop method request_data σ = (σ', Ret [("data", VDict [])]).
Proof.
  intros Hhttp Hdump. unfold _call_api. rewrite Hhttp, Hdump. reflexivity.
Qed.

Lemma call_api_undecodable method url drop request_data σ σ' status :
  http {| rq_method := method; rq_url := url; rq_data := request_data |} σ
  = (σ', HttpResponse status NotUtf8) ->
  _call_api (VStr url) drop method request_data σ = (σ', Raise UnicodeDecodeError).
Proof.
  intros Hhttp. unfold _call_api. rewrite Hhttp. reflexivity.
Qed.

(** The path the comment of line 76 describes.  Whatever the method and
    the URL, a response with status 404 whose body can be decoded makes
    [_call_api] return the payload [{"data": {}}] instead of raising;
    that payload is an empty page (no items, no next link), and
    [_extract_data_from_api] returns the empty list from it. *)
Lemma decodable_not_found_is_an_empty_page
    (method url : string) (drop : option (list (list string)))
    (request_data : option value) (σ σ' : server) (body : content) :
  http {| rq_method := method; rq_url := url; rq_data := request_data |} σ
  = (σ', HttpResponse 404 body) ->
  dump_decodes body = true ->
  _call_api (VStr url) drop method request_data σ = (σ', Ret [("data", VDict [])])
  /\ page_items [("data", VDict [])] = Ret []
  /\ truthy (get [("data", VDict [])] ["links"; "next"]) = false
  /\ forall fuel path include_pattern properties,
       url = api_endpoint +:+ "/api/v2" +:+ path ->
       re_compile (default ".*" include_pattern) <> None ->
       _extract_data_from_api (S fuel) path drop include_pattern method properties
         request_data σ = (σ', Ret []).
Proof.
  intros Hhttp Hdump.
  pose proof (call_api_not_found method url drop request_data σ σ' body Hhttp Hdump)
    as Hcall.
  repeat split; try assumption; try reflexivity.
  intros fuel path include_pattern properties -> Hre.
  assert (Hchain : page_chain drop method request_data σ
                     (VStr (api_endpoint +:+ "/api/v2" +:+ path)) [[]] σ')
    by (eapply chain_last; [exact Hcall | reflexivity | reflexivity]).
  pose proof (fetch_pages_chain _ _ _ _ _ _ _ Hchain (S fuel) []) as Hfetch.
  simpl length in Hfetch. specialize (Hfetch ltac:(lia)).
  unfold _extract_data_from_api, bind. rewrite Hfetch.
  destruct (re_compile (default ".*" include_pattern)) as [include_regex|];
    [reflexivity | congruence].
Qed.

(** C2. A response with status 404 is not always turned into an empty
    page: when the bytes of its body are not UTF-8, decoding the dump of
    the exchange for the debug log raises [UnicodeDecodeError] before the
    status is looked at; no [except] clause catches it, and it reaches
    the caller of [_call_api] and of [_extract_data_from_api], whatever
    the method, the URL and the arguments. *)
Theorem undecodable_not_found_is_raised
    (method url : string) (drop : option (list (list string)))
    (request_data : option value) (σ σ' : server) :
  http {| rq_method := method; rq_url := url; rq_data := request_data |} σ
  = (σ', HttpResponse 404 NotUtf8) ->
  _call_api (VStr url) drop method request_data σ = (σ', Raise UnicodeDecodeError)
  /\ forall fuel path include_pattern properties,
       url = api_endpoint +:+ "/api/v2" +:+ path ->
       _extract_data_from_api (S fuel) path drop include_pattern method properties
         request_data σ = (σ', Raise UnicodeDecodeError).
Proof.
  intros Hhttp.
  pose proof (call_api_undecodable method url drop request_data σ σ' 404 Hhttp) as Hcall.
  split; [exact Hcall|].
  intros fuel path include_pattern properties ->.
  unfold _extract_data_from_api, bind. cbn [fetch_pages]. unfold bind.
  now rewrite Hcall.
Qed.


(** C10. When no projection is passed ([properties] is [None] or empty),
    whatever [_extract_data_from_api] returns is the empty list, however
    many items the API answered with; so it is for [_delete_agent_pool],
    which passes none. *)
Theorem no_projection_returns_nothing
    (fuel : nat) (path method : string) (drop properties : option (list (list string)))
    (include_pattern : option string) (request_data : option value)
    (σ σ' : server) (data : list record) :
  is_falsy_list properties = true ->
  _extract_data_from_api fuel path drop include_pattern method properties
    request_data σ = (σ', Ret data) ->
  data = []
  /\ forall fuel' id_ σ1 σ2 data',
       _delete_agent_pool fuel' id_ σ1 = (σ2, Ret data') -> data' = [].
Proof.
  assert (Hgen : forall fuel path method drop properties include_pattern
                        request_data σ σ' data,
             is_falsy_list properties = true ->
             _extract_data_from_api fuel path drop include_pattern method properties
               request_data σ = (σ', Ret data) ->
             data = []).
  { clear. intros fuel path method drop properties include_pattern request_data
      σ σ' data Hprops Hex.
    unfold _extract_data_from_api, bind in Hex.
    destruct (fetch_pages _ _ _ _ _ _ _) as [σ1 [raw| |]]; try discriminate.
    destruct (re_compile _) as [include_regex|]; [|discriminate].
    unfold lift in Hex. inversion Hex as [[Hσ Hsel]].
    eapply select_data_no_properties; eassumption. }
  intros Hprops Hex. split.
  - eapply Hgen; eassumption.
  - intros fuel' id_ σ1 σ2 data' Hdel. unfold _delete_agent_pool in Hdel.
    eapply Hgen; [|eassumption]. reflexivity.
Qed.

End Client.

End ApiFacts.

Module ApiWitnesses.

Import Api Examples.

#[local] Existing Instance two_page_client.

(** On the server of the example a 404 without a body is an empty
    page. *)
Example empty_not_found_is_an_empty_page :
  _call_api (VStr "https://tfe/api/v2/agent-pools/apool-1") None "DELETE" None tt
  = (tt, Ret [("data", VDict [])])
  /\ _extract_data_from_api 1 "/agent-pools/apool-1" None None "DELETE"
       (Some [["id"]]) None tt = (tt, Ret []).
Proof.
  pose proof (ApiFacts.decodable_not_found_is_an_empty_page
                "DELETE" "https://tfe/api/v2/agent-pools/apool-1" None None tt tt
                NoContent eq_refl eq_refl) as (Hcall & _ & _ & Hextract).
  split; [exact Hcall|].
  apply Hextract; [reflexivity | discriminate].
Qed.

(** Behind a proxy that answers 404 with a page in Latin-1, deleting an
    agent pool that is already gone raises. *)
Lemma undecodable_not_found_is_raised_witness :
  _call_api (Client0 := MoreExamples.latin1_proxy_client)
    (VStr "https://tfe/api/v2/agent-pools/apool-1") None "DELETE" None tt
  = (tt, Raise UnicodeDecodeError)
  /\ _delete_agent_pool (Client0 := MoreExamples.latin1_proxy_client) 1 "apool-1" tt
     = (tt, Raise UnicodeDecodeError).
Proof.
  pose proof (ApiFacts.undecodable_not_found_is_raised (Client0 := MoreExamples.latin1_proxy_client)
                "DELETE" "https://tfe/api/v2/agent-pools/apool-1" None None tt tt
                eq_refl) as (Hcall & Hextract).
  split; [exact Hcall|].
  apply Hextract. reflexivity.
Defined.




Lemma no_projection_returns_nothing_witness :
  exists data,
    _extract_data_from_api 2 "/organizations/o/workspaces" None None "PATCH" None None tt
    = (tt, Ret data)
    /\ data = [].
Proof.
  eexists. split; [reflexivity|].
  exact (proj1 (ApiFacts.no_projection_returns_nothing
                  2 "/organizations/o/workspaces" "PATCH" None None None None tt tt []
                  eq_refl eq_refl)).
Defined.

End ApiWitnesses.

(** ** The schema mapper *)

Module MapperFacts.

Import Mapper.

Lemma py_eq_str v s : py_eq v (VStr s) = true <-> v = VStr s.
Proof.
  destruct v; simpl; split; intros H; try discriminate; try congruence.
  - apply String.eqb_eq in H. now subst.
  - inversion H. apply String.eqb_refl.
Qed.

Lemma obind_ret {A B} (o : outcome A) (k : A -> outcome B) b :
  obind o k = Ret b -> exists a, o = Ret a /\ k a = Ret b.
Proof. destruct o; simpl; intros H; try discriminate. eauto. Qed.

Lemma oflat_map_incl {A B} (f : A -> outcome (list B)) l r a :
  oflat_map f l = Ret r -> In a l -> exists ra, f a = Ret ra /\ incl ra r.
Proof.
  revert r. induction l as [|x l IH]; intros r Hr Hin; [destruct Hin|].
  simpl in Hr. apply obind_ret in Hr as (rx & Hx & Hr).
  apply obind_ret in Hr as (rl & Hl & Hr). inversion Hr; subst r.
  destruct Hin as [->|Hin].
  - exists rx. split; [assumption|]. apply incl_appl, incl_refl.
  - destruct (IH rl Hl Hin) as (ra & Ha & Hincl).
    exists ra. split; [assumption|]. now apply incl_appr.
Qed.

Lemma mmap_list_Forall2 {S A B} (f : A -> M S B) l st st' bs :
  mmap_list f l st = (st', Ret bs) ->
  Forall2 (fun a b => exists s s', f a s = (s', Ret b)) l bs.
Proof.
  revert st bs. induction l as [|a l IH]; intros st bs H; simpl in H.
  - inversion H. constructor.
  - unfold bind in H. destruct (f a st) as [s1 [b| |]] eqn:Ha; try discriminate.
    destruct (mmap_list f l s1) as [s2 [bs'| |]] eqn:Hl; try discriminate.
    inversion H; subst. constructor; eauto.
Qed.

Section Mapper.

Context {libs : Libs}.

(** What a mapped stack says about the workspace it comes from. *)
Lemma map_stack_inv cfg src_data workspace st st' stack :
  map_stack cfg src_data workspace st = (st', Ret stack) ->
  exists plain secret version tool,
    find_workspace_variable_with_invalid_name src_data (get workspace ["id"]) "plain"
    = Ret plain
    /\ find_workspace_variable_with_invalid_name src_data (get workspace ["id"]) "secret"
       = Ret secret
    /\ select_workflow_tool (get workspace ["attributes"; "terraform-version"])
       = Ret (version, tool)
    /\ get stack ["_source_id"] = get workspace ["id"]
    /\ get stack ["has_variables_with_invalid_name"]
       = VBool (Nat.ltb 0 (length plain) && negb (auto_fix_variable_names cfg))
    /\ get stack ["has_secret_variables_with_invalid_name"]
       = VBool (Nat.ltb 0 (length secret) && negb (auto_fix_variable_names cfg))
    /\ get stack ["terraform"; "version"] = version
    /\ get stack ["terraform"; "workflow_tool"] = VStr tool.
Proof.
  unfold map_stack, bind, lift. intros H.
  destruct (find_workspace_variable_with_invalid_name _ _ "plain") as [plain| |];
    try discriminate.
  destruct (find_workspace_variable_with_invalid_name _ _ "secret") as [secret| |];
    try discriminate.
  destruct (_determine_provider workspace st) as [st1 [vcs_info| |]]; try discriminate.
  destruct (select_workflow_tool _) as [[version tool]| |]; try discriminate.
  destruct (_build_stack_slug workspace) as [slug| |]; try discriminate.
  unfold ret in H. inversion H; subst.
  exists plain, secret, version, tool. repeat split; reflexivity.
Qed.

Lemma select_latest :
  select_workflow_tool (VStr "latest") = Ret (VStr "1.5.7", "TERRAFORM_FOSS").
Proof. reflexivity. Qed.

Lemma select_not_latest v :
  v <> "latest" ->
  select_workflow_tool (VStr v)
  = if Str.starts_with "~" v || Str.starts_with "^" v
    then Ret (VStr v, "OPEN_TOFU")
    else match semver_match v ">1.5.7" with
         | Some true => Ret (VStr v, "OPEN_TOFU")
         | Some false => Ret (VStr v, "TERRAFORM_FOSS")
         | None => Raise (ValueError "not valid SemVer")
         end.
Proof.
  intros Hv. unfold select_workflow_tool.
  destruct (py_eq (VStr v) (VStr "latest")) eqn:Heq; [|reflexivity].
  apply py_eq_str in Heq. congruence.
Qed.

(** C5. For every workspace that [_map_stacks_data] maps to a stack:
    when the Terraform version is the literal "latest", the stack has
    version 1.5.7 and workflow tool TERRAFORM_FOSS; when it starts with
    "~" or "^", or [semver.match] finds it above 1.5.7, the workflow
    tool is OPEN_TOFU; otherwise it is TERRAFORM_FOSS. *)
Theorem workflow_tool_selection cfg src_data st st' workspaces stacks :
  iterate "workspaces" src_data = Ret workspaces ->
  _map_stacks_data cfg src_data st = (st', Ret stacks) ->
  Forall2 (fun workspace stack =>
    let version := get workspace ["attributes"; "terraform-version"] in
    let tool := get stack ["terraform"; "workflow_tool"] in
    (version = VStr "latest" ->
       get stack ["terraform"; "version"] = VStr "1.5.7"
       /\ tool = VStr "TERRAFORM_FOSS")
    /\ (forall v, version = VStr v -> v <> "latest" ->
          (Str.starts_with "~" v = true \/ Str.starts_with "^" v = true
           \/ semver_match v ">1.5.7" = Some true) ->
          tool = VStr "OPEN_TOFU")
    /\ (forall v, version = VStr v -> v <> "latest" ->
          Str.starts_with "~" v = false -> Str.starts_with "^" v = false ->
          semver_match v ">1.5.7" <> Some true ->
          tool = VStr "TERRAFORM_FOSS"))
    workspaces stacks.
Proof.
  intros Hws Hmap. unfold _map_stacks_data, bind, lift in Hmap.
  rewrite Hws in Hmap. apply mmap_list_Forall2 in Hmap.
  eapply Forall2_impl; [exact Hmap|].
  intros workspace stack (s & s' & Hstack). cbv zeta.
  apply map_stack_inv in Hstack
    as (plain & secret & version & tool & _ & _ & Hsel & _ & _ & _ & Hver & Htool).
  rewrite Hver, Htool. clear Hver Htool. split; [|split].
  - intros Hv. rewrite Hv, select_latest in Hsel. now inversion Hsel.
  - intros v Hv Hne Hcase. rewrite Hv, select_not_latest in Hsel by assumption.
    destruct (Str.starts_with "~" v) eqn:H1; [now inversion Hsel|].
    destruct (Str.starts_with "^" v) eqn:H2; [now inversion Hsel|].
    destruct Hcase as [?|[?|Hgt]]; try discriminate.
    simpl in Hsel. rewrite Hgt in Hsel. now inversion Hsel.
  - intros v Hv Hne H1 H2 Hgt. rewrite Hv, select_not_latest in Hsel by assumption.
    rewrite H1, H2 in Hsel. simpl in Hsel.
    destruct (semver_match v ">1.5.7") as [[|]|]; congruence.
Qed.

Lemma find_invalid_contains src_data workspace_id type_ variables variable key found :
  iterate "workspace_variables" src_data = Ret variables ->
  In variable variables ->
  find_workspace_variable_with_invalid_name src_data workspace_id type_ = Ret found ->
  (is_true (get variable ["attributes"; "sensitive"]) && String.eqb type_ "plain")
  || (is_false (get variable ["attributes"; "sensitive"]) && String.eqb type_ "secret")
  = false ->
  py_eq (get variable ["relationships"; "workspace"; "data"; "id"]) workspace_id = true ->
  get variable ["attributes"; "key"] = VStr key ->
  Str.valid_env_var_name key = false ->
  In variable found.
Proof.
  intros Hvars Hin Hfind Hskip Hws Hkey Hbad.
  unfold find_workspace_variable_with_invalid_name in Hfind.
  rewrite Hvars in Hfind. simpl in Hfind.
  destruct (oflat_map_incl _ _ _ _ Hfind Hin) as (ra & Hra & Hincl).
  cbv beta zeta in Hra. rewrite Hskip, Hws, Hkey in Hra. simpl in Hra.
  rewrite Hbad in Hra. simpl in Hra. inversion Hra; subst ra.
  apply Hincl. now left.
Qed.

Lemma positive_length {A} (x : A) l : In x l -> Nat.ltb 0 (length l) = true.
Proof. destruct l; [intros []|reflexivity]. Qed.

(** C6, as the code has it. For a workspace variable whose key does not
    match the name pattern: with auto-fix disabled, the owning stack gets
    [has_variables_with_invalid_name = true] when the variable is not
    marked sensitive, and [has_secret_variables_with_invalid_name = true]
    when it is not marked non-sensitive, and the mapped variable's
    [replacement_name] is the key; with auto-fix enabled,
    [replacement_name] is the key with hyphens replaced by underscores
    and both stack flags are false; [name] is the key in both cases. *)
Theorem invalid_variable_name_flags
    cfg src_data variables variable key workspace st st' stack :
  iterate "workspace_variables" src_data = Ret variables ->
  In variable variables ->
  get variable ["attributes"; "key"] = VStr key ->
  Str.valid_env_var_name key = false ->
  py_eq (get variable ["relationships"; "workspace"; "data"; "id"])
    (get workspace ["id"]) = true ->
  map_stack cfg src_data workspace st = (st', Ret stack) ->
  (auto_fix_variable_names cfg = false ->
     (is_true (get variable ["attributes"; "sensitive"]) = false ->
        get stack ["has_variables_with_invalid_name"] = VBool true)
     /\ (is_false (get variable ["attributes"; "sensitive"]) = false ->
        get stack ["has_secret_variables_with_invalid_name"] = VBool true))
  /\ (auto_fix_variable_names cfg = true ->
        get stack ["has_variables_with_invalid_name"] = VBool false
        /\ get stack ["has_secret_variables_with_invalid_name"] = VBool false)
  /\ (forall mapped,
        map_stack_variable cfg src_data variable = Ret mapped ->
        get mapped ["name"] = VStr key
        /\ get mapped ["replacement_name"]
           = VStr (if auto_fix_variable_names cfg
                   then Str.replace_char "-" "_" key else key)).
Proof.
  intros Hvars Hin Hkey Hbad Hws Hstack.
  apply map_stack_inv in Hstack
    as (plain & secret & version & tool & Hplain & Hsecret & _ & _ & Hf1 & Hf2 & _ & _).
  rewrite Hf1, Hf2. split; [|split].
  - intros Hoff. rewrite Hoff. split; intros Hsens.
    + assert (In variable plain) as Hp.
      { eapply find_invalid_contains; try eassumption.
        rewrite Hsens. simpl. now destruct (is_false _). }
      now rewrite (positive_length _ _ Hp).
    + assert (In variable secret) as Hp.
      { eapply find_invalid_contains; try eassumption.
        rewrite Hsens. simpl. now destruct (is_true _). }
      now rewrite (positive_length _ _ Hp).
  - intros Hon. rewrite Hon. now rewrite !andb_false_r.
  - intros mapped Hmapped. unfold map_stack_variable in Hmapped.
    rewrite Hkey in Hmapped.
    destruct (iterate "workspaces" src_data) as [workspaces| |]; try discriminate.
    simpl in Hmapped.
    destruct (find_by_id workspaces _) as [w|]; try discriminate.
    inversion Hmapped; subst mapped. unfold get. simpl.
    rewrite Hkey. unfold replacement_name_of. rewrite Hbad. simpl.
    split; [reflexivity|]. now destruct (auto_fix_variable_names cfg).
Qed.

(** *** Contexts *)

Lemma has_path_of_get path v : get_path path v <> VNone -> has_path path v = true.
Proof.
  revert v. induction path as [|k rest IH]; intros v Hget; [reflexivity|].
  simpl in *. destruct v; try congruence.
  destruct (dict_get k d); [now apply IH | congruence].
Qed.

Lemma attached_nonempty_list d path x l :
  get d path = VList (x :: l) -> attached d path = Ret true.
Proof.
  intros Hget. unfold attached, contains.
  rewrite has_path_of_get by (fold (get d path); congruence).
  rewrite Hget. reflexivity.
Qed.

Lemma string_length_append a b :
  String.length (a +:+ b) = String.length a + String.length b.
Proof. induction a as [|c a IH]; simpl; [reflexivity | now rewrite IH]. Qed.

Lemma append_inj_l a b c : a +:+ c = b +:+ c -> a = b.
Proof.
  revert b. induction a as [|x a IH]; intros [|y b] Heq; simpl in Heq.
  - reflexivity.
  - apply (f_equal String.length) in Heq.
    rewrite !string_length_append in Heq. simpl in Heq.
    rewrite ?string_length_append in Heq. lia.
  - apply (f_equal String.length) in Heq.
    rewrite !string_length_append in Heq. simpl in Heq.
    rewrite ?string_length_append in Heq. lia.
  - inversion Heq; subst. f_equal. now apply IH.
Qed.

Lemma stack_refs_defined (workspaces : list value) :
  Forall (fun w => exists d id_, w = VDict d /\ get d ["id"] = VStr id_) workspaces ->
  exists stacks,
    each_dict (fun workspace =>
                 obind (generate_migration_id_of (get workspace ["id"])) (fun id_ =>
                   Ret [("_migration_id", VStr id_)]))
      (VList workspaces) = Ret stacks.
Proof.
  unfold each_dict.
  induction 1 as [|w ws (d & id_ & -> & Hid) _ (stacks & IH)]; simpl.
  - eauto.
  - rewrite Hid. simpl. rewrite IH. simpl. eauto.
Qed.

(** C7. A non-global variable set attached to two projects is mapped to
    exactly two contexts, whose [_source_id] is
    [{project_id}_{variable_set_id}] for each project (two different ids
    for two different projects) and whose [name] and [description] are
    those of the variable set; a non-global variable set attached to
    workspaces only is mapped to exactly one context, whose [_source_id]
    is the id of the variable set. *)
Theorem variable_set_to_contexts
    (variable_set project1 project2 : record) (id1 id2 variable_set_id : string) :
  truthy (get variable_set ["attributes"; "global"]) = false ->
  get variable_set ["id"] = VStr variable_set_id ->
  (get variable_set ["relationships"; "projects"; "data"]
     = VList [VDict project1; VDict project2] ->
   get project1 ["id"] = VStr id1 ->
   get project2 ["id"] = VStr id2 ->
   id1 <> id2 ->
   exists context1 context2,
     map_context variable_set = Ret [context1; context2]
     /\ _map_contexts_data [("variable_sets", [variable_set])]
        = Ret [context1; context2]
     /\ get context1 ["_source_id"] = VStr (id1 +:+ "_" +:+ variable_set_id)
     /\ get context2 ["_source_id"] = VStr (id2 +:+ "_" +:+ variable_set_id)
     /\ get context1 ["_source_id"] <> get context2 ["_source_id"]
     /\ get context1 ["name"] = get variable_set ["attributes"; "name"]
     /\ get context2 ["name"] = get variable_set ["attributes"; "name"]
     /\ get context1 ["description"] = get variable_set ["attributes"; "description"]
     /\ get context2 ["description"] = get variable_set ["attributes"; "description"])
  /\ (forall workspace workspaces organization_id,
        attached variable_set ["relationships"; "projects"; "data"] = Ret false ->
        get variable_set ["relationships"; "workspaces"; "data"]
          = VList (workspace :: workspaces) ->
        Forall (fun w => exists d id_, w = VDict d /\ get d ["id"] = VStr id_)
          (workspace :: workspaces) ->
        get variable_set ["relationships"; "organization"; "data"; "id"]
          = VStr organization_id ->
        exists context,
          map_context variable_set = Ret [context]
          /\ _map_contexts_data [("variable_sets", [variable_set])] = Ret [context]
          /\ get context ["_source_id"] = VStr variable_set_id).
Proof.
  intros Hglobal Hid. split.
  - intros Hprojects Hid1 Hid2 Hne.
    assert (Hmap : map_context variable_set
                   = Ret [ [ ("_migration_id", VStr (_generate_migration_id [variable_set_id]));
                             ("_relationships",
                               VDict [("space", VDict [("_migration_id",
                                                        VStr (_generate_migration_id [id1]))]);
                                      ("stacks", VList [])]);
                             ("_source_id", VStr (id1 +:+ "_" +:+ variable_set_id));
                             ("description", get variable_set ["attributes"; "description"]);
                             ("labels", VList [VStr "autoattach:*"]);
                             ("name", get variable_set ["attributes"; "name"]) ];
                           [ ("_migration_id", VStr (_generate_migration_id [variable_set_id]));
                             ("_relationships",
                               VDict [("space", VDict [("_migration_id",
                                                        VStr (_generate_migration_id [id2]))]);
                                      ("stacks", VList [])]);
                             ("_source_id", VStr (id2 +:+ "_" +:+ variable_set_id));
                             ("description", get variable_set ["attributes"; "description"]);
                             ("labels", VList [VStr "autoattach:*"]);
                             ("name", get variable_set ["attributes"; "name"]) ] ]).
    { unfold map_context. rewrite Hglobal.
      rewrite (attached_nonempty_list _ _ _ _ Hprojects). simpl.
      rewrite Hprojects. simpl. rewrite Hid, Hid1, Hid2. reflexivity. }
    eexists _, _. split; [exact Hmap|]. split.
    { unfold _map_contexts_data. simpl. now rewrite Hmap. }
    repeat split; try reflexivity.
    unfold get; simpl. intros Heq. inversion Heq as [Happ].
    apply append_inj_l in Happ. contradiction.
  - intros workspace workspaces organization_id Hnot Hws Hall Horg.
    destruct (stack_refs_defined _ Hall) as (stacks & Hstacks).
    assert (Hmap : map_context variable_set
                   = Ret [ [ ("_migration_id", VStr (_generate_migration_id [variable_set_id]));
                             ("_relationships",
                               VDict [("space", VDict [("_migration_id",
                                                        VStr (_generate_migration_id
                                                                [organization_id]))]);
                                      ("stacks", VList (map VDict stacks))]);
                             ("_source_id", VStr variable_set_id);
                             ("description", get variable_set ["attributes"; "description"]);
                             ("labels", VList []);
                             ("name", get variable_set ["attributes"; "name"]) ] ]).
    { unfold map_context. rewrite Hglobal, Hnot. simpl.
      rewrite (attached_nonempty_list _ _ _ _ Hws). simpl.
      rewrite Hws, Hstacks. simpl.
      rewrite Hid, Horg. reflexivity. }
    eexists. split; [exact Hmap|]. split.
    { unfold _map_contexts_data. simpl. now rewrite Hmap. }
    reflexivity.
Qed.

(** C4, at the failing input. Whatever [slugify] is, the two contexts
    mapped from a variable set attached to the projects [prj-a] and
    [prj-b] carry the same [_migration_id], the one generated from the
    id of the variable set; the variables of those two contexts refer to
    their context by the [_migration_id] generated from
    [{project_id}_{variable_set_id}], which differs per project. *)
Theorem context_copies_share_migration_id :
  exists context1 context2 variable1 variable2,
    _map_contexts_data Examples.shared_data = Ret [context1; context2]
    /\ get context1 ["_source_id"] = VStr "prj-a_varset-1"
    /\ get context2 ["_source_id"] = VStr "prj-b_varset-1"
    /\ get context1 ["_migration_id"] = VStr (_generate_migration_id ["varset-1"])
    /\ get context2 ["_migration_id"] = VStr (_generate_migration_id ["varset-1"])
    /\ _map_context_variables_data Examples.auto_fix_off Examples.shared_data
       = Ret [variable1; variable2]
    /\ get variable1 ["_relationships"; "context"; "_migration_id"]
       = VStr (_generate_migration_id ["prj-a_varset-1"])
    /\ get variable2 ["_relationships"; "context"; "_migration_id"]
       = VStr (_generate_migration_id ["prj-b_varset-1"]).
Proof.
  eexists _, _, _, _. repeat split.
Qed.

End Mapper.

End MapperFacts.

Module MapperWitnesses.

Import Mapper Examples.

#[local] Existing Instance example_libs.

Lemma workflow_tool_selection_witness :
  exists s1 s2 s3 s4,
    _map_stacks_data auto_fix_off versions_data no_flags = (no_flags, Ret [s1; s2; s3; s4])
    /\ get s1 ["terraform"; "version"] = VStr "1.5.7"
    /\ get s1 ["terraform"; "workflow_tool"] = VStr "TERRAFORM_FOSS"
    /\ get s2 ["terraform"; "workflow_tool"] = VStr "OPEN_TOFU"
    /\ get s3 ["terraform"; "workflow_tool"] = VStr "OPEN_TOFU"
    /\ get s4 ["terraform"; "workflow_tool"] = VStr "TERRAFORM_FOSS".
Proof.
  eexists _, _, _, _. split; [reflexivity|].
  pose proof (MapperFacts.workflow_tool_selection auto_fix_off versions_data
                no_flags no_flags _ _ eq_refl eq_refl) as Hall.
  apply Forall2_cons_1 in Hall as [(H1 & _ & _) Hall].
  apply Forall2_cons_1 in Hall as [(_ & H2 & _) Hall].
  apply Forall2_cons_1 in Hall as [(_ & H3 & _) Hall].
  apply Forall2_cons_1 in Hall as [(_ & _ & H4) _].
  destruct (H1 eq_refl) as [Hv Ht].
  split; [exact Hv|]. split; [exact Ht|].
  split; [apply (H2 "~1.6.0" eq_refl); [discriminate | now left]|].
  split; [apply (H3 "1.6.0" eq_refl); [discriminate | now right; right]|].
  apply (H4 "1.5.7" eq_refl); [discriminate | reflexivity | reflexivity | discriminate].
Defined.

(** A sensitive variable named [bad-name], auto-fix disabled:
    [has_variables_with_invalid_name] is not set on the stack. *)
Lemma sensitive_invalid_name_not_flagged :
  ~ (Str.valid_env_var_name "bad-name" = false ->
     forall st' stack,
       map_stack auto_fix_off (bad_name_data true)
         (workspace_with_version "ws-1" "network" "1.5.7") no_flags = (st', Ret stack) ->
       get stack ["has_variables_with_invalid_name"] = VBool true).
Proof.
  intros Hclaim. specialize (Hclaim eq_refl _ _ eq_refl). discriminate Hclaim.
Qed.

Lemma invalid_variable_name_flags_witness :
  exists stack mapped,
    map_stack auto_fix_off (bad_name_data false)
      (workspace_with_version "ws-1" "network" "1.5.7") no_flags = (no_flags, Ret stack)
    /\ map_stack_variable auto_fix_off (bad_name_data false)
         (variable_of "var-1" "bad-name" "ws-1" false) = Ret mapped
    /\ get stack ["has_variables_with_invalid_name"] = VBool true
    /\ get mapped ["replacement_name"] = VStr "bad-name".
Proof.
  assert (exists stack,
            map_stack auto_fix_off (bad_name_data false)
              (workspace_with_version "ws-1" "network" "1.5.7") no_flags
            = (no_flags, Ret stack)) as [stack Hstack]
    by (eexists; vm_compute; reflexivity).
  assert (exists mapped,
            map_stack_variable auto_fix_off (bad_name_data false)
              (variable_of "var-1" "bad-name" "ws-1" false) = Ret mapped)
    as [mapped Hmapped] by (eexists; vm_compute; reflexivity).
  destruct (MapperFacts.invalid_variable_name_flags auto_fix_off (bad_name_data false)
              _ (variable_of "var-1" "bad-name" "ws-1" false) "bad-name"
              (workspace_with_version "ws-1" "network" "1.5.7") no_flags no_flags stack
              eq_refl (or_introl eq_refl) eq_refl eq_refl eq_refl Hstack)
    as (Hoff & _ & Hvar).
  exists stack, mapped. split; [exact Hstack|]. split; [exact Hmapped|]. split.
  - exact (proj1 (Hoff eq_refl) eq_refl).
  - exact (proj2 (Hvar _ Hmapped)).
Defined.

Lemma variable_set_to_contexts_witness :
  exists context1 context2,
    map_context shared_variable_set = Ret [context1; context2]
    /\ get context1 ["_source_id"] = VStr "prj-a_varset-1"
    /\ get context2 ["_source_id"] = VStr "prj-b_varset-1"
    /\ get context1 ["name"] = get context2 ["name"].
Proof.
  destruct (MapperFacts.variable_set_to_contexts shared_variable_set
              [("id", VStr "prj-a"); ("type", VStr "projects")]
              [("id", VStr "prj-b"); ("type", VStr "projects")]
              "prj-a" "prj-b" "varset-1" eq_refl eq_refl) as [Hprojects _].
  destruct (Hprojects eq_refl eq_refl eq_refl ltac:(discriminate))
    as (c1 & c2 & Hmap & _ & H1 & H2 & _ & Hn1 & Hn2 & _).
  exists c1, c2. split; [exact Hmap|]. split; [exact H1|]. split; [exact H2|].
  now rewrite Hn1, Hn2.
Defined.

End MapperWitnesses.

(** ** The relationship expander *)

Module ExpanderFacts.

Import Mapper ExpanderSpec.

Lemma dict_get_set_eq k v d : dict_get k (dict_set k v d) = Some v.
Proof.
  induction d as [|[k' v'] d IH]; simpl.
  - now rewrite String.eqb_refl.
  - destruct (String.eqb k k') eqn:Hk; simpl; rewrite Hk; [reflexivity | exact IH].
Qed.

Lemma dict_get_set_ne k k' v d :
  k <> k' -> dict_get k' (dict_set k v d) = dict_get k' d.
Proof.
  intros Hne. induction d as [|[k0 v0] d IH]; simpl.
  - destruct (String.eqb_spec k' k); [congruence | reflexivity].
  - destruct (String.eqb_spec k k0) as [->|Hk]; simpl.
    + destruct (String.eqb_spec k' k0); [congruence | reflexivity].
    + now rewrite IH.
Qed.

Lemma dict_get_del_eq k d : dict_get k (dict_del k d) = None.
Proof.
  induction d as [|[k' v'] d IH]; simpl; [reflexivity|].
  destruct (String.eqb k k') eqn:Hk; simpl; [exact IH | now rewrite Hk].
Qed.

Lemma dict_get_del_ne k k' d :
  k <> k' -> dict_get k' (dict_del k d) = dict_get k' d.
Proof.
  intros Hne. induction d as [|[k0 v0] d IH]; simpl; [reflexivity|].
  destruct (String.eqb_spec k k0) as [->|Hk]; simpl.
  - rewrite IH. destruct (String.eqb_spec k' k0); [congruence | reflexivity].
  - now rewrite IH.
Qed.

Lemma get_key d k :
  get d [k] = match dict_get k d with Some v => v | None => VNone end.
Proof. unfold get. simpl. now destruct (dict_get k d). Qed.

Lemma collection_set_eq name l data :
  collection name data <> None ->
  collection name (set_collection name l data) = Some l.
Proof.
  induction data as [|[k l'] data IH]; simpl; [congruence|].
  destruct (String.eqb name k) eqn:Hk; simpl; rewrite Hk; [reflexivity|exact IH].
Qed.

Lemma collection_set_ne name name' l data :
  name <> name' ->
  collection name' (set_collection name l data) = collection name' data.
Proof.
  intros Hne. induction data as [|[k l'] data IH]; simpl; [reflexivity|].
  destruct (String.eqb_spec name k) as [->|Hk]; simpl.
  - destruct (String.eqb_spec name' k); [congruence | reflexivity].
  - now rewrite IH.
Qed.

Lemma keys_set_collection name l data :
  map fst (set_collection name l data) = map fst data.
Proof.
  induction data as [|[k l'] data IH]; simpl; [reflexivity|].
  destruct (String.eqb name k); simpl; [reflexivity | now rewrite IH].
Qed.

Lemma collection_keys name data :
  collection name data <> None <-> In name (map fst data).
Proof.
  induction data as [|[k l] data IH]; simpl; [tauto|].
  destruct (String.eqb_spec name k) as [->|Hk].
  - split; [now left | congruence].
  - rewrite IH. split; [now right | intros [?|?]; [congruence | assumption]].
Qed.

Lemma omap_list_Forall2 {A B} (f : A -> outcome B) l bs :
  omap_list f l = Ret bs -> Forall2 (fun a b => f a = Ret b) l bs.
Proof.
  revert bs. induction l as [|a l IH]; intros bs H; simpl in H.
  - inversion H. constructor.
  - destruct (f a) as [b| |] eqn:Ha; simpl in H; try discriminate.
    destruct (omap_list f l) as [bs'| |]; simpl in H; try discriminate.
    inversion H; subst. constructor; [assumption | now apply IH].
Qed.

Lemma omap_list_defined {A B} (f : A -> outcome B) l :
  Forall (fun a => exists b, f a = Ret b) l -> exists bs, omap_list f l = Ret bs.
Proof.
  induction 1 as [|a l [b Hb] _ [bs IH]]; simpl; [eauto|].
  rewrite Hb. simpl. rewrite IH. simpl. eauto.
Qed.

Section Expander.

Context {libs : Libs}.

Abbreviation similar :=
  (fun r0 r : record =>
     forall k, k <> "_relationships" -> k <> "_migration_id" ->
       dict_get k r = dict_get k r0).

Lemma append_one_not_empty stem c : stem +:+ String c "" <> "".
Proof. destruct stem; discriminate. Qed.

Lemma ends_with_char_spec c s :
  Str.ends_with_char c s = true <-> exists stem, s = stem +:+ String c "".
Proof.
  induction s as [|a s IH].
  - split; [discriminate|]. intros [stem Hstem]. symmetry in Hstem.
    now apply append_one_not_empty in Hstem.
  - destruct s as [|b s].
    + change (Str.ends_with_char c (String a "")) with (Ascii.eqb a c). split.
      * intros Hac. apply Ascii.eqb_eq in Hac as ->. now exists "".
      * intros [[|x stem] Hstem].
        -- change ("" +:+ String c "") with (String c "") in Hstem.
           inversion Hstem. apply Ascii.eqb_refl.
        -- change (String x stem +:+ String c "") with (String x (stem +:+ String c ""))
             in Hstem.
           inversion Hstem as [[Hx Hrest]]. symmetry in Hrest.
           now apply append_one_not_empty in Hrest.
    + change (Str.ends_with_char c (String a (String b s)))
        with (Str.ends_with_char c (String b s)).
      rewrite IH. split.
      * intros [stem ->]. now exists (String a stem).
      * intros [[|x stem] Hstem].
        -- change ("" +:+ String c "") with (String c "") in Hstem. discriminate.
        -- change (String x stem +:+ String c "") with (String x (stem +:+ String c ""))
             in Hstem.
           inversion Hstem. now exists stem.
Qed.

Lemma plural_pluralize type_ name : plural type_ name <-> name = pluralize type_.
Proof.
  unfold plural, pluralize.
  destruct (Str.ends_with_char "s" type_) eqn:Hs.
  - apply ends_with_char_spec in Hs. split.
    + intros [[_ ->]|[Hnone _]]; [reflexivity|]. destruct Hs as [stem ->].
      now destruct (Hnone stem).
    + intros ->. left. now split.
  - assert (Hnone : forall stem, type_ <> stem +:+ "s").
    { intros stem ->.
      assert (Str.ends_with_char "s" (stem +:+ "s") = true)
        by (apply ends_with_char_spec; now exists stem).
      congruence. }
    split.
    + intros [[[stem ->] _]|[_ ->]]; [now destruct (Hnone stem) | reflexivity].
    + intros ->. right. now split.
Qed.

Lemma is_context_collection_spec name :
  is_context_collection name = true <-> passed_over name.
Proof.
  unfold is_context_collection, passed_over. rewrite orb_true_iff, !String.eqb_eq.
  reflexivity.
Qed.

Lemma same_graph_refl data : same_graph data data.
Proof.
  intros name. destruct (collection name data) as [l|]; [|exact I].
  induction l; constructor; auto.
Qed.

Lemma similar_source_id r0 r :
  similar r0 r -> get r ["_source_id"] = get r0 ["_source_id"].
Proof. intros H. rewrite !get_key. now rewrite H by discriminate. Qed.

Lemma find_by_source_id_none l0 l id_ :
  Forall2 similar l0 l ->
  find_by_source_id l id_ = None ->
  Forall (fun entity => py_eq (get entity ["_source_id"]) id_ = false) l0.
Proof.
  induction 1 as [|r0 r l0 l Hr _ IH]; simpl; [constructor|].
  destruct (py_eq (get r ["_source_id"]) id_) eqn:Hid; [discriminate|].
  intros Hrest. constructor; [|now apply IH].
  now rewrite <- (similar_source_id r0 r Hr).
Qed.

Lemma find_by_source_id_some l0 l id_ src :
  Forall2 similar l0 l ->
  find_by_source_id l id_ = Some src ->
  py_eq (get src ["_source_id"]) id_ = true
  /\ exists src0, In src0 l0 /\ similar src0 src.
Proof.
  induction 1 as [|r0 r l0 l Hr _ IH]; simpl; [discriminate|].
  destruct (py_eq (get r ["_source_id"]) id_) eqn:Hid.
  - intros Hsrc. inversion Hsrc; subst src. split; [assumption|].
    exists r0. split; [now left | assumption].
  - intros Hsrc. destruct (IH Hsrc) as (Hmatch & src0 & Hin & Hsim).
    split; [assumption|]. exists src0. split; [now right | assumption].
Qed.

Lemma find_entity_resolves data0 data type_ id_ v :
  same_graph data0 data ->
  find_entity data type_ id_ = Ret v ->
  resolves data0 type_ id_ v.
Proof.
  intros Hsame Hfind. unfold find_entity in Hfind.
  specialize (Hsame (pluralize type_)).
  destruct (collection (pluralize type_) data) as [entities|] eqn:Hc; [|discriminate].
  destruct (collection (pluralize type_) data0) as [entities0|] eqn:Hc0; [|contradiction].
  exists (pluralize type_), entities0.
  split; [now apply plural_pluralize|]. split; [exact Hc0|].
  destruct (find_by_source_id entities id_) as [src|] eqn:Hsrc; inversion Hfind; subst v.
  - right.
    destruct (find_by_source_id_some _ _ _ _ Hsame Hsrc) as (Hmatch & src0 & Hin & Hsim).
    exists src0, (dict_del "_relationships" src).
    split; [assumption|]. split; [now rewrite <- (similar_source_id src0 src Hsim)|].
    split; [reflexivity|]. split.
    + rewrite get_key, dict_get_del_ne by discriminate. now rewrite <- get_key.
    + split; [apply dict_get_del_eq|].
      intros k Hk1 Hk2. rewrite dict_get_del_ne by congruence. now apply Hsim.
  - left. split; [reflexivity|]. eapply find_by_source_id_none; eassumption.
Qed.

Lemma find_entity_defined data type_ id_ :
  collection (pluralize type_) data <> None ->
  exists v, find_entity data type_ id_ = Ret v.
Proof.
  intros H. unfold find_entity.
  destruct (collection (pluralize type_) data); [|congruence].
  destruct (find_by_source_id _ _); eauto.
Qed.

Lemma expand_entry_resolved data0 data entry resolved :
  same_graph data0 data ->
  expand_entry data entry = Ret resolved ->
  entry_resolved data0 entry resolved.
Proof.
  intros Hsame Hexp. destruct entry as [type_ ids]. unfold expand_entry in Hexp.
  assert (Hone : forall id_, obind (find_entity data type_ id_)
                               (fun found => Ret (type_, found)) = Ret resolved ->
                             fst resolved = type_
                             /\ resolves data0 type_ id_ (snd resolved)).
  { intros id_ H. destruct (find_entity data type_ id_) as [v| |] eqn:Hv;
      simpl in H; try discriminate.
    inversion H; subst resolved. split; [reflexivity|].
    eapply find_entity_resolves; eassumption. }
  unfold entry_resolved. simpl.
  destruct ids; try (now apply Hone).
  destruct (omap_list (find_entity data type_) l) as [found| |] eqn:Hfound;
    simpl in Hexp; try discriminate.
  inversion Hexp; subst resolved. split; [reflexivity|].
  exists found. split; [reflexivity|].
  apply omap_list_Forall2 in Hfound.
  eapply Forall2_impl; [exact Hfound|].
  intros id_ v Hv. eapply find_entity_resolves; eassumption.
Qed.

Lemma expand_entry_defined data entry :
  collection (pluralize (fst entry)) data <> None ->
  exists resolved, expand_entry data entry = Ret resolved.
Proof.
  intros H. destruct entry as [type_ ids]. simpl in H. unfold expand_entry.
  assert (Hone : forall id_, exists resolved,
             obind (find_entity data type_ id_) (fun found => Ret (type_, found))
             = Ret resolved).
  { intros id_. destruct (find_entity_defined data type_ id_ H) as [v ->].
    simpl. eauto. }
  destruct ids; try apply Hone.
  destruct (omap_list_defined (find_entity data type_) l) as [found ->].
  - apply Forall_forall. intros id_ _. now apply find_entity_defined.
  - simpl. eauto.
Qed.

Lemma relationship_entries_references datum entries :
  relationship_entries datum = Ret entries <-> references datum entries.
Proof.
  unfold relationship_entries, references.
  destruct (get datum ["_relationships"]) as [| | | |l|d] eqn:Hrels; simpl.
  - split; [intros H; inversion H; now right | intros [?|[_ ->]]; [discriminate|reflexivity]].
  - destruct b; split; try discriminate.
    + intros [?|[? _]]; discriminate.
    + intros H; inversion H; now right.
    + intros [?|[_ ->]]; [discriminate|reflexivity].
  - destruct (n =? 0)%Z; simpl; split; try discriminate.
    + intros H; inversion H; now right.
    + intros [?|[_ ->]]; [discriminate|reflexivity].
    + intros [?|[? _]]; discriminate.
  - destruct (String.eqb s ""); simpl; split; try discriminate.
    + intros H; inversion H; now right.
    + intros [?|[_ ->]]; [discriminate|reflexivity].
    + intros [?|[? _]]; discriminate.
  - destruct l; split; try discriminate.
    + intros H; inversion H; now right.
    + intros [?|[_ ->]]; [discriminate|reflexivity].
    + intros [?|[? _]]; discriminate.
  - destruct d as [|entry d]; split.
    + intros H; inversion H; now left.
    + intros [H|[_ ->]]; [now inversion H | reflexivity].
    + intros H; inversion H; now left.
    + intros [H|[? _]]; [now inversion H | discriminate].
Qed.

(** What the code asks of a record is what [well_formed] says. *)
Lemma expandable_well_formed data datum :
  expandable data datum -> well_formed data datum.
Proof.
  intros (Hname & entries & Hentries & Htargets). split; [assumption|].
  exists entries. split; [now apply relationship_entries_references|].
  eapply Forall_impl; [exact Htargets|]. intros entry Hdefined.
  exists (pluralize (fst entry)). split; [now apply plural_pluralize | assumption].
Qed.

Lemma expand_datum_expanded data0 data datum datum' :
  same_graph data0 data ->
  expand_datum data datum = Ret datum' ->
  expanded data0 datum datum'.
Proof.
  intros Hsame Hrun. unfold expand_datum in Hrun.
  destruct (relationship_entries datum) as [entries| |] eqn:Hentries;
    simpl in Hrun; try discriminate.
  destruct (omap_list (expand_entry data) entries) as [relationships| |] eqn:Hrel;
    simpl in Hrun; try discriminate.
  destruct (generate_migration_id_of (get datum ["name"])) as [mid| |];
    simpl in Hrun; try discriminate.
  inversion Hrun; subst datum'. split.
  - exists entries, relationships.
    split; [now apply relationship_entries_references|].
    split; [now rewrite get_key, dict_get_set_eq|].
    apply omap_list_Forall2 in Hrel. eapply Forall2_impl; [exact Hrel|].
    intros entry resolved. now apply expand_entry_resolved.
  - intros k Hk1 Hk2. now rewrite !dict_get_set_ne by congruence.
Qed.

Lemma expand_datum_defined data0 data datum :
  map fst data = map fst data0 ->
  well_formed data0 datum ->
  exists datum', expand_datum data datum = Ret datum'.
Proof.
  intros Hkeys ([name Hname] & entries & Hentries & Htargets).
  apply relationship_entries_references in Hentries.
  unfold expand_datum. rewrite Hentries. simpl.
  destruct (omap_list_defined (expand_entry data) entries) as [relationships Hrel].
  { eapply Forall_impl; [exact Htargets|]. intros entry (target & Hplural & Hdefined).
    apply expand_entry_defined. apply plural_pluralize in Hplural. subst target.
    apply collection_keys. rewrite Hkeys. now apply collection_keys. }
  rewrite Hrel, Hname. simpl. eauto.
Qed.

Lemma expand_from_spec data0 entity_type l0 :
  collection entity_type data0 = Some l0 ->
  forall remaining i data l,
    same_graph data0 data ->
    map fst data = map fst data0 ->
    collection entity_type data = Some l ->
    i + remaining = length l ->
    (forall j, i <= j -> l !! j = l0 !! j) ->
    (forall data',
       expand_from remaining i entity_type data = Ret data' ->
       exists l',
         same_graph data0 data'
         /\ map fst data' = map fst data0
         /\ (forall name, name <> entity_type -> collection name data' = collection name data)
         /\ collection entity_type data' = Some l'
         /\ length l' = length l
         /\ (forall j, j < i -> l' !! j = l !! j)
         /\ (forall j r0, i <= j -> l0 !! j = Some r0 ->
               exists r', l' !! j = Some r' /\ expanded data0 r0 r'))
    /\ (Forall (well_formed data0) l0 ->
        exists data', expand_from remaining i entity_type data = Ret data').
Proof.
  intros Hc0. induction remaining as [|remaining IH];
    intros i data l Hsame Hkeys Hc Hlen Htail.
  - split; [|simpl; eauto].
    intros data' Hrun. inversion Hrun; subst data'. exists l.
    repeat split; auto.
    intros j r0 Hj Hr0. rewrite <- Htail in Hr0 by assumption.
    apply lookup_lt_Some in Hr0. lia.
  - simpl. rewrite Hc.
    destruct (lookup_lt_is_Some_2 l i ltac:(lia)) as [datum Hdatum].
    rewrite Hdatum.
    assert (Hdatum0 : l0 !! i = Some datum) by (rewrite <- Htail; auto).
    destruct (expand_datum data datum) as [datum'| |] eqn:Hd'; simpl.
    2,3: (split; [discriminate|]; intros Hall;
          destruct (expand_datum_defined data0 data datum Hkeys) as [datum' Hdefined];
          [eapply Forall_lookup_1; eassumption | congruence]).
    pose proof (expand_datum_expanded data0 data datum datum' Hsame Hd') as Hexpanded.
    set (l1 := <[i := datum']> l).
    set (data1 := set_collection entity_type l1 data).
    assert (Hc1 : collection entity_type data1 = Some l1).
    { apply collection_set_eq. congruence. }
    assert (Hsame1 : same_graph data0 data1).
    { intros name. destruct (String.eqb_spec entity_type name) as [<-|Hne].
      - rewrite Hc0, Hc1. specialize (Hsame entity_type). rewrite Hc0, Hc in Hsame.
        rewrite <- (list_insert_id l0 i datum Hdatum0). subst l1.
        apply Forall2_insert; [assumption|]. apply Hexpanded.
      - subst data1. rewrite collection_set_ne by assumption. apply Hsame. }
    destruct (IH (S i) data1 l1 Hsame1) as [IHa IHb].
    { subst data1. now rewrite keys_set_collection. }
    { exact Hc1. }
    { subst l1. rewrite length_insert. lia. }
    { intros j Hj. subst l1. rewrite list_lookup_insert_ne by lia. apply Htail. lia. }
    split; [|exact IHb].
    intros data' Hrun.
    destruct (IHa data' Hrun) as (l' & Hsame' & Hkeys' & Hother & Hc' & Hlen' & Hbefore
                                  & Hafter).
    exists l'. split; [exact Hsame'|]. split; [exact Hkeys'|]. split.
    { intros name Hne. rewrite Hother by assumption. subst data1.
      apply collection_set_ne. congruence. }
    split; [exact Hc'|]. split.
    { rewrite Hlen'. subst l1. apply length_insert. }
    split.
    { intros j Hj. rewrite Hbefore by lia. subst l1.
      apply list_lookup_insert_ne. lia. }
    intros j r0 Hj Hr0. destruct (decide (j = i)) as [->|Hji].
    + exists datum'. split.
      * rewrite Hbefore by lia. subst l1. apply list_lookup_insert_eq. lia.
      * assert (r0 = datum) by congruence. now subst r0.
    + apply Hafter; [lia | assumption].
Qed.

Lemma expand_relationship_spec data0 data entity_type l0 :
  collection entity_type data0 = Some l0 ->
  same_graph data0 data ->
  map fst data = map fst data0 ->
  collection entity_type data = Some l0 ->
  (forall data',
     expand_relationship entity_type data = Ret data' ->
     exists l',
       same_graph data0 data'
       /\ map fst data' = map fst data0
       /\ (forall name, name <> entity_type -> collection name data' = collection name data)
       /\ collection entity_type data' = Some l'
       /\ Forall2 (expanded data0) l0 l')
  /\ (Forall (well_formed data0) l0 ->
      exists data', expand_relationship entity_type data = Ret data').
Proof.
  intros Hc0 Hsame Hkeys Hc.
  destruct (expand_from_spec data0 entity_type l0 Hc0 (length l0) 0 data l0
              Hsame Hkeys Hc eq_refl (fun _ _ => eq_refl)) as [Ha Hb].
  unfold expand_relationship. rewrite Hc. split; [|exact Hb].
  intros data' Hrun.
  destruct (Ha data' Hrun) as (l' & Hsame' & Hkeys' & Hother & Hc' & Hlen & _ & Hafter).
  exists l'. repeat (split; [assumption|]).
  apply Forall2_same_length_lookup_2; [now symmetry|].
  intros j r0 r' Hr0 Hr'.
  destruct (Hafter j r0 ltac:(lia) Hr0) as (r'' & Hr'' & Hexp). congruence.
Qed.

Lemma expand_collections_spec data0 :
  forall entity_types,
    NoDup entity_types ->
    forall data,
      same_graph data0 data ->
      map fst data = map fst data0 ->
      (forall name, In name entity_types -> collection name data = collection name data0) ->
      (forall data',
         expand_collections entity_types data = Ret data' ->
         same_graph data0 data'
         /\ map fst data' = map fst data0
         /\ (forall name, ~ In name entity_types ->
               collection name data' = collection name data)
         /\ (forall name l0, In name entity_types -> collection name data0 = Some l0 ->
               exists l', collection name data' = Some l'
                 /\ if is_context_collection name then l' = l0
                    else Forall2 (expanded data0) l0 l'))
      /\ ((forall name l0, In name entity_types -> collection name data0 = Some l0 ->
             is_context_collection name = false -> Forall (well_formed data0) l0) ->
          exists data', expand_collections entity_types data = Ret data').
Proof.
  induction entity_types as [|entity_type rest IH];
    intros Hnodup data Hsame Hkeys Hfresh.
  - split; [|simpl; eauto].
    intros data' Hrun. inversion Hrun; subst data'. repeat split; auto.
    intros name l0 [].
  - apply NoDup_cons in Hnodup as [Hnotin Hnodup]. simpl.
    destruct (is_context_collection entity_type) eqn:Hctx.
    + destruct (IH Hnodup data Hsame Hkeys) as [IHa IHb].
      { intros name Hname. apply Hfresh. now right. }
      split.
      * intros data' Hrun.
        destruct (IHa data' Hrun) as (Hsame' & Hkeys' & Hout & Hin).
        repeat (split; [assumption|]). split.
        { intros name Hname. apply Hout. intros ?. apply Hname. now right. }
        intros name l0 [<-|Hname] Hl0.
        -- exists l0. rewrite Hctx. split; [|reflexivity].
           rewrite Hout by (rewrite <- list_elem_of_In; exact Hnotin).
           rewrite Hfresh by now left. assumption.
        -- now apply Hin.
      * intros Hall. apply IHb. intros name l0 Hname. apply Hall. now right.
    + destruct (collection entity_type data0) as [l0|] eqn:Hc0.
      * destruct (expand_relationship_spec data0 data entity_type l0 Hc0 Hsame Hkeys)
          as [Hone_a Hone_b].
        { rewrite Hfresh by now left. assumption. }
        assert (Hnext : forall data1,
                   expand_relationship entity_type data = Ret data1 ->
                   exists l1,
                     same_graph data0 data1
                     /\ map fst data1 = map fst data0
                     /\ (forall name, In name rest ->
                           collection name data1 = collection name data0)
                     /\ (forall name, name <> entity_type ->
                           collection name data1 = collection name data)
                     /\ collection entity_type data1 = Some l1
                     /\ Forall2 (expanded data0) l0 l1).
        { intros data1 Hrun1.
          destruct (Hone_a data1 Hrun1) as (l1 & Hsame1 & Hkeys1 & Hother1 & Hc1 & Hexp1).
          exists l1. repeat (split; [assumption|]). split; [|auto].
          intros name Hname. rewrite Hother1.
          - apply Hfresh. now right.
          - intros ->. apply Hnotin. now apply list_elem_of_In. }
        split.
        -- intros data' Hrun.
           destruct (expand_relationship entity_type data) as [data1| |] eqn:Hrun1;
             simpl in Hrun; try discriminate.
           destruct (Hnext data1 eq_refl)
             as (l1 & Hsame1 & Hkeys1 & Hfresh1 & Hother1 & Hc1 & Hexp1).
           destruct (IH Hnodup data1 Hsame1 Hkeys1 Hfresh1) as [IHa _].
           destruct (IHa data' Hrun) as (Hsame' & Hkeys' & Hout & Hin).
           repeat (split; [assumption|]). split.
           { intros name Hname. rewrite Hout by (intros ?; apply Hname; now right).
             apply Hother1. intros ->. apply Hname. now left. }
           intros name l0' [<-|Hname] Hl0.
           ++ exists l1. rewrite Hctx. split.
              ** rewrite Hout by (rewrite <- list_elem_of_In; exact Hnotin). assumption.
              ** assert (l0' = l0) by congruence. now subst.
           ++ now apply Hin.
        -- intros Hall.
           destruct Hone_b as [data1 Hrun1]; [apply (Hall entity_type); auto; now left|].
           rewrite Hrun1. simpl.
           destruct (Hnext data1 Hrun1)
             as (l1 & Hsame1 & Hkeys1 & Hfresh1 & Hother1 & Hc1 & Hexp1).
           destruct (IH Hnodup data1 Hsame1 Hkeys1 Hfresh1) as [_ IHb].
           apply IHb. intros name l0' Hname. apply Hall. now right.
      * assert (Hnone : collection entity_type data = None)
          by (rewrite Hfresh by (now left); assumption).
        unfold expand_relationship. rewrite Hnone. simpl.
        destruct (IH Hnodup data Hsame Hkeys) as [IHa IHb].
        { intros name Hname. apply Hfresh. now right. }
        split.
        -- intros data' Hrun.
           destruct (IHa data' Hrun) as (Hsame' & Hkeys' & Hout & Hin).
           repeat (split; [assumption|]). split.
           { intros name Hname. apply Hout. intros ?. apply Hname. now right. }
           intros name l0 [<-|Hname] Hl0; [congruence | now apply Hin].
        -- intros Hall. apply IHb. intros name l0 Hname. apply Hall. now right.
Qed.

Lemma collection_In name l data : collection name data = Some l -> In (name, l) data.
Proof.
  induction data as [|[k l'] data IH]; simpl; [discriminate|].
  destruct (String.eqb_spec name k) as [->|Hk].
  - intros H. inversion H. now left.
  - intros H. right. now apply IH.
Qed.

(** C3. Whenever [_expand_relationships] returns, the records of the
    collections other than [contexts] and [context_variables] have each
    relationship reference resolved: to [None] when the pluralized
    target collection holds no record with that [_source_id], or else to
    a record of that collection that has it, inlined without its
    [_relationships]; a list of references becomes the list of their
    resolutions, in order.  The records of [contexts] and
    [context_variables] are returned as they are.  The expander does
    return when, outside those two collections, every record has a
    string for name and every type referred to has its collection. *)
Theorem relationships_are_resolved (data : dataset) :
  NoDup (map fst data) ->
  (forall data',
     _expand_relationships data = Ret data' ->
     map fst data' = map fst data
     /\ forall name entities,
          collection name data = Some entities ->
          exists entities',
            collection name data' = Some entities'
            /\ (passed_over name -> entities' = entities)
            /\ (~ passed_over name -> Forall2 (expanded data) entities entities'))
  /\ ((forall name entities,
         collection name data = Some entities -> ~ passed_over name ->
         Forall (well_formed data) entities) ->
      exists data', _expand_relationships data = Ret data').
Proof.
  intros Hnodup.
  destruct (expand_collections_spec data (map fst data) Hnodup data)
    as [Ha Hb]; [apply same_graph_refl | reflexivity | reflexivity |].
  split.
  - intros data' Hrun. destruct (Ha data' Hrun) as (_ & Hkeys & _ & Hin).
    split; [exact Hkeys|]. intros name entities Hc.
    destruct (Hin name entities) as (entities' & Hc' & Hcases);
      [apply collection_keys; congruence | assumption |].
    exists entities'. split; [exact Hc'|].
    destruct (is_context_collection name) eqn:Hctx.
    + split; [now intros _|]. intros Hnot. apply is_context_collection_spec in Hctx.
      contradiction.
    + split; [|now intros _]. intros Hpassed.
      apply is_context_collection_spec in Hpassed. congruence.
  - intros Hall. apply Hb. intros name l0 _ Hl0 Hctx. apply (Hall name l0 Hl0).
    intros Hpassed. apply is_context_collection_spec in Hpassed. congruence.
Qed.

End Expander.

End ExpanderFacts.

Module ExpanderWitnesses.

Import Mapper ExpanderSpec Examples MoreExamples.

#[local] Existing Instance example_libs.

#[local] Ltac refers_to name :=
  exists name; split; [apply ExpanderFacts.plural_pluralize; reflexivity | discriminate].

Lemma mapped_graph_well_formed name entities :
  collection name mapped_graph = Some entities ->
  ~ passed_over name ->
  Forall (well_formed mapped_graph) entities.
Proof.
  intros Hc Hnot. cbn in Hc.
  repeat match type of Hc with
         | (if String.eqb name ?k then _ else _) = _ =>
             destruct (String.eqb_spec name k) as [->|_]
         end;
    try discriminate; inversion Hc; subst entities.
  - repeat constructor. exists "Acme". reflexivity.
    exists []. split; [right; split; reflexivity | constructor].
  - constructor.
  - repeat constructor. exists "network". reflexivity.
    eexists. split; [left; reflexivity|].
    repeat constructor. refers_to "spaces".
  - repeat constructor. exists "REGION". reflexivity.
    eexists. split; [left; reflexivity|].
    repeat constructor; [refers_to "spaces" | refers_to "stacks"].
Defined.

Lemma relationships_are_resolved_witness :
  exists data' stacks',
    _expand_relationships mapped_graph = Ret data'
    /\ map fst data' = ["spaces"; "contexts"; "stacks"; "stack_variables"]
    /\ collection "stacks" data' = Some stacks'
    /\ Forall2 (expanded mapped_graph)
         [ [ ("_relationships", VDict [("space", VStr "org-1")]);
             ("_source_id", VStr "ws-1"); ("name", VStr "network") ] ]
         stacks'.
Proof.
  destruct (ExpanderFacts.relationships_are_resolved mapped_graph) as [Hpost Hreturns].
  - apply (bool_decide_unpack _). vm_compute. exact I.
  - destruct (Hreturns mapped_graph_well_formed) as [data' Hrun].
    destruct (Hpost data' Hrun) as [Hkeys Hall].
    destruct (Hall "stacks" _ eq_refl) as (stacks' & Hstacks & _ & Hexpanded).
    exists data', stacks'. split; [exact Hrun|]. split; [exact Hkeys|].
    split; [exact Hstacks|]. apply Hexpanded. intros [?|?]; discriminate.
Defined.

(** The records of [contexts] come out of the expander as the mapper
    made them, with relationships that are neither [None] nor records
    with a [_source_id]; and a reference whose type has no collection
    in the graph makes the lookup iterate over [None]. *)
Lemma expander_leaves_references_unresolved :
  _map_contexts_data local_data = Ret [mapped_context]
  /\ (exists data',
        _expand_relationships context_graph = Ret data'
        /\ collection "contexts" context_graph = Some [mapped_context]
        /\ collection "contexts" data' = Some [mapped_context]
        /\ ~ expanded context_graph mapped_context mapped_context)
  /\ _expand_relationships missing_collection_graph = Raise TypeError.
Proof.
  split; [reflexivity|]. split; [|reflexivity].
  eexists. split; [reflexivity|]. split; [reflexivity|]. split; [reflexivity|].
  intros [(entries & relationships & Href & Hget & Hall) _].
  destruct Href as [Href|[Href _]]; [|discriminate Href].
  vm_compute in Href, Hget. inversion Href; subst entries.
  inversion Hget; subst relationships.
  inversion Hall as [|entry resolved entries relationships [_ Hspace] _]; subst.
  simpl in Hspace.
  destruct Hspace as (name & entities & _ & _ & [[Hnone _]|Hfound]);
    [discriminate Hnone|].
  destruct Hfound as (entity & inlined & _ & _ & Hinlined & Hid & _).
  inversion Hinlined; subst inlined. vm_compute in Hid. discriminate Hid.
Qed.

Example mapped_graph_expanded :
  _expand_relationships mapped_graph
  = Ret [ ("spaces",
            [ [ ("_source_id", VStr "org-1"); ("name", VStr "Acme");
                ("_migration_id", VStr "acme"); ("_relationships", VDict []) ] ]);
          ("contexts", []);
          ("stacks",
            [ [ ("_relationships",
                  VDict [("space",
                           VDict [ ("_source_id", VStr "org-1"); ("name", VStr "Acme");
                                   ("_migration_id", VStr "acme") ])]);
                ("_source_id", VStr "ws-1"); ("name", VStr "network");
                ("_migration_id", VStr "network") ] ]);
          ("stack_variables",
            [ [ ("_relationships",
                  VDict [ ("space", VNone);
                          ("stack",
                            VList [ VDict [ ("_source_id", VStr "ws-1");
                                            ("name", VStr "network");
                                            ("_migration_id", VStr "network") ];
                                    VNone ]) ]);
                ("_source_id", VStr "var-1"); ("name", VStr "REGION");
                ("_migration_id", VStr "region") ] ]) ].
Proof. reflexivity. Qed.

End ExpanderWitnesses.

(** ** The enrichment saga *)

Module SagaFacts.

Import Mapper Saga SagaSpec.

Lemma count_app p h1 h2 : count p (h1 ++ h2) = count p h1 + count p h2.
Proof. induction h1 as [|x h1 IH]; simpl; [reflexivity | rewrite IH; lia]. Qed.

Lemma neutral_nil : neutral [].
Proof. intros w. split; reflexivity. Qed.

Lemma neutral_app h1 h2 : neutral h1 -> neutral h2 -> neutral (h1 ++ h2).
Proof.
  intros H1 H2 w. unfold restores, mutations. rewrite !count_app.
  destruct (H1 w), (H2 w). unfold restores, mutations in *. lia.
Qed.

Lemma append_trace_twice new1 new2 st :
  with_world (append_trace new2) (with_world (append_trace new1) st)
  = with_world (append_trace (new1 ++ new2)) st.
Proof.
  unfold with_world, append_trace. simpl. now rewrite app_assoc.
Qed.

Lemma ofold_not_diverge {A B} (f : A -> B -> outcome A) l a :
  (forall a b, f a b <> Diverge) -> Saga.ofold f l a <> Diverge.
Proof.
  intros Hf. revert a. induction l as [|b l IH]; intros a; simpl; [discriminate|].
  specialize (Hf a b). destruct (f a b); simpl; [apply IH | discriminate | congruence].
Qed.

Lemma update_entity_not_diverge name id_ missing f data :
  missing <> Diverge -> update_entity name id_ missing f data <> Diverge.
Proof.
  intros Hm. unfold update_entity, iterate.
  destruct (collection name data); simpl; [|discriminate].
  destruct (index_by_id _ _ _); [|assumption].
  destruct (_ !! _); [discriminate | assumption].
Qed.

Lemma scan_log_not_diverge workspace_id workspace_variables logs_data data :
  scan_log workspace_id workspace_variables logs_data data <> Diverge.
Proof.
  unfold scan_log. apply ofold_not_diverge. intros data' line.
  apply ofold_not_diverge. intros data'' [variable_id variable_name].
  unfold scan_variable.
  destruct (if Str.starts_with _ line then _ else _) as [d| |] eqn:Hfirst; simpl.
  - destruct (Str.starts_with branch_marker line); [|discriminate].
    apply update_entity_not_diverge. discriminate.
  - discriminate.
  - destruct (Str.starts_with (variable_name +:+ "=") line); [|discriminate].
    exfalso. revert Hfirst. apply update_entity_not_diverge. discriminate.
Qed.

Section Saga.

Variable E : env.

Lemma external_ok c effect st :
  fault E (trace (st_world st)) c = None ->
  external E c effect st
  = (with_world (fun w => append_trace [(c, true)] (effect w)) st, Ret tt).
Proof. intros H. unfold external. cbv zeta. now rewrite H. Qed.

(** A failing call that has no effect when it is carried out. *)
Lemma external_fail c st e :
  fault E (trace (st_world st)) c = Some e ->
  external E c id st = (with_world (append_trace [(c, false)]) st, Raise e).
Proof.
  intros H. unfold external. cbv zeta. rewrite H.
  now destruct (applied E (trace (st_world st)) c).
Qed.

(** A failing call that was not carried out, and one that was. *)
Lemma external_fail_clean c effect st e :
  fault E (trace (st_world st)) c = Some e ->
  applied E (trace (st_world st)) c = false ->
  external E c effect st = (with_world (append_trace [(c, false)]) st, Raise e).
Proof. intros H Ha. unfold external. cbv zeta. now rewrite H, Ha. Qed.

Lemma external_fail_applied c effect st e :
  fault E (trace (st_world st)) c = Some e ->
  applied E (trace (st_world st)) c = true ->
  external E c effect st
  = (with_world (fun w => append_trace [(c, false)] (effect w)) st, Raise e).
Proof. intros H Ha. unfold external. cbv zeta. now rewrite H, Ha. Qed.

(** When no container exits by itself, the runtime answers as the
    other calls do. *)
Lemma settle_stays_up w : agent_stays_up E -> settle E w = w.
Proof.
  intros Hup. destruct w as [ws pools cs h]. unfold settle, set_containers. simpl.
  f_equal. apply set_eq. intros name. rewrite elem_of_filter. split; [tauto|].
  intros Hin. split; [apply Hup | assumption].
Qed.

Lemma runtime_stays_up c effect st :
  agent_stays_up E -> runtime E c effect st = external E c effect st.
Proof.
  intros Hup. unfold runtime. f_equal. destruct st as [w d l]. unfold with_world. simpl.
  now rewrite settle_stays_up.
Qed.

Lemma on_container_stays_up container_name c effect st :
  agent_stays_up E ->
  container_name ∈ containers (st_world st) ->
  on_container E container_name c effect st = external E c effect st.
Proof.
  intros Hup Hin. unfold on_container. cbv zeta.
  replace (with_world (settle E) st) with st
    by (destruct st as [w d l]; unfold with_world; simpl; now rewrite settle_stays_up).
  now rewrite bool_decide_eq_true_2.
Qed.

Lemma no_fault_outside_steps h c :
  faults_within_steps E -> step_call c = false -> fault E h c = None.
Proof.
  intros HF Hc. destruct (fault E h c) eqn:Hf; [|reflexivity].
  assert (step_call c = true) by (apply (HF h c); congruence). congruence.
Qed.

(** [_get_plan] only polls, and returns when the plan is over in time. *)
Lemma get_plan_polls fuel id_ :
  forall attempt st,
  exists new r,
    _get_plan E fuel id_ attempt st = (with_world (append_trace new) st, r)
    /\ neutral new
    /\ ((exists n, attempt <= n < attempt + fuel
                   /\ plan_is_over (fst (plan_status E id_ n)) = true) ->
        r <> Diverge).
Proof.
  induction fuel as [|fuel IH]; intros attempt st.
  - exists [], Diverge. simpl. unfold diverge, with_world, append_trace. simpl.
    rewrite app_nil_r. split; [now destruct st as [[] ? ?]|].
    split; [apply neutral_nil|]. intros (n & Hn & _). lia.
  - simpl. unfold bind.
    destruct (fault E (trace (st_world st)) (CPoll id_)) as [e|] eqn:Hfault.
    + rewrite (external_fail _ _ _ Hfault).
      exists [(CPoll id_, false)], (Raise e). split; [reflexivity|].
      split; [intros w; split; reflexivity | discriminate].
    + rewrite (external_ok _ _ _ Hfault).
      destruct (plan_status E id_ attempt) as [status log_read_url] eqn:Hstatus.
      destruct (String.eqb status "errored" || String.eqb status "finished") eqn:Hdone.
      { exists [(CPoll id_, true)], (Ret log_read_url). split; [reflexivity|].
        split; [intros w; split; reflexivity | discriminate]. }
      destruct (String.eqb status "canceled" || String.eqb status "unreachable") eqn:Hgone.
      { exists [(CPoll id_, true)], (Ret VNone). split; [reflexivity|].
        split; [intros w; split; reflexivity | discriminate]. }
      destruct (IH (S attempt)
                  (with_world (fun w => append_trace [(CPoll id_, true)] (id w)) st))
        as (new & r & Hrun & Hneutral & Hover).
      exists ((CPoll id_, true) :: new), r. split.
      { rewrite Hrun. f_equal.
        apply (append_trace_twice [(CPoll id_, true)] new st). }
      split.
      { apply (neutral_app [(CPoll id_, true)] new); [|assumption].
        intros w; split; reflexivity. }
      intros (n & Hn & Hn_over). apply Hover.
      destruct (decide (n = attempt)) as [->|Hne].
      * rewrite Hstatus in Hn_over. unfold plan_is_over in Hn_over. simpl in Hn_over.
        rewrite <- orb_assoc, Hdone, Hgone in Hn_over. discriminate.
      * exists n. split; [lia | assumption].
Qed.

Lemma neutral_one c ok :
  (forall w, is_restore_of w (c, ok) = false) ->
  (forall w, is_mutation_of w (c, ok) = false) ->
  neutral [(c, ok)].
Proof.
  intros Hr Hm w. unfold restores, mutations. cbn [count]. now rewrite Hr, Hm.
Qed.

Lemma neutral_cons c ok new :
  (forall w, is_restore_of w (c, ok) = false) ->
  (forall w, is_mutation_of w (c, ok) = false) ->
  neutral new -> neutral ((c, ok) :: new).
Proof.
  intros Hr Hm Hnew. apply (neutral_app [(c, ok)] new); [|assumption].
  now apply neutral_one.
Qed.

(** What follows the mutation either restores the workspace from the
    backup, or raises without touching the workspaces. *)
Lemma plan_and_restore_post fuel organization_id workspace_id workspace_variables
    backup st st' r :
  faults_within_steps E ->
  plans_end_within E fuel ->
  plan_and_restore E fuel organization_id workspace_id workspace_variables backup st
  = (st', r) ->
  exists new,
    r <> Diverge
    /\ infrastructure_kept st st'
    /\ current_workspace_id (st_locals st') = current_workspace_id (st_locals st)
    /\ workspace_data_backup (st_locals st') = workspace_data_backup (st_locals st)
    /\ trace (st_world st') = trace (st_world st) ++ new
    /\ ((r = Ret tt
         /\ restored_agent (st_locals st') = true
         /\ workspaces (st_world st')
            = alter (fun _ => backup) workspace_id (workspaces (st_world st))
         /\ forall w,
              restores w new = (if String.eqb workspace_id w then 1 else 0)
              /\ mutations w new = 0)
        \/ ((exists e, r = Raise e)
            /\ restored_agent (st_locals st') = restored_agent (st_locals st)
            /\ workspaces (st_world st') = workspaces (st_world st)
            /\ neutral new)).
Proof.
  intros Hfaults Hplans Hrun. unfold plan_and_restore, bind in Hrun.
  destruct (fault E (trace (st_world st)) (CTrigger workspace_id)) as [e|] eqn:Htrigger.
  { rewrite (external_fail _ _ _ Htrigger) in Hrun. injection Hrun as <- <-.
    exists [(CTrigger workspace_id, false)]. split; [discriminate|].
    split; [repeat split|]. repeat (split; [reflexivity|]).
    right. split; [eauto|]. repeat (split; [reflexivity|]).
    now apply neutral_one. }
  rewrite (external_ok _ _ _ Htrigger) in Hrun.
  destruct (run_of E workspace_id) as [[run_id plan_id]|].
  2:{ injection Hrun as <- <-.
      exists [(CTrigger workspace_id, true)]. split; [discriminate|].
      split; [repeat split|]. repeat (split; [reflexivity|]).
      right. split; [eauto|]. repeat (split; [reflexivity|]).
      now apply neutral_one. }
  match type of Hrun with
  | context [_get_plan E fuel plan_id 0 ?s] =>
      destruct (get_plan_polls fuel plan_id 0 s) as (polls & r2 & Hplan & Hpolls & Hover)
  end.
  rewrite Hplan in Hrun.
  assert (Hr2 : r2 <> Diverge).
  { apply Hover. destruct (Hplans plan_id) as (n & Hn & Hn_over).
    exists n. split; [lia | assumption]. }
  destruct r2 as [log_read_url|e|]; [| |congruence].
  2:{ injection Hrun as <- <-.
      exists ((CTrigger workspace_id, true) :: polls). split; [discriminate|].
      split; [repeat split|]. repeat (split; [reflexivity|]).
      split; [simpl; now rewrite <- app_assoc|].
      right. split; [eauto|]. repeat (split; [reflexivity|]).
      now apply neutral_cons. }
  assert (Hrestore : forall h, fault E h (CRestore InBody workspace_id) = None)
    by (intros h; now apply no_fault_outside_steps).
  destruct (truthy log_read_url).
  - unfold recover_values, bind in Hrun.
    match type of Hrun with
    | context [external E (CReadLog run_id) id ?s] =>
        destruct (fault E (trace (st_world s)) (CReadLog run_id)) as [e|] eqn:Hread;
        [rewrite (external_fail _ _ _ Hread) in Hrun
        |rewrite (external_ok _ _ _ Hread) in Hrun]
    end.
    { injection Hrun as <- <-.
      exists ((CTrigger workspace_id, true) :: polls ++ [(CReadLog run_id, false)]).
      split; [discriminate|].
      split; [repeat split|]. repeat (split; [reflexivity|]).
      split; [simpl; now rewrite <- !app_assoc|].
      right. split; [eauto|]. repeat (split; [reflexivity|]).
      apply neutral_cons; try reflexivity.
      apply neutral_app; [assumption | now apply neutral_one]. }
    match type of Hrun with
    | context [scan_log ?a ?b ?c ?d] =>
        pose proof (scan_log_not_diverge a b c d) as Hscan;
        destruct (scan_log a b c d) as [data'|e|]; [| |congruence]
    end.
    2:{ injection Hrun as <- <-.
        exists ((CTrigger workspace_id, true) :: polls ++ [(CReadLog run_id, true)]).
        split; [discriminate|].
        split; [repeat split|]. repeat (split; [reflexivity|]).
        split; [simpl; now rewrite <- !app_assoc|].
        right. split; [eauto|]. repeat (split; [reflexivity|]).
        apply neutral_cons; try reflexivity.
        apply neutral_app; [assumption | now apply neutral_one]. }
    unfold _restore_workspace_exec_mode in Hrun.
    rewrite external_ok in Hrun by apply Hrestore.
    injection Hrun as <- <-.
    exists ((CTrigger workspace_id, true)
              :: polls ++ [(CReadLog run_id, true); (CRestore InBody workspace_id, true)]).
    split; [discriminate|].
    split; [repeat split|]. repeat (split; [reflexivity|]).
    split; [simpl; now rewrite <- !app_assoc|].
    left. repeat (split; [reflexivity|]).
    intros w. unfold restores, mutations. simpl. rewrite !count_app.
    destruct (Hpolls w) as [Hp1 Hp2]. unfold restores, mutations in Hp1, Hp2.
    rewrite Hp1, Hp2. simpl. split; lia.
  - unfold _restore_workspace_exec_mode, ret in Hrun.
    rewrite external_ok in Hrun by apply Hrestore.
    injection Hrun as <- <-.
    exists ((CTrigger workspace_id, true)
              :: polls ++ [(CRestore InBody workspace_id, true)]).
    split; [discriminate|].
    split; [repeat split|]. repeat (split; [reflexivity|]).
    split; [simpl; now rewrite <- !app_assoc|].
    left. repeat (split; [reflexivity|]).
    intros w. unfold restores, mutations. simpl. rewrite !count_app.
    destruct (Hpolls w) as [Hp1 Hp2]. unfold restores, mutations in Hp1, Hp2.
    rewrite Hp1, Hp2. simpl. split; lia.
Qed.

Lemma alter_restore (m : gmap string exec_settings) w backup changed :
  m !! w = Some backup ->
  alter (fun _ => backup) w (alter (fun _ => changed) w m) = m.
Proof.
  intros Hw. apply map_eq. intros k. destruct (decide (w = k)) as [<-|Hne].
  - rewrite !lookup_alter_eq, Hw. reflexivity.
  - now rewrite !lookup_alter_ne.
Qed.

Lemma settled_here st st' new :
  restored_agent (st_locals st') = true ->
  workspaces (st_world st') = workspaces (st_world st) ->
  trace (st_world st') = trace (st_world st) ++ new ->
  neutral new ->
  settled st st'.
Proof.
  intros Hr Hw Ht Hn. split; [assumption|]. split; [assumption|].
  exists new. split; [assumption|]. intros w. destruct (Hn w). lia.
Qed.

(** One workspace of the loop: when the step ends, either every mutation
    is restored, or it raised with the mutation of this workspace
    pending. *)
Lemma enrich_workspace_post fuel organization_id workspace st st' r :
  faults_within_steps E ->
  repoint_fails_cleanly E ->
  plans_end_within E fuel ->
  restored_agent (st_locals st) = true ->
  enrich_workspace E fuel organization_id workspace st = (st', r) ->
  loop_post st st' r.
Proof.
  intros Hfaults Hclean Hplans Hrestored Hrun.
  destruct workspace as [workspace_id workspace_variables].
  unfold enrich_workspace, bind, assign, find_workspace in Hrun. simpl in Hrun.
  destruct (iterate "workspaces" (st_data st)) as [l|e|] eqn:Hl; simpl in Hrun.
  2:{ injection Hrun as <- <-. split; [discriminate|]. split; [repeat split|].
      left. apply (settled_here _ _ []); simpl; auto using app_nil_r, neutral_nil.
      now rewrite app_nil_r. }
  2:{ unfold iterate in Hl. destruct (collection _ _); discriminate. }
  destruct (find_by_id l (VStr workspace_id)) as [w|].
  2:{ injection Hrun as <- <-. split; [discriminate|]. split; [repeat split|].
      left. apply (settled_here _ _ []); simpl; auto using neutral_nil.
      now rewrite app_nil_r. }
  destruct (is_none _).
  { injection Hrun as <- <-. split; [discriminate|]. split; [repeat split|].
    left. apply (settled_here _ _ []); simpl; auto using neutral_nil.
    now rewrite app_nil_r. }
  unfold backup_and_repoint, backup_workspace, repoint_workspace, bind, assign, read, ret
    in Hrun.
  match type of Hrun with
  | context [external E (CBackup workspace_id) id ?s] =>
      destruct (fault E (trace (st_world s)) (CBackup workspace_id)) as [e|] eqn:Hbackup;
      [rewrite (external_fail _ _ _ Hbackup) in Hrun
      |rewrite (external_ok _ _ _ Hbackup) in Hrun]
  end.
  { injection Hrun as <- <-. split; [discriminate|]. split; [repeat split|].
    left. apply (settled_here _ _ [(CBackup workspace_id, false)]); simpl; auto.
    now apply neutral_one. }
  simpl in Hrun.
  destruct (workspaces (st_world st) !! workspace_id) as [backup|] eqn:Hcurrent.
  2:{ injection Hrun as <- <-. split; [discriminate|]. split; [repeat split|].
      left. apply (settled_here _ _ [(CBackup workspace_id, true)]); simpl; auto.
      now apply neutral_one. }
  match type of Hrun with
  | context [external E (CRepoint workspace_id) ?eff ?s] =>
      destruct (fault E (trace (st_world s)) (CRepoint workspace_id)) as [e|] eqn:Hrepoint;
      [rewrite (external_fail_clean _ _ _ _ Hrepoint (Hclean _ _)) in Hrun
      |rewrite (external_ok _ _ _ Hrepoint) in Hrun]
  end.
  { injection Hrun as <- <-. split; [discriminate|]. split; [repeat split|].
    left. apply (settled_here _ _ [(CBackup workspace_id, true);
                                   (CRepoint workspace_id, false)]); simpl; auto.
    - now rewrite <- app_assoc.
    - apply neutral_cons; try reflexivity. now apply neutral_one. }
  match type of Hrun with
  | plan_and_restore _ _ _ _ _ _ ?s = _ =>
      destruct (plan_and_restore_post _ _ _ _ _ s _ _ Hfaults Hplans Hrun)
        as (new & Hr & (Hi1 & Hi2 & Hi3 & Hi4) & Hcur & Hbak & Htrace & Hcases)
  end.
  simpl in Hi1, Hi2, Hi3, Hi4, Hcur, Hbak, Htrace.
  split; [assumption|]. split; [repeat split; assumption|].
  destruct Hcases as [(-> & Hres & Hws & Hcount) | ([e ->] & Hres & Hws & Hneutral)].
  - left. split; [assumption|]. simpl in Hws. split.
    { rewrite Hws. now apply alter_restore. }
    exists ((CBackup workspace_id, true) :: (CRepoint workspace_id, true) :: new).
    split; [rewrite Htrace, <- !app_assoc; reflexivity|].
    intros k. destruct (Hcount k) as [Hc1 Hc2]. unfold restores, mutations in *.
    cbn [count is_restore_of is_mutation_of]. rewrite Hc1, Hc2. lia.
  - right. split; [|eauto]. split; [now rewrite Hres|].
    exists workspace_id, backup,
      (agent_settings (default "" (agent_pool_id (st_locals st)))),
      ((CBackup workspace_id, true) :: (CRepoint workspace_id, true) :: new).
    split; [assumption|]. split; [assumption|]. split; [assumption|].
    split; [now rewrite Hws|].
    split; [rewrite Htrace, <- !app_assoc; reflexivity|].
    intros k. destruct (Hneutral k) as [Hc1 Hc2]. unfold restores, mutations in *.
    cbn [count is_restore_of is_mutation_of]. rewrite Hc1, Hc2. lia.
Qed.

Lemma loop_post_settled_then st s1 st' r :
  infrastructure_kept st s1 ->
  settled st s1 ->
  loop_post s1 st' r ->
  loop_post st st' r.
Proof.
  intros (Ha1 & Ha2 & Ha3 & Ha4) (_ & Hw1 & new1 & Ht1 & Hc1)
         (Hr & (Hb1 & Hb2 & Hb3 & Hb4) & Hcases).
  split; [assumption|]. split; [repeat split; congruence|].
  destruct Hcases as [(Hres & Hw2 & new2 & Ht2 & Hc2)
                     |((Hres & w & backup & changed & new2 & Hcur & Hbak & Hlook & Hw2
                        & Ht2 & Hc2) & He)].
  - left. split; [assumption|]. split; [congruence|].
    exists (new1 ++ new2). split; [rewrite Ht2, Ht1; now rewrite app_assoc|].
    intros k. unfold restores, mutations in *. rewrite !count_app.
    specialize (Hc1 k). specialize (Hc2 k). lia.
  - right. split; [|assumption]. split; [assumption|].
    exists w, backup, changed, (new1 ++ new2).
    split; [assumption|]. split; [assumption|]. split; [congruence|].
    split; [congruence|]. split; [rewrite Ht2, Ht1; now rewrite app_assoc|].
    intros k. unfold restores, mutations in *. rewrite !count_app.
    specialize (Hc1 k). specialize (Hc2 k). lia.
Qed.

Lemma enrich_workspaces_post fuel organization_id workspaces st st' r :
  faults_within_steps E ->
  repoint_fails_cleanly E ->
  plans_end_within E fuel ->
  restored_agent (st_locals st) = true ->
  enrich_workspaces E fuel organization_id workspaces st = (st', r) ->
  loop_post st st' r.
Proof.
  intros Hfaults Hclean Hplans. revert st.
  induction workspaces as [|workspace rest IH]; intros st Hrestored Hrun; simpl in Hrun.
  - injection Hrun as <- <-. split; [discriminate|]. split; [repeat split|].
    left. apply (settled_here _ _ []); auto using neutral_nil. now rewrite app_nil_r.
  - unfold bind in Hrun.
    destruct (enrich_workspace E fuel organization_id workspace st) as [s1 r1] eqn:Hone.
    pose proof (enrich_workspace_post _ _ _ _ _ _ Hfaults Hclean Hplans Hrestored Hone)
      as Hpost.
    destruct r1 as [[]|e|].
    + destruct Hpost as (_ & Hinfra & [Hsettled|[_ [e He]]]); [|discriminate].
      eapply loop_post_settled_then; [eassumption | eassumption |].
      apply IH; [apply Hsettled | assumption].
    + now injection Hrun as <- <-.
    + now destruct Hpost as [Hne _].
Qed.

(** The agent that was started and keeps running is seen at the first
    listing. *)
Lemma verify_started_ok remaining container_name st :
  agent_stays_up E ->
  fault E (trace (st_world st)) CDockerPs = None ->
  container_name ∈ containers (st_world st) ->
  verify_started E (S remaining) 0 container_name st
  = (with_world (append_trace [(CDockerPs, true)]) st, Ret tt).
Proof.
  intros Hup Hps Hin. cbn [verify_started]. unfold bind, read.
  rewrite runtime_stays_up, external_ok by assumption.
  cbn [st_world with_world append_trace containers id].
  now rewrite bool_decide_eq_true_2.
Qed.

(** The [try] suite, when faults stay within the steps of the
    per-workspace saga, a repoint that fails was not carried out and
    the agent keeps running: the pool and the container exist and their
    variables are set, and the loop's guarantee holds from the state the
    organization started in. *)
Lemma saga_body_post fuel organization_id wss st st' r :
  faults_within_steps E ->
  repoint_fails_cleanly E ->
  agent_stays_up E ->
  plans_end_within E fuel ->
  restored_agent (st_locals st) = true ->
  saga_body E fuel organization_id wss st = (st', r) ->
  r <> Diverge
  /\ agent_pool_id (st_locals st') = Some (new_pool_id E organization_id)
  /\ agent_container (st_locals st') = Some (container_name_of organization_id)
  /\ agent_pools (st_world st')
     = {[ new_pool_id E organization_id ]} ∪ agent_pools (st_world st)
  /\ containers (st_world st')
     = {[ container_name_of organization_id ]} ∪ containers (st_world st)
  /\ (settled st st' \/ pending st st').
Proof.
  intros Hfaults Hclean Hup Hplans Hrestored Hrun.
  unfold saga_body, _create_agent_pool, _start_agent_container, _create_agent_token,
    bind, assign, ret in Hrun.
  rewrite external_ok in Hrun by (now apply no_fault_outside_steps).
  rewrite external_ok in Hrun by (now apply no_fault_outside_steps).
  rewrite runtime_stays_up, external_ok in Hrun
    by (assumption || now apply no_fault_outside_steps).
  rewrite verify_started_ok in Hrun;
    [| assumption | now apply no_fault_outside_steps
     | simpl; apply elem_of_union; left; now apply elem_of_singleton].
  match type of Hrun with
  | context [enrich_workspaces E fuel organization_id wss ?s] =>
      destruct (enrich_workspaces E fuel organization_id wss s) as [s1 r1] eqn:Hloop;
      pose proof (enrich_workspaces_post fuel organization_id wss s s1 r1
                    Hfaults Hclean Hplans Hrestored Hloop)
        as (Hr1 & (Hi1 & Hi2 & Hi3 & Hi4) & Hcases)
  end.
  simpl in Hi1, Hi2, Hi3, Hi4.
  set (setup := [(CCreatePool organization_id, true);
                 (CCreateToken (new_pool_id E organization_id), true);
                 (CDockerRun (container_name_of organization_id), true);
                 (CDockerPs, true)]).
  assert (Hsetup : neutral setup).
  { subst setup. repeat (apply neutral_cons; try reflexivity). apply neutral_nil. }
  assert (Hfrom : forall s2,
             trace (st_world s2) = trace (st_world s1) ->
             workspaces (st_world s2) = workspaces (st_world s1) ->
             st_locals s2 = st_locals s1 ->
             settled st s2 \/ pending st s2).
  { intros s2 Ht2 Hw2 Hl2.
    destruct Hcases as [(Hres & Hws & new & Htrace & Hcount)
                       |((Hres & w & backup & changed & new & Hcur & Hbak & Hlook & Hws
                          & Htrace & Hcount) & _)];
      simpl in Hws, Htrace; rewrite <- Hw2, <- Ht2, <- Hl2 in *.
    - left. split; [assumption|]. split; [assumption|].
      exists (setup ++ new). split.
      + rewrite Htrace. subst setup. now rewrite <- !app_assoc.
      + intros k. unfold restores, mutations. rewrite !count_app.
        destruct (Hsetup k) as [H1 H2]. unfold restores, mutations in H1, H2.
        specialize (Hcount k). unfold restores, mutations in Hcount. lia.
    - right. split; [assumption|].
      exists w, backup, changed, (setup ++ new).
      split; [assumption|]. split; [assumption|]. split; [exact Hlook|].
      split; [assumption|]. split.
      + rewrite Htrace. subst setup. now rewrite <- !app_assoc.
      + intros k. unfold restores, mutations. rewrite !count_app.
        destruct (Hsetup k) as [H1 H2]. unfold restores, mutations in H1, H2.
        specialize (Hcount k). unfold restores, mutations in Hcount. lia. }
  destruct r1 as [[]|e|]; [| |congruence].
  2:{ injection Hrun as <- <-. split; [discriminate|].
      repeat (split; [assumption|]). now apply Hfrom. }
  destruct Hcases as [Hsettled|[_ [e He]]]; [|discriminate].
  rewrite runtime_stays_up, external_ok in Hrun
    by (assumption || now apply no_fault_outside_steps).
  unfold read in Hrun. cbn [st_world with_world append_trace containers id] in Hrun.
  rewrite bool_decide_eq_true_2 in Hrun
    by (rewrite Hi2; apply elem_of_union; left; now apply elem_of_singleton).
  rewrite on_container_stays_up, external_ok in Hrun;
    [| now apply no_fault_outside_steps | assumption
     | simpl; rewrite Hi2; apply elem_of_union; left; now apply elem_of_singleton].
  injection Hrun as <- <-. split; [discriminate|].
  repeat (split; [assumption|]).
  destruct Hsettled as (Hres & Hws & new & Htrace & Hcount).
  simpl in Hws, Htrace. left. split; [assumption|]. split; [assumption|].
  exists (setup ++ new ++ [(CInspect InBody (container_name_of organization_id), true);
                           (CLogs (container_name_of organization_id), true)]).
  split.
  + simpl. rewrite Htrace. subst setup. now rewrite <- !app_assoc.
  + intros k. unfold restores, mutations. rewrite !count_app.
    destruct (Hsetup k) as [H1 H2]. unfold restores, mutations in H1, H2.
    specialize (Hcount k). unfold restores, mutations in Hcount.
    cbn [count is_restore_of is_mutation_of]. lia.
Qed.

(** X1.  When faults are confined to the backup, repoint, trigger, poll and
    log-reading calls, a repoint that fails was not carried out, the
    agent keeps running and every plan ends, one organization's
    iteration of [_enrich_workspace_variable_data] never hangs and
    leaves every remote workspace with the settings it had, has
    triggered as many restorations of each workspace as it applied
    mutations to it, and leaves neither the agent pool nor the agent
    container it created. *)
Theorem organization_saga_restores_and_tears_down
    fuel organization_id wss st st' r :
  faults_within_steps E ->
  repoint_fails_cleanly E ->
  agent_stays_up E ->
  plans_end_within E fuel ->
  new_pool_id E organization_id <> "" ->
  enrich_organization E fuel organization_id wss st = (st', r) ->
  r <> Diverge
  /\ workspaces (st_world st') = workspaces (st_world st)
  /\ (exists new,
        trace (st_world st') = trace (st_world st) ++ new
        /\ forall w, restores w new = mutations w new)
  /\ (new_pool_id E organization_id ∉ agent_pools (st_world st'))
  /\ (container_name_of organization_id ∉ containers (st_world st')).
Proof.
  intros Hfaults Hclean Hup Hplans Hpool Hrun.
  unfold enrich_organization, bind, assign, try_finally in Hrun.
  match type of Hrun with
  | context [saga_body E fuel organization_id wss ?s] =>
      destruct (saga_body E fuel organization_id wss s) as [s1 r1] eqn:Hbody;
      destruct (saga_body_post fuel organization_id wss s s1 r1
                  Hfaults Hclean Hup Hplans eq_refl Hbody)
        as (Hr1 & Hpid & Hcid & Hpools & Hcontainers & Hcases)
  end.
  simpl in Hpools, Hcontainers.
  assert (Hneq : String.eqb (new_pool_id E organization_id) "" = false)
    by (now apply String.eqb_neq).
  assert (Hin : container_name_of organization_id ∈ containers (st_world s1)).
  { rewrite Hcontainers. apply elem_of_union. left. now apply elem_of_singleton. }
  assert (Hcleanup :
            exists s2 new2,
              saga_cleanup E s1 = (s2, Ret tt)
              /\ workspaces (st_world s2) = workspaces (st_world st)
              /\ trace (st_world s2) = trace (st_world st) ++ new2
              /\ (forall w, restores w new2 = mutations w new2)
              /\ agent_pools (st_world s2)
                 = agent_pools (st_world s1) ∖ {[ new_pool_id E organization_id ]}
              /\ containers (st_world s2)
                 = containers (st_world s1) ∖ {[ container_name_of organization_id ]}).
  { unfold saga_cleanup, bind, read, _stop_agent_container, _delete_agent_pool,
      _restore_workspace_exec_mode. unfold bind. rewrite Hpid, Hcid, Hneq.
    destruct Hcases as [(Hres & Hws & new & Htrace & Hcount)
                       |(Hres & w & backup & changed & new & Hcur & Hbak & Hlook & Hws
                         & Htrace & Hcount)];
      simpl in Hws, Htrace; rewrite Hres; simpl.
    - rewrite runtime_stays_up, external_ok
        by (assumption || now apply no_fault_outside_steps).
      rewrite on_container_stays_up, external_ok;
        [| now apply no_fault_outside_steps | assumption | exact Hin].
      rewrite external_ok by (now apply no_fault_outside_steps).
      eexists _, (new ++ [_; _; _]). split; [reflexivity|]. simpl.
      split; [assumption|]. split; [rewrite Htrace; now rewrite <- !app_assoc|].
      split; [|split; reflexivity].
      intros k. unfold restores, mutations. rewrite !count_app.
      specialize (Hcount k). unfold restores, mutations in Hcount.
      cbn [count is_restore_of is_mutation_of]. lia.
    - rewrite Hcur, Hbak. unfold ret.
      rewrite external_ok by (now apply no_fault_outside_steps).
      rewrite runtime_stays_up, external_ok
        by (assumption || now apply no_fault_outside_steps).
      rewrite on_container_stays_up, external_ok;
        [| now apply no_fault_outside_steps | assumption | exact Hin].
      rewrite external_ok by (now apply no_fault_outside_steps).
      eexists _, (new ++ [(CRestore InFinally w, true); _; _; _]).
      split; [reflexivity|]. simpl.
      split; [rewrite Hws; now apply alter_restore|].
      split; [rewrite Htrace; now rewrite <- !app_assoc|].
      split; [|split; reflexivity].
      intros k. unfold restores, mutations. rewrite !count_app.
      specialize (Hcount k). unfold restores, mutations in Hcount.
      cbn [count is_restore_of is_mutation_of]. lia. }
  destruct Hcleanup as (s2 & new2 & Hclean' & Hws & Htrace & Hcount & Hp & Hc).
  assert (st' = s2 /\ r = r1) as [-> ->].
  { destruct r1 as [[]|e|]; [| |congruence]; rewrite Hclean' in Hrun;
      now injection Hrun as <- <-. }
  split; [assumption|]. split; [assumption|]. split; [eauto|].
  rewrite Hp, Hc.
  split; apply not_elem_of_difference; right; now apply elem_of_singleton.
Qed.

(** X4.  [_get_plan] has no bound on its polling: as long as the plan shows
    none of the four final statuses and polling does not fail, it does
    not return, whatever the number of polls allowed. *)
Theorem get_plan_never_gives_up id_ :
  (forall h, fault E h (CPoll id_) = None) ->
  (forall n, plan_is_over (fst (plan_status E id_ n)) = false) ->
  forall fuel attempt st,
    _get_plan E fuel id_ attempt st
    = (with_world (append_trace (repeat (CPoll id_, true) fuel)) st, Diverge).
Proof.
  intros Hpoll Hrunning. induction fuel as [|fuel IH]; intros attempt st.
  - simpl. unfold diverge, with_world, append_trace. simpl. rewrite app_nil_r.
    now destruct st as [[] ? ?].
  - simpl. unfold bind. rewrite external_ok by apply Hpoll.
    specialize (Hrunning attempt).
    destruct (plan_status E id_ attempt) as [status log_read_url].
    unfold plan_is_over in Hrunning. simpl in Hrunning.
    apply orb_false_elim in Hrunning as [Hrunning Hd].
    apply orb_false_elim in Hrunning as [Hrunning Hc].
    apply orb_false_elim in Hrunning as [Ha Hb].
    rewrite Ha, Hb, Hc, Hd. simpl. rewrite IH. f_equal.
    apply (append_trace_twice [(CPoll id_, true)] (repeat (CPoll id_, true) fuel) st).
Qed.

(** X2.  When listing the containers fails after [docker.run] started
    the agent, the exception leaves [_start_agent_container] before the
    container variable is assigned: the [finally] suite deletes the
    pool but never stops the container, which is left running. *)
Theorem agent_start_failure_leaves_container fuel organization_id wss st st' r e :
  (forall h c, c <> CDockerPs -> fault E h c = None) ->
  (forall h, fault E h CDockerPs = Some e) ->
  agent_stays_up E ->
  new_pool_id E organization_id <> "" ->
  enrich_organization E fuel organization_id wss st = (st', r) ->
  r = Raise e
  /\ trace (st_world st')
     = trace (st_world st)
       ++ [(CCreatePool organization_id, true);
           (CCreateToken (new_pool_id E organization_id), true);
           (CDockerRun (container_name_of organization_id), true);
           (CDockerPs, false);
           (CDeletePool (new_pool_id E organization_id), true)]
  /\ container_name_of organization_id ∈ containers (st_world st')
  /\ (new_pool_id E organization_id ∉ agent_pools (st_world st'))
  /\ workspaces (st_world st') = workspaces (st_world st).
Proof.
  intros Hothers Hps Hup Hpool Hrun.
  assert (Hneq : String.eqb (new_pool_id E organization_id) "" = false)
    by (now apply String.eqb_neq).
  unfold enrich_organization, saga_body, _create_agent_pool, _start_agent_container,
    _create_agent_token, try_finally, bind, assign, ret in Hrun.
  rewrite external_ok in Hrun by (now apply Hothers).
  rewrite external_ok in Hrun by (now apply Hothers).
  rewrite runtime_stays_up, external_ok in Hrun by (assumption || now apply Hothers).
  cbn [verify_started] in Hrun. unfold bind in Hrun.
  rewrite runtime_stays_up in Hrun by assumption.
  rewrite (external_fail _ _ e) in Hrun by apply Hps.
  unfold saga_cleanup, _delete_agent_pool, bind, read, ret in Hrun. simpl in Hrun.
  rewrite Hneq in Hrun. rewrite external_ok in Hrun by (now apply Hothers).
  injection Hrun as <- <-. simpl. split; [reflexivity|].
  split; [now rewrite <- !app_assoc|]. split; [|split; [|reflexivity]].
  - apply elem_of_union. left. now apply elem_of_singleton.
  - apply not_elem_of_difference. right. now apply elem_of_singleton.
Qed.

(** X3.  When the [try] suite ended with a mutation pending and the
    restoration issued by the [finally] suite raises, that exception is
    what the iteration raises, and neither the container is stopped nor
    the pool deleted: the pool and the container stay as the [try] suite
    left them, and the workspace is restored only if the restoration
    that raised had been carried out. *)
Theorem failed_restore_skips_teardown
    fuel organization_id wss st st1 r1 st' r workspace_id backup e' :
  saga_body E fuel organization_id wss (with_locals (fun _ => initial_locals) st)
  = (st1, r1) ->
  r1 <> Diverge ->
  restored_agent (st_locals st1) = false ->
  current_workspace_id (st_locals st1) = Some workspace_id ->
  workspace_data_backup (st_locals st1) = Some backup ->
  fault E (trace (st_world st1)) (CRestore InFinally workspace_id) = Some e' ->
  enrich_organization E fuel organization_id wss st = (st', r) ->
  r = Raise e'
  /\ trace (st_world st')
     = trace (st_world st1) ++ [(CRestore InFinally workspace_id, false)]
  /\ workspaces (st_world st')
     = (if applied E (trace (st_world st1)) (CRestore InFinally workspace_id)
        then alter (fun _ => backup) workspace_id (workspaces (st_world st1))
        else workspaces (st_world st1))
  /\ agent_pools (st_world st') = agent_pools (st_world st1)
  /\ containers (st_world st') = containers (st_world st1).
Proof.
  intros Hbody Hr1 Hres Hcur Hbak Hfault Hrun.
  unfold enrich_organization, bind, assign, try_finally in Hrun.
  rewrite Hbody in Hrun.
  assert (Hclean : exists s2,
             saga_cleanup E st1 = (s2, Raise e')
             /\ st_world s2
                = log_call (CRestore InFinally workspace_id) false
                    (if applied E (trace (st_world st1)) (CRestore InFinally workspace_id)
                     then set_workspaces (alter (fun _ => backup) workspace_id)
                            (st_world st1)
                     else st_world st1)).
  { unfold saga_cleanup, bind, read, _restore_workspace_exec_mode.
    rewrite Hres, Hcur, Hbak. simpl. unfold external. cbv zeta. rewrite Hfault.
    eexists. split; reflexivity. }
  destruct Hclean as (s2 & Hclean & Hworld).
  rewrite Hclean in Hrun.
  assert (st' = s2 /\ r = Raise e') as [-> ->]
    by (destruct r1 as [[]|e|]; [| |congruence]; now injection Hrun as <- <-).
  rewrite Hworld.
  destruct (applied E (trace (st_world st1)) (CRestore InFinally workspace_id));
    repeat split; reflexivity.
Qed.

(** C1.  A failure inside the repoint step can leave the workspace
    repointed for good.  When the platform carries out the [PATCH]
    that repoints a workspace and the call raises all the same (its
    answer is lost, or is not understood), [restored_agent] is still
    [True]: the [finally] suite issues no restoration, stops the agent
    and deletes the pool, and the workspace is left in agent mode on a
    pool that does not exist any more. *)
Theorem raised_repoint_is_never_restored
    fuel organization_id workspace_id workspace_variables rest st st' r e
    (remote : list record) (workspace : record) (settings : exec_settings) :
  (forall h c, c <> CRepoint workspace_id -> fault E h c = None) ->
  (forall h, fault E h (CRepoint workspace_id) = Some e) ->
  (forall h, applied E h (CRepoint workspace_id) = true) ->
  agent_stays_up E ->
  new_pool_id E organization_id <> "" ->
  iterate "workspaces" (st_data st) = Ret remote ->
  find_by_id remote (VStr workspace_id) = Some workspace ->
  is_none (get workspace ["relationships"; "current-configuration-version"; "data"; "id"])
  = false ->
  workspaces (st_world st) !! workspace_id = Some settings ->
  enrich_organization E fuel organization_id
    ((workspace_id, workspace_variables) :: rest) st
  = (st', r) ->
  r = Raise e
  /\ trace (st_world st')
     = trace (st_world st)
       ++ [(CCreatePool organization_id, true);
           (CCreateToken (new_pool_id E organization_id), true);
           (CDockerRun (container_name_of organization_id), true);
           (CDockerPs, true);
           (CBackup workspace_id, true);
           (CRepoint workspace_id, false);
           (CInspect InFinally (container_name_of organization_id), true);
           (CStop (container_name_of organization_id), true);
           (CDeletePool (new_pool_id E organization_id), true)]
  /\ workspaces (st_world st') !! workspace_id
     = Some (agent_settings (new_pool_id E organization_id))
  /\ (new_pool_id E organization_id ∉ agent_pools (st_world st')).
Proof.
  intros Hothers Hrepoint Happlied Hup Hpool Hremote Hfound Hconfigured Hsettings Hrun.
  assert (Hneq : String.eqb (new_pool_id E organization_id) "" = false)
    by (now apply String.eqb_neq).
  assert (Hin : forall cs : gset string,
             container_name_of organization_id
               ∈ {[ container_name_of organization_id ]} ∪ cs)
    by (intros cs; apply elem_of_union; left; now apply elem_of_singleton).
  unfold enrich_organization, saga_body, _create_agent_pool, _start_agent_container,
    _create_agent_token, try_finally, bind, assign, ret in Hrun.
  rewrite external_ok in Hrun by (now apply Hothers).
  rewrite external_ok in Hrun by (now apply Hothers).
  rewrite runtime_stays_up, external_ok in Hrun by (assumption || now apply Hothers).
  rewrite verify_started_ok in Hrun;
    [| assumption | now apply Hothers | simpl; apply Hin].
  cbn [enrich_workspaces] in Hrun.
  unfold enrich_workspace, find_workspace, backup_and_repoint, backup_workspace,
    repoint_workspace, bind, assign, read, ret in Hrun.
  simpl in Hrun. rewrite Hremote in Hrun. simpl in Hrun.
  rewrite Hfound, Hconfigured in Hrun.
  rewrite external_ok in Hrun by (now apply Hothers).
  simpl in Hrun. rewrite Hsettings in Hrun.
  rewrite (external_fail_applied _ _ _ e) in Hrun by (apply Hrepoint || apply Happlied).
  unfold saga_cleanup, _stop_agent_container, _delete_agent_pool, bind, read, ret in Hrun.
  simpl in Hrun. rewrite Hneq in Hrun.
  rewrite runtime_stays_up, external_ok in Hrun by (assumption || now apply Hothers).
  rewrite on_container_stays_up, external_ok in Hrun;
    [| now apply Hothers | assumption | simpl; apply Hin].
  rewrite external_ok in Hrun by (now apply Hothers).
  injection Hrun as <- <-. simpl. split; [reflexivity|].
  split; [now rewrite <- !app_assoc|]. split.
  - rewrite lookup_alter_eq, Hsettings. reflexivity.
  - apply not_elem_of_difference. right. now apply elem_of_singleton.
Qed.

(** *** The variables that the [finally] suite reads *)




(** Code that leaves the current workspace and its backup alone. *)
Abbreviation steady := (fun A (m : M state A) =>
  forall st st' r, m st = (st', r) ->
    current_workspace_id (st_locals st') = current_workspace_id (st_locals st)
    /\ workspace_data_backup (st_locals st') = workspace_data_backup (st_locals st)).













(** *** The [finally] suite, call by call *)












End Saga.

End SagaFacts.

Module SagaWitnesses.

Import Mapper Saga SagaSpec Examples.

Lemma trigger_fails_within_steps : faults_within_steps trigger_fails.
Proof.
  intros h c Hfault. destruct c; try reflexivity; simpl in Hfault; congruence.
Defined.

Lemma organization_saga_restores_and_tears_down_witness :
  workspaces
    (st_world (fst (enrich_organization trigger_fails 5 "org-1" saga_workspaces saga_state)))
  = workspaces saga_world
  /\ ("apool-org-1"
      ∉ agent_pools
          (st_world
             (fst (enrich_organization trigger_fails 5 "org-1" saga_workspaces saga_state)))).
Proof.
  destruct (enrich_organization trigger_fails 5 "org-1" saga_workspaces saga_state)
    as [st' r] eqn:Hrun.
  destruct (SagaFacts.organization_saga_restores_and_tears_down trigger_fails
              5 "org-1" saga_workspaces saga_state st' r)
    as (_ & Hws & _ & Hpool & _).
  - exact trigger_fails_within_steps.
  - intros h workspace_id. reflexivity.
  - intros h container_name. reflexivity.
  - intros plan_id. exists 1. split; [lia | reflexivity].
  - discriminate.
  - exact Hrun.
  - split; [exact Hws | exact Hpool].
Defined.

(** The run of the example, call by call: the plan of [ws-2] cannot be
    triggered after [ws-2] was repointed, and the [finally] suite
    restores it. *)
Example trigger_fails_trace :
  let '(st', r) := enrich_organization trigger_fails 5 "org-1" saga_workspaces saga_state in
  r = Raise (RuntimeError "HTTP Error")
  /\ trace (st_world st')
     = [ (CCreatePool "org-1", true); (CCreateToken "apool-org-1", true);
         (CDockerRun "smk-tfc-agent-org-1", true); (CDockerPs, true);
         (CBackup "ws-1", true); (CRepoint "ws-1", true); (CTrigger "ws-1", true);
         (CPoll "plan-ws-1", true); (CPoll "plan-ws-1", true);
         (CReadLog "run-ws-1", true); (CRestore InBody "ws-1", true);
         (CBackup "ws-2", true); (CRepoint "ws-2", true); (CTrigger "ws-2", false);
         (CRestore InFinally "ws-2", true);
         (CInspect InFinally "smk-tfc-agent-org-1", true);
         (CStop "smk-tfc-agent-org-1", true); (CDeletePool "apool-org-1", true) ].
Proof. vm_compute. split; reflexivity. Qed.

Lemma agent_start_failure_leaves_container_witness :
  snd (enrich_organization listing_fails 5 "org-1" saga_workspaces saga_state)
  = Raise (ExternalError "docker ps")
  /\ "smk-tfc-agent-org-1"
     ∈ containers
         (st_world
            (fst (enrich_organization listing_fails 5 "org-1" saga_workspaces saga_state))).
Proof.
  destruct (enrich_organization listing_fails 5 "org-1" saga_workspaces saga_state)
    as [st' r] eqn:Hrun.
  destruct (SagaFacts.agent_start_failure_leaves_container listing_fails
              5 "org-1" saga_workspaces saga_state st' r (ExternalError "docker ps"))
    as (Hr & _ & Hcontainer & _).
  - intros h c Hc. destruct c; try reflexivity. congruence.
  - reflexivity.
  - intros h container_name. reflexivity.
  - discriminate.
  - exact Hrun.
  - split; [exact Hr | exact Hcontainer].
Defined.

(** An agent that exits as soon as it is started is removed by the
    runtime: the listings never show it, the wait gives up at the
    eleventh, and the [finally] suite has a pool to delete and no
    container to stop. *)
Example exited_agent_is_given_up_on :
  let '(st', r) := enrich_organization agent_never_up 5 "org-1" saga_workspaces saga_state in
  r = Raise AgentStartError
  /\ trace (st_world st')
     = [ (CCreatePool "org-1", true); (CCreateToken "apool-org-1", true);
         (CDockerRun "smk-tfc-agent-org-1", true) ]
       ++ repeat (CDockerPs, true) 11
       ++ [ (CDeletePool "apool-org-1", true) ]
  /\ elements (containers (st_world st')) = []
  /\ elements (agent_pools (st_world st')) = [].
Proof. vm_compute. repeat split; reflexivity. Qed.

Lemma failed_restore_skips_teardown_witness :
  snd (enrich_organization restore_fails_too 5 "org-1" saga_workspaces saga_state)
  = Raise (RuntimeError "Connection error").
Proof.
  destruct (enrich_organization restore_fails_too 5 "org-1" saga_workspaces saga_state)
    as [st' r] eqn:Hrun.
  pose (body := saga_body restore_fails_too 5 "org-1" saga_workspaces
                  (with_locals (fun _ => initial_locals) saga_state)).
  destruct (SagaFacts.failed_restore_skips_teardown restore_fails_too
              5 "org-1" saga_workspaces saga_state (fst body) (snd body) st' r
              "ws-2" remote_settings (RuntimeError "Connection error"))
    as (Hr & _).
  - apply surjective_pairing.
  - vm_compute. discriminate.
  - vm_compute. reflexivity.
  - vm_compute. reflexivity.
  - vm_compute. reflexivity.
  - reflexivity.
  - exact Hrun.
  - exact Hr.
Defined.

Lemma get_plan_never_gives_up_witness :
  snd (_get_plan agent_never_up 7 "plan-ws-1" 0 saga_state) = Diverge.
Proof.
  rewrite (SagaFacts.get_plan_never_gives_up agent_never_up "plan-ws-1"
             (fun _ => eq_refl) (fun _ => eq_refl) 7 0 saga_state).
  reflexivity.
Defined.

(** The answer to the [PATCH] that repoints [ws-1] is lost: the
    iteration raises for the timeout, and [ws-1], which was run
    remotely, is left in agent mode on the pool that the [finally]
    suite deleted. *)
Lemma raised_repoint_is_never_restored_witness :
  snd (enrich_organization repoint_answer_lost 5 "org-1" saga_workspaces saga_state)
  = Raise (RuntimeError "Timeout")
  /\ workspaces saga_world !! "ws-1" = Some remote_settings
  /\ workspaces
       (st_world
          (fst (enrich_organization repoint_answer_lost 5 "org-1" saga_workspaces
                  saga_state)))
     !! "ws-1"
     = Some (agent_settings "apool-org-1")
  /\ ("apool-org-1"
      ∉ agent_pools
          (st_world
             (fst (enrich_organization repoint_answer_lost 5 "org-1" saga_workspaces
                     saga_state)))).
Proof.
  destruct (enrich_organization repoint_answer_lost 5 "org-1" saga_workspaces saga_state)
    as [st' r] eqn:Hrun.
  destruct (SagaFacts.raised_repoint_is_never_restored repoint_answer_lost
              5 "org-1" "ws-1" [("var-1", "TOKEN")] [("ws-2", [("var-2", "PASSWORD")])]
              saga_state st' r (RuntimeError "Timeout")
              [configured_workspace "ws-1"; configured_workspace "ws-2"]
              (configured_workspace "ws-1") remote_settings)
    as (Hr & _ & Hws & Hpool).
  - intros h c Hc. destruct c; try reflexivity. simpl.
    destruct (String.eqb_spec workspace_id "ws-1"); [congruence | reflexivity].
  - reflexivity.
  - reflexivity.
  - intros h container_name. reflexivity.
  - discriminate.
  - reflexivity.
  - reflexivity.
  - reflexivity.
  - reflexivity.
  - exact Hrun.
  - simpl. repeat split; assumption || reflexivity.
Defined.

Example repoint_answer_lost_outcome :
  let '(st', r) :=
    enrich_organization repoint_answer_lost 5 "org-1" saga_workspaces saga_state in
  r = Raise (RuntimeError "Timeout")
  /\ trace (st_world st')
     = [ (CCreatePool "org-1", true); (CCreateToken "apool-org-1", true);
         (CDockerRun "smk-tfc-agent-org-1", true); (CDockerPs, true);
         (CBackup "ws-1", true); (CRepoint "ws-1", false);
         (CInspect InFinally "smk-tfc-agent-org-1", true);
         (CStop "smk-tfc-agent-org-1", true); (CDeletePool "apool-org-1", true) ]
  /\ workspaces (st_world st') !! "ws-1" = Some (agent_settings "apool-org-1")
  /\ elements (agent_pools (st_world st')) = [].
Proof. vm_compute. repeat split; reflexivity. Qed.



End SagaWitnesses.

(** ** Projection on the properties of an extractor *)

Module ProjectFacts.

Import Api Extract.

Lemma overlap_sym p q : overlap p q = overlap q p.
Proof. unfold overlap. apply orb_comm. Qed.

Lemma overlap_cons k p q : overlap (k :: p) (k :: q) = overlap p q.
Proof. unfold overlap. simpl. now rewrite String.eqb_refl. Qed.

Lemma overlap_nil_l q : overlap [] q = true.
Proof. reflexivity. Qed.

Lemma overlap_nil_r p : overlap p [] = true.
Proof. rewrite overlap_sym. reflexivity. Qed.

Lemma get_cons d k rest :
  get d (k :: rest)
  = match dict_get k d with Some v => get_path rest v | None => VNone end.
Proof. reflexivity. Qed.

Lemma get_path_not_dict rest v :
  rest <> [] -> (forall d, v <> VDict d) -> get_path rest v = VNone.
Proof.
  intros Hrest Hv. destruct rest as [|k rest]; [congruence|].
  destruct v; try reflexivity. now destruct (Hv d).
Qed.

Lemma set_path_cons k k' rest x d :
  set_path (k :: k' :: rest) x d
  = dict_set k (VDict (set_path (k' :: rest) x
                         match dict_get k d with
                         | Some (VDict d') => d'
                         | _ => []
                         end)) d.
Proof. reflexivity. Qed.

(** benedict's [d[p] = x] followed by [d.get(p)] gives [x] back. *)
Lemma get_set_path_same p x d : p <> [] -> get (set_path p x d) p = x.
Proof.
  revert d. induction p as [|k rest IH]; intros d Hp; [congruence|].
  destruct rest as [|k' rest].
  - simpl. rewrite get_cons, ExpanderFacts.dict_get_set_eq. reflexivity.
  - rewrite set_path_cons, get_cons, ExpanderFacts.dict_get_set_eq.
    apply IH. discriminate.
Qed.

(** ... and leaves alone every key path that neither begins with [p]
    nor is a beginning of [p]. *)
Lemma get_set_path_other p q x d :
  overlap p q = false -> get (set_path p x d) q = get d q.
Proof.
  revert q d. induction p as [|k rest IH]; intros q d Hpq.
  - now rewrite overlap_nil_l in Hpq.
  - destruct q as [|k' q]; [now rewrite overlap_nil_r in Hpq|].
    destruct (String.eqb_spec k k') as [<-|Hne].
    + rewrite overlap_cons in Hpq.
      destruct rest as [|k2 rest]; [now rewrite overlap_nil_l in Hpq|].
      rewrite set_path_cons, !get_cons, ExpanderFacts.dict_get_set_eq.
      change (get_path q (VDict ?r)) with (get r q). rewrite IH by assumption.
      assert (Hq : q <> []) by (intros ->; now rewrite overlap_nil_r in Hpq).
      destruct (dict_get k d) as [v|]; [|now destruct q].
      destruct v; try (rewrite get_path_not_dict by (assumption || discriminate);
                       now destruct q).
      reflexivity.
    + destruct rest as [|k2 rest].
      * simpl set_path. rewrite !get_cons.
        now rewrite ExpanderFacts.dict_get_set_ne.
      * rewrite set_path_cons, !get_cons.
        now rewrite ExpanderFacts.dict_get_set_ne.
Qed.

Lemma project_other properties raw_datum datum q :
  forallb (fun p => negb (overlap p q)) properties = true ->
  get (fold_left (fun datum property_ =>
                    set_path property_ (get raw_datum property_) datum)
         properties datum) q
  = get datum q.
Proof.
  revert datum. induction properties as [|p properties IH]; intros datum Hq; simpl.
  - reflexivity.
  - simpl in Hq. apply andb_prop in Hq as [Hp Hq]. rewrite IH by assumption.
    apply get_set_path_other. now apply negb_true_iff in Hp.
Qed.

Lemma project_kept properties raw_datum datum p :
  prefix_free properties = true ->
  In p properties ->
  p <> [] ->
  get (fold_left (fun datum property_ =>
                    set_path property_ (get raw_datum property_) datum)
         properties datum) p
  = get raw_datum p.
Proof.
  revert datum. induction properties as [|a properties IH];
    intros datum Hfree Hin Hp; [destruct Hin|].
  simpl in Hfree. apply andb_prop in Hfree as [Ha Hfree]. simpl.
  destruct Hin as [->|Hin].
  - rewrite project_other.
    + now apply get_set_path_same.
    + rewrite forallb_forall in *. intros q Hq. rewrite overlap_sym. now apply Ha.
  - now apply IH.
Qed.

(** X5.  The projection of [_extract_data_from_api] is faithful when no
    property is the beginning of another: the record it builds holds,
    at each property, what the raw record holds there, and nothing at
    any key path apart from the properties. *)
Theorem projection_keeps_exactly_the_properties properties raw_datum :
  prefix_free properties = true ->
  (forall p, In p properties -> p <> [] ->
     get (project properties raw_datum) p = get raw_datum p)
  /\ (forall q, q <> [] ->
        forallb (fun p => negb (overlap p q)) properties = true ->
        get (project properties raw_datum) q = VNone).
Proof.
  intros Hfree. split.
  - intros p Hin Hp. now apply project_kept.
  - intros q Hq Hother. unfold project. rewrite project_other by assumption.
    now destruct q.
Qed.

(** X6.  Every extractor asks for properties none of which is the
    beginning of another, so each record it returns agrees with the
    API's record on every property of the extractor. *)
Theorem extractors_keep_their_properties kind properties p raw_datum :
  In (kind, properties) extractor_properties ->
  In p properties ->
  get (project properties raw_datum) p = get raw_datum p.
Proof.
  intros Hkind Hp.
  assert (Hall : forallb (fun entry =>
                   prefix_free (snd entry)
                   && forallb (fun p => match p with [] => false | _ => true end)
                        (snd entry)) extractor_properties = true)
    by (vm_compute; reflexivity).
  rewrite forallb_forall in Hall. specialize (Hall _ Hkind). simpl in Hall.
  apply andb_prop in Hall as [Hfree Hnonempty].
  rewrite forallb_forall in Hnonempty. specialize (Hnonempty _ Hp).
  apply (proj1 (projection_keeps_exactly_the_properties properties raw_datum Hfree));
    [assumption|]. now destruct p.
Qed.

End ProjectFacts.

Module ProjectWitnesses.

Import Api Extract MoreExamples.

Lemma projection_keeps_exactly_the_properties_witness :
  get (project project_properties (module_at "mod-1" "vpc" "acme/terraform-aws-vpc"))
    ["relationships"; "organization"; "data"; "id"]
  = VStr "org-1"
  /\ get (project project_properties (module_at "mod-1" "vpc" "acme/terraform-aws-vpc"))
       ["attributes"; "status"]
     = VNone.
Proof.
  destruct (ProjectFacts.projection_keeps_exactly_the_properties
              project_properties (module_at "mod-1" "vpc" "acme/terraform-aws-vpc")
              eq_refl) as [Hkept Hdropped].
  split.
  - rewrite Hkept; [reflexivity | simpl; tauto | discriminate].
  - apply Hdropped; [discriminate | reflexivity].
Defined.

Lemma extractors_keep_their_properties_witness :
  get (project workspace_properties
         (workspace_on "ws-2" "cluster" "gitlab_hosted" "acme/platform/cluster"))
    ["attributes"; "vcs-repo"; "identifier"]
  = VStr "acme/platform/cluster".
Proof.
  rewrite (ProjectFacts.extractors_keep_their_properties "workspaces"
             workspace_properties ["attributes"; "vcs-repo"; "identifier"]).
  - reflexivity.
  - simpl. tauto.
  - simpl. tauto.
Defined.

End ProjectWitnesses.

(** ** Pagination, the name filter and the extractors *)

Module ExtractFacts.

Import Api Mapper Extract ExtractSpec.

Lemma append_not_empty a c b : String.eqb (a +:+ String c b) "" = false.
Proof. now destruct a. Qed.

Lemma url_truthy endpoint path : truthy (VStr (endpoint +:+ "/api/v2" +:+ path)) = true.
Proof.
  unfold truthy. change ("/api/v2" +:+ path) with (String "/" ("api/v2" +:+ path)).
  now rewrite append_not_empty.
Qed.

Lemma find_entity_first data id_ :
  match _find_entity data id_ with
  | Some entity =>
      exists before after,
        data = before ++ entity :: after
        /\ py_eq (get entity ["id"]) id_ = true
        /\ Forall (fun datum => py_eq (get datum ["id"]) id_ = false) before
  | None => Forall (fun datum => py_eq (get datum ["id"]) id_ = false) data
  end.
Proof.
  induction data as [|datum rest IH]; simpl; [constructor|].
  destruct (py_eq (get datum ["id"]) id_) eqn:Hid.
  - exists [], rest. repeat split; [assumption | constructor].
  - destruct (_find_entity rest id_) as [entity|].
    + destruct IH as (before & after & -> & Hentity & Hbefore).
      exists (datum :: before), after. repeat split; [assumption|].
      now constructor.
    + now constructor.
Qed.

(** X7.  [_find_entity] returns the first record whose [id] equals
    the one asked for, and [None] only when no record has it. *)
Theorem find_entity_returns_the_first_match data id_ entity :
  In entity data ->
  py_eq (get entity ["id"]) id_ = true ->
  exists found before after,
    _find_entity data id_ = Some found
    /\ data = before ++ found :: after
    /\ py_eq (get found ["id"]) id_ = true
    /\ Forall (fun datum => py_eq (get datum ["id"]) id_ = false) before.
Proof.
  intros Hin Hid. pose proof (find_entity_first data id_) as Hfind.
  destruct (_find_entity data id_) as [found|].
  - destruct Hfind as (before & after & Hdata & Hfound & Hbefore). eauto 8.
  - rewrite Forall_forall in Hfind. apply list_elem_of_In in Hin.
    specialize (Hfind _ Hin). congruence.
Qed.

Section Client.

Context {server : Type} {client : Client server}.

Lemma fetch_pages_fails drop method request_data σ url σ' e :
  failing_chain drop method request_data σ url σ' e ->
  exists pages, forall fuel raw_data,
    pages <= fuel ->
    fetch_pages fuel url drop method request_data raw_data σ = (σ', Raise e).
Proof.
  induction 1 as [σ url σ' e Hcall
                 |σ url σ' payload e Hcall Hitems
                 |σ url σ1 payload items σ' e Hcall Hitems Hnext _ [pages IH]].
  - exists 1. intros [|fuel] raw_data Hfuel; [lia|].
    simpl. unfold bind. now rewrite Hcall.
  - exists 1. intros [|fuel] raw_data Hfuel; [lia|].
    simpl. unfold bind, lift. now rewrite Hcall, Hitems.
  - exists (S pages). intros [|fuel] raw_data Hfuel; [lia|].
    simpl. unfold bind, lift. rewrite Hcall, Hitems, Hnext.
    apply IH. lia.
Qed.

(** X8.  When a request fails on some page, however many pages were
    read before it, the extraction raises that error and returns none
    of the items it had collected. *)
Theorem failed_page_fails_the_extraction
    (path method : string) (drop properties : option (list (list string)))
    (include_pattern : option string) (request_data : option value)
    (σ σ' : server) (e : exn) :
  failing_chain drop method request_data σ
    (VStr (api_endpoint +:+ "/api/v2" +:+ path)) σ' e ->
  exists pages, forall fuel,
    pages <= fuel ->
    _extract_data_from_api fuel path drop include_pattern method properties
      request_data σ
    = (σ', Raise e).
Proof.
  intros Hchain. destruct (fetch_pages_fails _ _ _ _ _ _ _ Hchain) as [pages Hfetch].
  exists pages. intros fuel Hfuel.
  unfold _extract_data_from_api, bind. now rewrite Hfetch.
Qed.

Lemma fetch_pages_cycle drop method request_data url :
  truthy url = true ->
  (forall σ, exists σ' payload items,
     _call_api url drop method request_data σ = (σ', Ret payload)
     /\ page_items payload = Ret items
     /\ get payload ["links"; "next"] = url) ->
  forall fuel raw_data σ,
    snd (fetch_pages fuel url drop method request_data raw_data σ) = Diverge.
Proof.
  intros Hurl Hpage. induction fuel as [|fuel IH]; intros raw_data σ; [reflexivity|].
  destruct (Hpage σ) as (σ' & payload & items & Hcall & Hitems & Hnext).
  simpl. unfold bind, lift. rewrite Hcall, Hitems, Hnext, Hurl. apply IH.
Qed.

(** X9.  The client has no bound on the pages it follows and does not
    notice a cycle: when the page behind the URL links to that URL
    again, the extraction does not return, however many requests it is
    allowed. *)
Theorem cyclic_next_link_never_ends
    (path method : string) (drop properties : option (list (list string)))
    (include_pattern : option string) (request_data : option value) :
  (forall σ, exists σ' payload items,
     _call_api (VStr (api_endpoint +:+ "/api/v2" +:+ path)) drop method request_data σ
     = (σ', Ret payload)
     /\ page_items payload = Ret items
     /\ get payload ["links"; "next"] = VStr (api_endpoint +:+ "/api/v2" +:+ path)) ->
  forall fuel σ,
    snd (_extract_data_from_api fuel path drop include_pattern method properties
           request_data σ)
    = Diverge.
Proof.
  intros Hpage fuel σ. unfold _extract_data_from_api, bind.
  pose proof (fetch_pages_cycle drop method request_data
                (VStr (api_endpoint +:+ "/api/v2" +:+ path))) as Hcycle.
  specialize (Hcycle (url_truthy _ _) Hpage fuel [] σ).
  destruct (fetch_pages _ _ _ _ _ _ _) as [σ1 r]. simpl in Hcycle. now subst r.
Qed.

(** X10.  The include pattern is tested on [attributes.name] only: a
    record without a name (as the variables are, which have a key) is
    kept whatever the pattern, even one that matches nothing. *)
Theorem pattern_spares_nameless_items
    (include_regex : string -> bool) (property_ : list string)
    (properties : list (list string)) (raw_data : list record) :
  Forall nameless raw_data ->
  select_data include_regex (Some (property_ :: properties)) (map VDict raw_data)
  = Ret (map (project (property_ :: properties)) raw_data).
Proof.
  induction 1 as [|raw_datum raw_data Hname _ IH]; [reflexivity|].
  cbn [map select_data]. unfold nameless in Hname. rewrite Hname, IH. reflexivity.
Qed.

(** [_extract_data_from_api] on a URL the server answers 404 to. *)
Lemma extract_not_found fuel path include_pattern properties σ σ' body :
  http {| rq_method := "GET"; rq_url := api_endpoint +:+ "/api/v2" +:+ path;
          rq_data := None |} σ
  = (σ', HttpResponse 404 body) ->
  dump_decodes body = true ->
  re_compile (default ".*" include_pattern) <> None ->
  _extract_data_from_api (S fuel) path None include_pattern "GET" properties None σ
  = (σ', Ret []).
Proof.
  intros Hhttp Hdump Hre.
  pose proof (ApiFacts.call_api_not_found _ _ None _ _ _ _ Hhttp Hdump) as Hcall.
  unfold _extract_data_from_api, bind. cbn [fetch_pages]. unfold bind, lift.
  rewrite Hcall. cbn.
  destruct (re_compile (default ".*" include_pattern)); [reflexivity | congruence].
Qed.

Section Extractors.

Context {libs : Libs}.

Variable cfg : settings.

(** X11.  A module that the registry lists but has no page for makes
    [_extract_modules_data] raise [IndexError]: the 404, when its body
    can be decoded, is taken for an empty result, of which the extractor
    takes the first element. *)
Theorem missing_module_page_raises_index_error
    (fuel : nat) (organization list_datum : record) (rest : list record)
    (σ σ1 σ2 : server) (body : content) :
  listing cfg (S fuel) "modules" (organization_path organization "/registry-modules")
    module_listing_properties σ
  = (σ1, Ret (list_datum :: rest)) ->
  http {| rq_method := "GET";
          rq_url := api_endpoint +:+ "/api/v2" +:+ module_path organization list_datum;
          rq_data := None |} σ1
  = (σ2, HttpResponse 404 body) ->
  dump_decodes body = true ->
  re_compile ".*" <> None ->
  _extract_modules_data cfg (S fuel) organization σ = (σ2, Raise IndexError).
Proof.
  intros Hlist Hhttp Hdump Hre. unfold _extract_modules_data, bind. rewrite Hlist.
  cbn [mmap_list]. unfold bind, first_of, bind.
  rewrite (extract_not_found fuel _ None _ _ _ _ Hhttp Hdump Hre). reflexivity.
Qed.

Lemma add_tag_names_keeps_name fuel workspace_filter include_pattern workspace σ σ' r :
  add_tag_names fuel workspace_filter include_pattern workspace σ = (σ', Ret r) ->
  get r ["attributes"; "name"] = get workspace ["attributes"; "name"].
Proof.
  unfold add_tag_names, bind, ret, raise.
  destruct (match workspace_filter with Some _ => _ | None => _ end).
  { intros [= _ <-]. reflexivity. }
  destruct (_extract_data_from_api _ _ _ _ _ _ _ _) as [σ1 [[|first additional]| |]];
    try discriminate.
  intros [= _ <-].
  exact (ProjectFacts.get_set_path_other ["attributes"; "tag-names"]
           ["attributes"; "name"] _ workspace eq_refl).
Qed.

(** X12.  When the workspaces are selected by a list of names (from
    the configuration or from the file of names), every workspace that
    [_extract_workspaces_data] returns bears one of these names; a
    workspace without a name is never among them. *)
Theorem only_listed_workspaces_are_extracted
    (fuel : nat) (organization : record) (names : list value)
    (include_pattern : option string) (σ σ' : server) (data : list record) :
  workspace_selection cfg = Ret (Some names, include_pattern) ->
  _extract_workspaces_data cfg fuel organization σ = (σ', Ret data) ->
  Forall (fun workspace => py_in (get workspace ["attributes"; "name"]) names = true)
    data.
Proof.
  intros Hselection Hrun. unfold _extract_workspaces_data, bind, lift in Hrun.
  rewrite Hselection in Hrun.
  destruct (_extract_data_from_api _ _ _ _ _ _ _ _) as [σ1 [listed| |]];
    try discriminate.
  apply MapperFacts.mmap_list_Forall2 in Hrun.
  remember (List.filter _ listed) as kept eqn:Hkept.
  assert (Hall : Forall (fun workspace =>
                   py_in (get workspace ["attributes"; "name"]) names = true) kept).
  { subst kept. apply Forall_forall. intros workspace Hin.
    apply list_elem_of_In, filter_In in Hin. now destruct Hin. }
  clear Hkept. induction Hrun as [|workspace r kept data (s & s' & Hone) _ IH];
    [constructor|].
  apply Forall_cons_1 in Hall as [Hhere Hall].
  apply Forall_cons_2; [|now apply IH].
  now rewrite (add_tag_names_keeps_name _ _ _ _ _ _ _ Hone).
Qed.

(** *** [_extract_data] without the support of variable sets *)

Abbreviation no_variable_sets := (fun data : dataset =>
  collection "variable_sets" data = Some []
  /\ collection "variable_set_variables" data = Some []).

Lemma extend_other name name' items data :
  name <> name' -> collection name' (extend name items data) = collection name' data.
Proof.
  intros Hne. unfold extend. destruct (collection name data); [|reflexivity].
  now apply ExpanderFacts.collection_set_ne.
Qed.

Lemma extend_keeps name items data :
  name <> "variable_sets" -> name <> "variable_set_variables" ->
  no_variable_sets data -> no_variable_sets (extend name items data).
Proof.
  intros H1 H2 [Hsets Hvariables]. split; now rewrite extend_other.
Qed.

Lemma extend_each_keeps name extractor parents data σ σ' data' :
  name <> "variable_sets" -> name <> "variable_set_variables" ->
  no_variable_sets data ->
  extend_each (server := server) name extractor parents data σ = (σ', Ret data') ->
  no_variable_sets data'.
Proof.
  intros H1 H2. revert data σ.
  induction parents as [|parent parents IH]; intros data σ Hdata Hrun; simpl in Hrun.
  - now injection Hrun as <- <-.
  - unfold bind in Hrun. destruct (extractor parent σ) as [σ1 [items| |]];
      try discriminate.
    eapply IH; [|eassumption]. now apply extend_keeps.
Qed.

Lemma extract_organization_keeps fuel organization data σ σ' data' :
  experimental_support_variable_sets cfg = false ->
  no_variable_sets data ->
  extract_organization cfg fuel organization data σ = (σ', Ret data') ->
  no_variable_sets data'.
Proof.
  intros Hflag Hdata Hrun. unfold extract_organization, bind in Hrun.
  rewrite Hflag in Hrun.
  repeat match type of Hrun with
         | (let (_, _) := ?call in _) = _ =>
             destruct call as [? [?| |]]; try discriminate
         | match ?call with _ => _ end = _ =>
             destruct call as [? [?| |]]; try discriminate
         end.
  injection Hrun as <- <-.
  repeat (apply extend_keeps; [discriminate | discriminate |]). assumption.
Qed.

Lemma extract_organizations_keep fuel organizations data σ σ' data' :
  experimental_support_variable_sets cfg = false ->
  no_variable_sets data ->
  extract_organizations cfg fuel organizations data σ = (σ', Ret data') ->
  no_variable_sets data'.
Proof.
  intros Hflag. revert data σ.
  induction organizations as [|organization rest IH]; intros data σ Hdata Hrun;
    simpl in Hrun.
  - now injection Hrun as <- <-.
  - unfold bind in Hrun.
    destruct (extract_organization cfg fuel organization data σ)
      as [σ1 [data1| |]] eqn:Hone; try discriminate.
    eapply IH; [|eassumption]. eapply extract_organization_keeps; eassumption.
Qed.

(** X13.  Without the experimental support of variable sets,
    [_extract_data] extracts none: whatever the server holds, the
    collections of variable sets and of their variables come out
    empty. *)
Theorem no_variable_sets_without_the_flag (fuel : nat) (σ σ' : server) (data : dataset) :
  experimental_support_variable_sets cfg = false ->
  _extract_data cfg fuel σ = (σ', Ret data) ->
  collection "variable_sets" data = Some []
  /\ collection "variable_set_variables" data = Some [].
Proof.
  intros Hflag Hrun. unfold _extract_data, bind in Hrun. rewrite Hflag in Hrun.
  destruct (_extract_organization_data cfg fuel σ) as [σ1 [organizations| |]];
    try discriminate.
  destruct (extract_organizations _ _ _ _ _) as [σ2 [data2| |]] eqn:Horgs;
    try discriminate.
  unfold ret in Hrun.
  eapply extend_each_keeps in Hrun; [assumption | discriminate | discriminate |].
  eapply extract_organizations_keep; [eassumption | | eassumption].
  split; reflexivity.
Qed.

End Extractors.

End Client.

End ExtractFacts.

Module ExtractWitnesses.

Import Api Mapper Extract ExtractSpec Examples MoreExamples.

Lemma find_entity_returns_the_first_match_witness :
  exists found,
    _find_entity [configured_workspace "ws-1"; configured_workspace "ws-2";
                  configured_workspace "ws-1"] (VStr "ws-2")
    = Some found
    /\ py_eq (get found ["id"]) (VStr "ws-2") = true.
Proof.
  destruct (ExtractFacts.find_entity_returns_the_first_match
              [configured_workspace "ws-1"; configured_workspace "ws-2";
               configured_workspace "ws-1"]
              (VStr "ws-2") (configured_workspace "ws-2"))
    as (found & before & after & Hfound & _ & Hid & _).
  - simpl. tauto.
  - reflexivity.
  - exists found. split; assumption.
Defined.

Lemma second_page_fails :
  failing_chain (client := failing_client) None "GET" None tt
    (VStr ("https://tfe" +:+ "/api/v2" +:+ "/organizations/o/workspaces")) tt
    (RuntimeError "HTTP Error").
Proof.
  eapply fails_later with (payload := page1) (σ1 := tt);
    [reflexivity | reflexivity | reflexivity |].
  apply fails_here. reflexivity.
Defined.

Lemma failed_page_fails_the_extraction_witness :
  exists pages, forall fuel,
    pages <= fuel ->
    _extract_data_from_api (Client0 := failing_client) fuel "/organizations/o/workspaces"
      None None "GET" (Some [["id"]]) None tt
    = (tt, Raise (RuntimeError "HTTP Error")).
Proof.
  exact (ExtractFacts.failed_page_fails_the_extraction (client := failing_client)
           "/organizations/o/workspaces" "GET" None (Some [["id"]]) None None tt tt
           (RuntimeError "HTTP Error") second_page_fails).
Defined.

Lemma cyclic_next_link_never_ends_witness :
  snd (_extract_data_from_api (Client0 := looping_client) 1000 "/organizations/o/workspaces"
         None None "GET" (Some [["id"]]) None tt)
  = Diverge.
Proof.
  apply (ExtractFacts.cyclic_next_link_never_ends (client := looping_client)).
  intros []. exists tt, looping_page, [VDict [("id", VStr "ws-1")]].
  repeat split.
Defined.

Lemma pattern_spares_nameless_items_witness :
  select_data (fun _ => false) (Some [["id"]; ["attributes"; "key"]])
    [ VDict (variable_of "var-1" "TOKEN" "ws-1" true);
      VDict (variable_of "var-2" "PASSWORD" "ws-2" true) ]
  = Ret [ [("id", VStr "var-1"); ("attributes", VDict [("key", VStr "TOKEN")])];
          [("id", VStr "var-2"); ("attributes", VDict [("key", VStr "PASSWORD")])] ].
Proof.
  apply (ExtractFacts.pattern_spares_nameless_items (fun _ => false) ["id"]
           [["attributes"; "key"]]
           [variable_of "var-1" "TOKEN" "ws-1" true;
            variable_of "var-2" "PASSWORD" "ws-2" true]).
  repeat constructor.
Defined.

Lemma missing_module_page_raises_index_error_witness :
  _extract_modules_data (client := registry_client) (libs := example_libs)
    default_settings 1 organization_1 tt
  = (tt, Raise IndexError).
Proof.
  apply (ExtractFacts.missing_module_page_raises_index_error
           (client := registry_client) (libs := example_libs)
           default_settings 0 organization_1
           [ ("attributes",
               VDict [ ("name", VStr "vpc"); ("namespace", VStr "acme");
                       ("provider", VStr "aws"); ("registry-name", VStr "private") ]);
             ("id", VStr "mod-1") ]
           [] tt tt tt NoContent).
  - reflexivity.
  - reflexivity.
  - reflexivity.
  - discriminate.
Defined.

Lemma only_listed_workspaces_are_extracted_witness :
  exists data,
    _extract_workspaces_data (client := organization_client) (libs := example_libs)
      (by_names ["alpha"; "gamma"]) 2 [("id", VStr "o")] tt
    = (tt, Ret data)
    /\ length data = 2
    /\ Forall (fun workspace =>
                 py_in (get workspace ["attributes"; "name"])
                   [VStr "alpha"; VStr "gamma"] = true) data.
Proof.
  destruct (_extract_workspaces_data (client := organization_client) (libs := example_libs)
              (by_names ["alpha"; "gamma"]) 2 [("id", VStr "o")] tt)
    as [σ' [data| |]] eqn:Hrun; try (vm_compute in Hrun; discriminate).
  exists data. split; [vm_compute in Hrun; now injection Hrun as <- <- |].
  split; [vm_compute in Hrun; now injection Hrun as _ <- |].
  apply (ExtractFacts.only_listed_workspaces_are_extracted
           (client := organization_client) (libs := example_libs)
           (by_names ["alpha"; "gamma"]) 2 [("id", VStr "o")]
           [VStr "alpha"; VStr "gamma"] (Some ".*") tt σ' data);
    [reflexivity | exact Hrun].
Defined.

Lemma no_variable_sets_without_the_flag_witness :
  exists data,
    _extract_data (client := organization_client) (libs := example_libs) default_settings 2 tt
    = (tt, Ret data)
    /\ collection "variable_sets" data = Some []
    /\ option_map (@length record) (collection "workspaces" data) = Some 3.
Proof.
  destruct (_extract_data (client := organization_client) (libs := example_libs)
              default_settings 2 tt)
    as [σ' [data| |]] eqn:Hrun; try (vm_compute in Hrun; discriminate).
  exists data. split; [vm_compute in Hrun; now injection Hrun as <- <- |].
  split.
  - exact (proj1 (ExtractFacts.no_variable_sets_without_the_flag
                    (client := organization_client) (libs := example_libs)
                    default_settings 2 tt σ' data eq_refl Hrun)).
  - vm_compute in Hrun. now injection Hrun as _ <-.
Defined.

End ExtractWitnesses.

(** ** Names, identifiers and migration ids *)

Module StrFacts.

Import Str StrSpec Mapper.

Lemma name_start_is_name_char c : is_name_start c = true -> is_name_char c = true.
Proof.
  unfold is_name_start, is_name_char. intros H.
  apply orb_prop in H as [->| ->]; [reflexivity | apply orb_true_r].
Qed.

Lemma newline_is_no_name_char : is_name_char newline = false.
Proof. reflexivity. Qed.

Lemma append_newline_cons c s w :
  String c s = w +:+ String newline "" ->
  (w = "" /\ c = newline /\ s = "")
  \/ exists w', w = String c w' /\ s = w' +:+ String newline "".
Proof.
  destruct w as [|c' w']; simpl; intros [= -> ->]; [left | right]; eauto.
Qed.

Lemma name_tail_spec s :
  name_tail s = true
  <-> all_chars is_name_char s = true
      \/ exists w, s = w +:+ String newline "" /\ all_chars is_name_char w = true.
Proof.
  induction s as [|c s IH]; simpl.
  - split; [now left | reflexivity].
  - destruct (is_name_char c) eqn:Hc; simpl.
    + rewrite IH. split.
      * intros [Hall | (w & -> & Hw)]; [now left | right].
        exists (String c w). simpl. now rewrite Hc.
      * intros [Hall | (w & Heq & Hw)]; [now left|].
        apply append_newline_cons in Heq as [(-> & -> & ->) | (w' & -> & ->)].
        -- now rewrite newline_is_no_name_char in Hc.
        -- right. exists w'. split; [reflexivity|]. simpl in Hw.
           now apply andb_prop in Hw.
    + split.
      * intros H. apply andb_prop in H as [Hnl Hs].
        apply Ascii.eqb_eq in Hnl. apply String.eqb_eq in Hs. subst.
        right. now exists "".
      * intros [Hall | (w & Heq & Hw)]; [discriminate|].
        apply append_newline_cons in Heq as [(-> & -> & ->) | (w' & -> & ->)].
        -- reflexivity.
        -- simpl in Hw. now rewrite Hc in Hw.
Qed.

(** X14.  The pattern for the names of environment variables accepts
    the names (a letter or an underscore, then letters, digits and
    underscores) and, [$] matching before a final newline, each name
    followed by one newline; it accepts nothing else. *)
Theorem env_var_pattern_accepts_a_final_newline s :
  valid_env_var_name s = true
  <-> is_name s = true
      \/ exists w, s = w +:+ String newline "" /\ is_name w = true.
Proof.
  destruct s as [|c s]; simpl.
  - split; [discriminate|]. intros [H | (w & Heq & _)]; [discriminate|].
    now destruct w.
  - split.
    + intros H. apply andb_prop in H as [Hc Htail].
      apply name_tail_spec in Htail as [Hall | (w & -> & Hw)].
      * left. now rewrite Hc.
      * right. exists (String c w). simpl. now rewrite Hc.
    + intros [H | (w & Heq & Hw)].
      * apply andb_prop in H as [Hc Hall]. rewrite Hc. simpl.
        apply name_tail_spec. now left.
      * destruct w as [|c' w]; [discriminate|]. simpl in Heq, Hw.
        injection Heq as <- ->. apply andb_prop in Hw as [Hc Hall].
        rewrite Hc. simpl. apply name_tail_spec. right. now exists w.
Qed.

Lemma unfixable_stays a :
  unfixable (if Ascii.eqb a hyphen then underscore else a) = unfixable a.
Proof. destruct (Ascii.eqb_spec a hyphen) as [->|]; reflexivity. Qed.

Lemma has_unfixable_replace s :
  has_char unfixable (replace_char hyphen underscore s) = has_char unfixable s.
Proof.
  induction s as [|a s IH]; simpl; [reflexivity|]. now rewrite unfixable_stays, IH.
Qed.

Lemma unfixable_no_name_char c : unfixable c = true -> is_name_char c = false.
Proof.
  unfold unfixable. intros H. apply andb_prop in H as [H _].
  apply andb_prop in H as [H _]. now apply negb_true_iff in H.
Qed.

Lemma unfixable_no_newline c : unfixable c = true -> Ascii.eqb c newline = false.
Proof.
  unfold unfixable. intros H. apply andb_prop in H as [_ H].
  now apply negb_true_iff in H.
Qed.

Lemma name_tail_unfixable s : has_char unfixable s = true -> name_tail s = false.
Proof.
  induction s as [|c s IH]; simpl; [discriminate|]. intros H.
  destruct (unfixable c) eqn:Hc.
  - rewrite (unfixable_no_name_char _ Hc), (unfixable_no_newline _ Hc). reflexivity.
  - simpl in H. destruct (is_name_char c); [now apply IH|].
    destruct s; [discriminate|]. apply andb_false_r.
Qed.

Lemma invalid_when_unfixable s :
  has_char unfixable s = true -> valid_env_var_name s = false.
Proof.
  destruct s as [|c s]; simpl; [reflexivity|]. intros H.
  destruct (unfixable c) eqn:Hc.
  - destruct (is_name_start c) eqn:Hstart; [|reflexivity].
    apply name_start_is_name_char in Hstart.
    now rewrite (unfixable_no_name_char _ Hc) in Hstart.
  - simpl in H. rewrite (name_tail_unfixable _ H). apply andb_false_r.
Qed.

Lemma name_tail_fixed s :
  all_chars fixable s = true -> name_tail (replace_char hyphen underscore s) = true.
Proof.
  induction s as [|c s IH]; simpl; [reflexivity|]. intros H.
  apply andb_prop in H as [Hc Hs]. rewrite (IH Hs).
  destruct (Ascii.eqb_spec c hyphen) as [->|Hne]; [reflexivity|].
  unfold fixable, is_hyphen in Hc. apply orb_prop in Hc as [Hc|Hc].
  - now rewrite Hc.
  - apply Ascii.eqb_eq in Hc. contradiction.
Qed.

(** X15.  Replacing the hyphens by underscores, as the automatic fix
    does, gives a valid name whenever the key is made of letters,
    digits, underscores and hyphens and does not begin with a digit. *)
Theorem replacing_hyphens_repairs c s :
  all_chars fixable (String c s) = true ->
  is_digit c = false ->
  valid_env_var_name (replace_char hyphen underscore (String c s)) = true.
Proof.
  simpl. intros H Hdigit. apply andb_prop in H as [Hc Hs].
  rewrite (name_tail_fixed _ Hs), andb_true_r.
  destruct (Ascii.eqb_spec c hyphen) as [->|Hne]; [reflexivity|].
  unfold fixable, is_hyphen in Hc. apply orb_prop in Hc as [Hc|Hc].
  - unfold is_name_char in Hc. rewrite Hdigit, orb_false_r in Hc. exact Hc.
  - apply Ascii.eqb_eq in Hc. contradiction.
Qed.

Lemma no_hyphen_left s :
  has_char is_hyphen (replace_char hyphen underscore s) = false.
Proof.
  induction s as [|c s IH]; simpl; [reflexivity|]. rewrite IH, orb_false_r.
  unfold is_hyphen. destruct (Ascii.eqb_spec c hyphen) as [->|Hne]; [reflexivity|].
  now apply Ascii.eqb_neq.
Qed.

(** *** [split] and [join] *)

Lemma split_on_not_nil sep s : split_on sep s <> [].
Proof.
  destruct s as [|c s]; simpl; [discriminate|].
  destruct (Ascii.eqb c sep); [discriminate|]. now destruct (split_on sep s).
Qed.

Lemma concat_cons sep x y l :
  String.concat sep (x :: y :: l) = x +:+ sep +:+ String.concat sep (y :: l).
Proof. reflexivity. Qed.

Lemma concat_cons_char sep c seg segs :
  String.concat sep (String c seg :: segs) = String c (String.concat sep (seg :: segs)).
Proof. now destruct segs. Qed.

(** ["/".join(s.split("/")) == s]. *)
Lemma concat_split_on sep s :
  String.concat (String sep "") (split_on sep s) = s.
Proof.
  induction s as [|c s IH]; simpl; [reflexivity|].
  pose proof (split_on_not_nil sep s) as Hne.
  destruct (Ascii.eqb_spec c sep) as [->|Hc].
  - destruct (split_on sep s) as [|seg segs]; [congruence|].
    rewrite concat_cons, IH. reflexivity.
  - destruct (split_on sep s) as [|seg segs]; [congruence|].
    now rewrite concat_cons_char, IH.
Qed.

Lemma split_on_segments sep s :
  Forall (fun seg => has_char (fun c => Ascii.eqb c sep) seg = false) (split_on sep s).
Proof.
  induction s as [|c s IH]; simpl; [repeat constructor|].
  destruct (Ascii.eqb c sep) eqn:Hc.
  - apply Forall_cons_2; [reflexivity | exact IH].
  - destruct (split_on sep s) as [|seg segs]; [repeat constructor; simpl; now rewrite Hc|].
    apply Forall_cons_1 in IH as [Hseg Hsegs].
    apply Forall_cons_2; [simpl; now rewrite Hc | assumption].
Qed.

Lemma split_on_single sep s :
  has_char (fun c => Ascii.eqb c sep) s = false <-> split_on sep s = [s].
Proof.
  induction s as [|c s IH]; simpl; [tauto|].
  pose proof (split_on_not_nil sep s) as Hne.
  destruct (Ascii.eqb c sep) eqn:Hc; simpl.
  - split; [discriminate|]. destruct (split_on sep s); [congruence | discriminate].
  - rewrite IH. destruct (split_on sep s) as [|seg segs]; [congruence|].
    split; [now intros [= -> ->] | now intros [= -> ->]].
Qed.

Lemma append_assoc a b c : (a +:+ b) +:+ c = a +:+ b +:+ c.
Proof.
  induction a as [|x a IH]; [reflexivity|].
  change (String x ((a +:+ b) +:+ c) = String x (a +:+ b +:+ c)). now f_equal.
Qed.

Lemma concat_removelast_last sep l x y :
  String.concat sep (removelast (x :: y :: l)) +:+ sep +:+ List.last (x :: y :: l) ""
  = String.concat sep (x :: y :: l).
Proof.
  revert x y. induction l as [|z l IH]; intros x y; [reflexivity|].
  change (removelast (x :: y :: z :: l)) with (x :: y :: removelast (z :: l)).
  rewrite concat_cons.
  change (y :: removelast (z :: l)) with (removelast (y :: z :: l)).
  change (List.last (x :: y :: z :: l) "") with (List.last (y :: z :: l) "").
  now rewrite !append_assoc, IH.
Qed.

Lemma last_in {A} (l : list A) d : l <> [] -> In (List.last l d) l.
Proof.
  induction l as [|x l IH]; [congruence|]. intros _.
  destruct l as [|y l]; [now left|]. right. apply IH. discriminate.
Qed.

Section Mapper.

Context {libs : Libs}.

(** X16.  Whatever [slugify] returns, a migration id holds no
    hyphen. *)
Theorem migration_id_has_no_hyphen (args : list string) :
  has_char is_hyphen (_generate_migration_id args) = false.
Proof. apply no_hyphen_left. Qed.

(** X17.  For a workspace on GitLab, [_determine_provider] cuts the
    identifier at its last slash: the repository is what follows it
    and holds no slash, the namespace is all that precedes it (nested
    groups included), and the two joined by a slash give the
    identifier back; without a slash the namespace is empty.  The
    instance is flagged as using GitLab. *)
Theorem gitlab_identifier_is_cut_at_the_last_slash (info : record) (s : string) (st : flags) :
  get info ["attributes"; "vcs-repo"; "service-provider"] = VStr "gitlab_hosted" ->
  get info ["attributes"; "vcs-repo"; "identifier"] = VStr s ->
  s <> "" ->
  exists vcs_namespace vcs_repository,
    _determine_provider info st
    = ({| is_gitlab := true; is_ado := is_ado st |},
       Ret [ ("vcs_namespace", VStr vcs_namespace);
             ("vcs_repository", VStr vcs_repository);
             ("provider", VStr "gitlab") ])
    /\ has_char is_slash vcs_repository = false
    /\ (if has_char is_slash s
        then vcs_namespace +:+ "/" +:+ vcs_repository = s
        else vcs_namespace = "" /\ vcs_repository = s).
Proof.
  intros Hprovider Hidentifier Hs.
  exists (String.concat "/" (removelast (split_on "/" s))),
         (List.last (split_on "/" s) "").
  split; [|split].
  - unfold _determine_provider, bind, lift. rewrite Hprovider, Hidentifier. simpl.
    destruct (String.eqb_spec s ""); [contradiction | reflexivity].
  - pose proof (split_on_segments "/" s) as Hsegs. rewrite Forall_forall in Hsegs.
    apply Hsegs, list_elem_of_In, last_in, split_on_not_nil.
  - destruct (has_char is_slash s) eqn:Hslash.
    + pose proof (concat_split_on "/" s) as Hjoin.
      pose proof (split_on_not_nil "/" s) as Hne.
      destruct (split_on "/" s) as [|x [|y l]] eqn:Hsplit; [congruence| |].
      * simpl in Hjoin. subst x. apply split_on_single in Hsplit.
        unfold is_slash in Hslash. congruence.
      * now rewrite concat_removelast_last.
    + apply split_on_single in Hslash. rewrite Hslash. now split.
Qed.

(** X18.  For a workspace on any supported provider other than
    GitLab, an identifier without a slash makes [_determine_provider]
    raise [IndexError]. *)
Theorem identifier_without_slash_raises
    (info : record) (p p' s : string) (st : flags) :
  get info ["attributes"; "vcs-repo"; "service-provider"] = VStr p ->
  assoc p supported_providers = Some p' ->
  p' <> "gitlab" ->
  get info ["attributes"; "vcs-repo"; "identifier"] = VStr s ->
  s <> "" ->
  has_char is_slash s = false ->
  snd (_determine_provider info st) = Raise IndexError.
Proof.
  intros Hprovider Hassoc Hp' Hidentifier Hs Hslash.
  apply split_on_single in Hslash.
  assert (Hid : truthy (VStr s) = true).
  { simpl. destruct (String.eqb_spec s ""); [contradiction | reflexivity]. }
  unfold _determine_provider, bind, lift. rewrite Hprovider, Hassoc, Hidentifier.
  cbn [segments_of]. rewrite Hslash, Hid.
  assert (Hcases : p' = "github_custom" \/ p' = "bitbucket_datacenter"
                   \/ p' = "azure_devops").
  { unfold supported_providers in Hassoc. simpl in Hassoc.
    repeat match type of Hassoc with
           | (if ?b then _ else _) = _ => destruct b
           end; try discriminate; injection Hassoc as <-; tauto. }
  destruct Hcases as [-> | [-> | ->]]; reflexivity.
Qed.

End Mapper.

End StrFacts.

(** ** More about the mapper *)

Module MapperMoreFacts.

Import Mapper Str StrSpec ExpanderSpec.

Lemma Forall2_In_l {A B} (P : A -> B -> Prop) l l' a :
  Forall2 P l l' -> In a l -> exists b, In b l' /\ P a b.
Proof.
  induction 1 as [|x y l l' Hxy _ IH]; intros Hin; [destruct Hin|].
  destruct Hin as [->|Hin].
  - exists y. split; [now left | assumption].
  - destruct (IH Hin) as (b & Hb & Hab). exists b. split; [now right | assumption].
Qed.

Lemma omap_list_raises {A B} (f : A -> outcome B) l a :
  (forall x, f x <> Diverge) ->
  In a l ->
  (exists e, f a = Raise e) ->
  exists e, omap_list f l = Raise e.
Proof.
  intros Htotal. induction l as [|x l IH]; intros Hin Hraise; [destruct Hin|].
  simpl. destruct (f x) as [b|e|] eqn:Hx; simpl.
  - destruct Hin as [->|Hin]; [destruct Hraise; congruence|].
    destruct (IH Hin Hraise) as [e ->]. simpl. eauto.
  - eauto.
  - now destruct (Htotal x).
Qed.

Section Mapper.

Context {libs : Libs}.

(** *** Stacks *)

Lemma map_stack_provider cfg src_data workspace st st' stack :
  map_stack cfg src_data workspace st = (st', Ret stack) ->
  exists vcs_info,
    _determine_provider workspace st = (st', Ret vcs_info)
    /\ get stack ["name"] = get workspace ["attributes"; "name"]
    /\ (exists name, get workspace ["attributes"; "name"] = VStr name)
    /\ get stack ["_relationships"] = VDict [("space", space_id_of workspace)].
Proof.
  unfold map_stack, bind, lift. intros H.
  destruct (find_workspace_variable_with_invalid_name _ _ "plain") as [plain| |];
    try discriminate.
  destruct (find_workspace_variable_with_invalid_name _ _ "secret") as [secret| |];
    try discriminate.
  destruct (_determine_provider workspace st) as [st1 [vcs_info| |]]; try discriminate.
  destruct (select_workflow_tool _) as [[version tool]| |]; try discriminate.
  unfold _build_stack_slug in H.
  destruct (get workspace ["attributes"; "name"]) as [| | |name| |] eqn:Hname;
    try discriminate.
  unfold ret in H. injection H as <- <-.
  exists vcs_info. repeat split; eauto.
Qed.

Lemma oflat_map_total {A B} (f : A -> outcome (list B)) l :
  (forall x, f x <> Diverge) -> oflat_map f l <> Diverge.
Proof.
  intros Htotal. induction l as [|x l IH]; simpl; [discriminate|].
  destruct (f x) eqn:Hx; simpl; [|discriminate | now destruct (Htotal x)].
  destruct (oflat_map f l); simpl; [discriminate | discriminate | congruence].
Qed.

Lemma find_invalid_total src_data workspace_id type_ :
  find_workspace_variable_with_invalid_name src_data workspace_id type_ <> Diverge.
Proof.
  unfold find_workspace_variable_with_invalid_name, iterate.
  destruct (collection "workspace_variables" src_data); simpl; [|discriminate].
  apply oflat_map_total. intros variable.
  destruct (_ || _); [discriminate|]. destruct (py_eq _ _); [|discriminate].
  unfold name_is_invalid. destruct (get variable ["attributes"; "key"]); discriminate.
Qed.

Lemma determine_provider_total info st : snd (_determine_provider info st) <> Diverge.
Proof.
  unfold _determine_provider, bind, lift, ret.
  destruct (match get info ["attributes"; "vcs-repo"; "service-provider"] with
            | VNone => _ | _ => _ end) as [provider| |] eqn:Hprovider; simpl.
  2: discriminate.
  2: { destruct (get info ["attributes"; "vcs-repo"; "service-provider"]);
         try discriminate. destruct (assoc _ _); discriminate. }
  unfold segments_of, segment.
  destruct (py_eq provider (VStr "gitlab")), (py_eq provider (VStr "azure_devops"));
    destruct (truthy (get info ["attributes"; "vcs-repo"; "identifier"])); simpl;
    try discriminate;
    destruct (get info ["attributes"; "vcs-repo"; "identifier"]); simpl;
    try discriminate;
    match goal with
    | |- context [Str.split_on ?c ?s] =>
        destruct (Str.split_on c s) as [|? [|? [|? [|? ?]]]]
    end; simpl; discriminate.
Qed.

Lemma map_stack_total cfg src_data workspace st :
  snd (map_stack cfg src_data workspace st) <> Diverge.
Proof.
  unfold map_stack, bind, lift, ret.
  pose proof (find_invalid_total src_data (get workspace ["id"]) "plain") as Hplain.
  pose proof (find_invalid_total src_data (get workspace ["id"]) "secret") as Hsecret.
  destruct (find_workspace_variable_with_invalid_name _ _ "plain"); simpl;
    [|discriminate | congruence].
  destruct (find_workspace_variable_with_invalid_name _ _ "secret"); simpl;
    [|discriminate | congruence].
  pose proof (determine_provider_total workspace st) as Hprovider.
  destruct (_determine_provider workspace st) as [st1 [vcs_info| |]]; simpl in *;
    [|discriminate | congruence].
  assert (Htool : select_workflow_tool (get workspace ["attributes"; "terraform-version"])
                  <> Diverge).
  { unfold select_workflow_tool. destruct (py_eq _ (VStr "latest")); [discriminate|].
    destruct (get workspace ["attributes"; "terraform-version"]) as [| | |v| |];
      try discriminate.
    destruct (_ || _); [discriminate|].
    destruct (semver_match v ">1.5.7") as [[|]|]; discriminate. }
  destruct (select_workflow_tool _) as [[version tool]| |]; simpl;
    [|discriminate | congruence].
  unfold _build_stack_slug.
  destruct (get workspace ["attributes"; "name"]); simpl; discriminate.
Qed.

Lemma mmap_list_total {S A B} (f : A -> M S B) l st :
  (forall a s, snd (f a s) <> Diverge) -> snd (mmap_list f l st) <> Diverge.
Proof.
  intros Htotal. revert st. induction l as [|a l IH]; intros st; simpl; [discriminate|].
  unfold bind. specialize (Htotal a st).
  destruct (f a st) as [s1 [b| |]]; simpl in *; [|discriminate | congruence].
  specialize (IH s1). destruct (mmap_list f l s1) as [s2 [bs| |]]; simpl in *;
    [discriminate | discriminate | congruence].
Qed.

(** X19.  One workspace whose VCS provider is not among the
    supported ones makes [_map_stacks_data] raise: no stack is mapped,
    not even for the other workspaces. *)
Theorem unknown_provider_aborts_the_mapping
    cfg src_data (workspaces : list record) (workspace : record) (p : string) st :
  iterate "workspaces" src_data = Ret workspaces ->
  In workspace workspaces ->
  get workspace ["attributes"; "vcs-repo"; "service-provider"] = VStr p ->
  assoc p supported_providers = None ->
  exists e, snd (_map_stacks_data cfg src_data st) = Raise e.
Proof.
  intros Hws Hin Hprovider Hassoc.
  unfold _map_stacks_data, bind, lift. rewrite Hws.
  pose proof (mmap_list_total (map_stack cfg src_data) workspaces st
                (map_stack_total cfg src_data)) as Htotal.
  destruct (mmap_list (map_stack cfg src_data) workspaces st) as [st' [stacks|e|]] eqn:Hmap;
    simpl in Htotal |- *; [|eauto | congruence].
  apply MapperFacts.mmap_list_Forall2 in Hmap.
  destruct (Forall2_In_l _ _ _ _ Hmap Hin) as (stack & _ & s & s' & Hstack).
  apply map_stack_provider in Hstack as (vcs_info & Hdet & _).
  unfold _determine_provider, bind, lift in Hdet.
  rewrite Hprovider, Hassoc in Hdet. discriminate.
Qed.

Lemma select_workflow_tool_values terraform_version version tool :
  select_workflow_tool terraform_version = Ret (version, tool) ->
  tool = "TERRAFORM_FOSS" \/ tool = "OPEN_TOFU".
Proof.
  unfold select_workflow_tool. destruct (py_eq terraform_version (VStr "latest")).
  { intros [= _ <-]. now left. }
  destruct terraform_version as [| | |v| |]; try discriminate.
  destruct (_ || _); [intros [= _ <-]; now right|].
  destruct (semver_match v ">1.5.7") as [[|]|]; try discriminate;
    intros [= _ <-]; tauto.
Qed.

Lemma mark_spaces_skip stacks data :
  Forall (fun stack =>
            py_eq (get stack ["terraform"; "workflow_tool"]) (VStr "CUSTOM") = false)
    stacks ->
  mark_spaces stacks data = Ret data.
Proof.
  induction 1 as [|stack stacks Hstack _ IH]; [reflexivity|].
  simpl. unfold mark_space_of. now rewrite Hstack.
Qed.

(** X20.  The stacks that [_map_stacks_data] returns never ask for
    the custom workflow tool, so marking the spaces changes nothing:
    [_mark_spaces_for_terraform_custom_workflow] returns the graph as
    it got it. *)
Theorem mapped_stacks_mark_no_space cfg src_data st st' stacks (data : dataset) :
  _map_stacks_data cfg src_data st = (st', Ret stacks) ->
  collection "stacks" data = Some stacks ->
  _mark_spaces_for_terraform_custom_workflow data = Ret data.
Proof.
  intros Hmap Hstacks. unfold _mark_spaces_for_terraform_custom_workflow, iterate.
  rewrite Hstacks. simpl. apply mark_spaces_skip.
  unfold _map_stacks_data, bind, lift in Hmap.
  destruct (iterate "workspaces" src_data) as [workspaces| |]; try discriminate.
  apply MapperFacts.mmap_list_Forall2 in Hmap. clear Hstacks.
  induction Hmap as [|workspace stack workspaces stacks' (s & s' & Hstack) _ IH];
    [constructor|].
  apply Forall_cons_2; [|exact IH].
  - apply MapperFacts.map_stack_inv in Hstack
      as (plain & secret & version & tool & _ & _ & Hsel & _ & _ & _ & _ & Htool).
    rewrite Htool.
    apply select_workflow_tool_values in Hsel as [-> | ->]; reflexivity.
Qed.

(** *** The provider flags *)

Lemma determine_provider_flags info st st' r :
  _determine_provider info st = (st', r) ->
  (is_gitlab st = true -> is_gitlab st' = true)
  /\ (is_ado st = true -> is_ado st' = true).
Proof.
  unfold _determine_provider, bind, lift, ret.
  destruct (match get info ["attributes"; "vcs-repo"; "service-provider"] with
            | VNone => _ | _ => _ end) as [provider| |].
  2,3: intros [= <- _]; tauto.
  destruct (py_eq provider (VStr "gitlab") && _); [intros [= <- _]; simpl; tauto|].
  destruct (py_eq provider (VStr "azure_devops") && _); [intros [= <- _]; simpl; tauto|].
  destruct (_ && _); intros [= <- _]; tauto.
Qed.

Lemma determine_provider_gitlab info st st' r s :
  get info ["attributes"; "vcs-repo"; "service-provider"] = VStr "gitlab_hosted" ->
  get info ["attributes"; "vcs-repo"; "identifier"] = VStr s ->
  s <> "" ->
  _determine_provider info st = (st', r) ->
  is_gitlab st' = true.
Proof.
  intros Hprovider Hidentifier Hs. unfold _determine_provider, bind, lift.
  rewrite Hprovider, Hidentifier. simpl.
  destruct (String.eqb_spec s ""); [contradiction|]. simpl.
  now intros [= <- _].
Qed.

Lemma map_stacks_keep_gitlab cfg src_data workspaces st st' r :
  mmap_list (map_stack cfg src_data) workspaces st = (st', r) ->
  is_gitlab st = true -> is_gitlab st' = true.
Proof.
  revert st st' r.
  induction workspaces as [|workspace rest IH]; intros st st' r Hrun Hflag;
    simpl in Hrun.
  - now injection Hrun as <- _.
  - unfold bind in Hrun.
    destruct (map_stack cfg src_data workspace st) as [s1 r1] eqn:Hone.
    assert (H1 : is_gitlab s1 = true).
    { clear Hrun. unfold map_stack, bind, lift in Hone.
      destruct (find_workspace_variable_with_invalid_name _ _ "plain");
        [|injection Hone as <- _; assumption..].
      destruct (find_workspace_variable_with_invalid_name _ _ "secret");
        [|injection Hone as <- _; assumption..].
      destruct (_determine_provider workspace st) as [s2 r2] eqn:Hdet.
      apply determine_provider_flags in Hdet as [Hg _]. specialize (Hg Hflag).
      destruct r2; [|injection Hone as <- _; assumption..].
      destruct (select_workflow_tool _) as [[]| |];
        [|injection Hone as <- _; assumption..].
      destruct (_build_stack_slug workspace); injection Hone as <- _; assumption. }
    destruct r1 as [stack| |]; [|injection Hrun as <- _; assumption..].
    destruct (mmap_list _ rest s1) as [s2 r2] eqn:Hrest.
    specialize (IH _ _ _ Hrest H1).
    destruct r2; injection Hrun as <- _; assumption.
Qed.

Lemma map_stacks_find_gitlab cfg src_data workspaces workspace s st st' stacks :
  In workspace workspaces ->
  get workspace ["attributes"; "vcs-repo"; "service-provider"] = VStr "gitlab_hosted" ->
  get workspace ["attributes"; "vcs-repo"; "identifier"] = VStr s ->
  s <> "" ->
  mmap_list (map_stack cfg src_data) workspaces st = (st', Ret stacks) ->
  is_gitlab st' = true.
Proof.
  intros Hin Hprovider Hidentifier Hs. revert st st' stacks.
  induction workspaces as [|w rest IH]; intros st st' stacks Hrun; [destruct Hin|].
  simpl in Hrun. unfold bind in Hrun.
  destruct (map_stack cfg src_data w st) as [s1 [stack| |]] eqn:Hone; try discriminate.
  destruct (mmap_list _ rest s1) as [s2 [stacks'| |]] eqn:Hrest; try discriminate.
  injection Hrun as <- _.
  destruct Hin as [->|Hin].
  - eapply map_stacks_keep_gitlab; [exact Hrest|].
    apply map_stack_provider in Hone as (vcs_info & Hdet & _).
    eapply determine_provider_gitlab; eassumption.
  - eapply IH; eassumption.
Qed.

(** X21.  The provider of the modules follows the workspaces: when
    one workspace is on GitLab and none on Azure DevOps,
    [_map_modules_data], run after [_map_stacks_data] as [_map_data]
    does, gives every module the provider [gitlab], whatever the
    repository of the module. *)
Theorem one_gitlab_workspace_makes_every_module_gitlab
    cfg src_data (workspaces : list record) (workspace : record) (s : string)
    st st' stacks st'' modules :
  iterate "workspaces" src_data = Ret workspaces ->
  In workspace workspaces ->
  get workspace ["attributes"; "vcs-repo"; "service-provider"] = VStr "gitlab_hosted" ->
  get workspace ["attributes"; "vcs-repo"; "identifier"] = VStr s ->
  s <> "" ->
  _map_stacks_data cfg src_data st = (st', Ret stacks) ->
  is_ado st' = false ->
  _map_modules_data src_data st' = (st'', Ret modules) ->
  Forall (fun module => get module ["vcs"; "provider"] = VStr "gitlab") modules.
Proof.
  intros Hws Hin Hprovider Hidentifier Hs Hstacks Hado Hmodules.
  unfold _map_stacks_data, bind, lift in Hstacks. rewrite Hws in Hstacks.
  pose proof (map_stacks_find_gitlab _ _ _ _ _ _ _ _ Hin Hprovider Hidentifier Hs Hstacks)
    as Hgitlab.
  unfold _map_modules_data in Hmodules. rewrite Hgitlab, Hado in Hmodules.
  simpl in Hmodules. injection Hmodules as _ Hmodules.
  apply MapperFacts.obind_ret in Hmodules as (sources & _ & Hmodules).
  apply ExpanderFacts.omap_list_Forall2 in Hmodules.
  induction Hmodules as [|source module sources modules Hone _ IH]; [constructor|].
  apply Forall_cons_2; [|exact IH].
  unfold map_module in Hone. apply MapperFacts.obind_ret in Hone as ([ns repo] & _ & Hone).
  now injection Hone as <-.
Qed.

(** *** Stack variables *)

Lemma map_stack_variable_total cfg src_data variable :
  map_stack_variable cfg src_data variable <> Diverge.
Proof.
  unfold map_stack_variable, iterate.
  destruct (collection "workspaces" src_data); simpl; [|discriminate].
  destruct (get variable ["attributes"; "key"]); try discriminate.
  destruct (find_by_id _ _); discriminate.
Qed.

(** X22.  A variable that refers to a workspace that is not among
    the extracted ones makes [_map_stack_variables_data] raise: no
    variable is mapped. *)
Theorem orphan_variable_aborts_the_mapping
    cfg src_data (variables workspaces : list record) (variable : record) :
  iterate "workspace_variables" src_data = Ret variables ->
  iterate "workspaces" src_data = Ret workspaces ->
  In variable variables ->
  find_by_id workspaces (get variable ["relationships"; "workspace"; "data"; "id"])
  = None ->
  exists e, _map_stack_variables_data cfg src_data = Raise e.
Proof.
  intros Hvariables Hworkspaces Hin Horphan.
  unfold _map_stack_variables_data. rewrite Hvariables. simpl.
  apply (omap_list_raises _ _ variable);
    [apply map_stack_variable_total | assumption |].
  unfold map_stack_variable. rewrite Hworkspaces. simpl. rewrite Horphan.
  destruct (get variable ["attributes"; "key"]); eauto.
Qed.

(** X23.  With the automatic fix of the names switched on, a key
    holding a character that the fix cannot repair (a dot, a space:
    neither a letter, a digit, an underscore, a hyphen nor a newline)
    goes unnoticed: the stack is not flagged, whatever its variables,
    and the replacement name given to the variable is still
    invalid. *)
Theorem automatic_fix_hides_what_it_cannot_repair
    cfg src_data (workspace variable : record) (key : string) :
  auto_fix_variable_names cfg = true ->
  get variable ["attributes"; "key"] = VStr key ->
  has_char unfixable key = true ->
  (forall st st' stack,
     map_stack cfg src_data workspace st = (st', Ret stack) ->
     get stack ["has_variables_with_invalid_name"] = VBool false
     /\ get stack ["has_secret_variables_with_invalid_name"] = VBool false)
  /\ (forall mapped,
        map_stack_variable cfg src_data variable = Ret mapped ->
        get mapped ["valid_name"] = VBool false
        /\ exists replacement,
             get mapped ["replacement_name"] = VStr replacement
             /\ valid_env_var_name replacement = false).
Proof.
  intros Hfix Hkey Hbad. split.
  - intros st st' stack Hstack.
    apply MapperFacts.map_stack_inv in Hstack
      as (plain & secret & version & tool & _ & _ & _ & _ & Hplain & Hsecret & _).
    rewrite Hplain, Hsecret, Hfix, !andb_false_r. now split.
  - intros mapped Hmapped. unfold map_stack_variable in Hmapped.
    apply MapperFacts.obind_ret in Hmapped as (workspaces & _ & Hmapped).
    rewrite Hkey in Hmapped. destruct (find_by_id _ _) as [found|]; [|discriminate].
    injection Hmapped as <-.
    pose proof (StrFacts.invalid_when_unfixable _ Hbad) as Hinvalid.
    split; [unfold get; simpl; now rewrite Hinvalid|].
    exists (replace_char hyphen underscore key). split.
    + unfold get. simpl. unfold replacement_name_of. now rewrite Hfix, Hinvalid.
    + apply StrFacts.invalid_when_unfixable. now rewrite StrFacts.has_unfixable_replace.
Qed.

(** *** Contexts *)

Abbreviation copy_of variable_set migration_id := (fun context : record =>
  get context ["_migration_id"] = VStr migration_id
  /\ get context ["_relationships"; "stacks"] = VList []
  /\ get context ["labels"] = VList [VStr "autoattach:*"]
  /\ get context ["name"] = get variable_set ["attributes"; "name"]).

(** X24.  A variable set that is not global and is attached to
    projects is mapped to one context per project, whatever the number
    of projects; its attachments to workspaces are not carried over
    (no context lists a stack), and all the copies bear the same
    [_migration_id], the one of the variable set. *)
Theorem project_attachment_wins_over_workspaces
    (variable_set : record) (variable_set_id : string) (project : value)
    (projects : list value) (contexts : list record) :
  truthy (get variable_set ["attributes"; "global"]) = false ->
  get variable_set ["id"] = VStr variable_set_id ->
  get variable_set ["relationships"; "projects"; "data"] = VList (project :: projects) ->
  map_context variable_set = Ret contexts ->
  length contexts = S (length projects)
  /\ Forall (copy_of variable_set (_generate_migration_id [variable_set_id])) contexts.
Proof.
  intros Hglobal Hid Hprojects Hmap. unfold map_context in Hmap.
  rewrite Hglobal, (MapperFacts.attached_nonempty_list _ _ _ _ Hprojects) in Hmap.
  simpl in Hmap. rewrite Hprojects in Hmap. unfold each_dict in Hmap.
  apply ExpanderFacts.omap_list_Forall2 in Hmap.
  split; [symmetry; exact (Forall2_length _ _ _ Hmap)|].
  clear Hprojects. remember (project :: projects) as ps eqn:Hps. clear Hps.
  induction Hmap as [|p context ps contexts' Hone _ IH]; [constructor|].
  apply Forall_cons_2; [|exact IH].
  destruct p as [| | | | |p]; try discriminate.
  rewrite Hid in Hone. simpl in Hone.
  apply MapperFacts.obind_ret in Hone as (space & _ & Hone).
  injection Hone as <-. repeat split.
Qed.

(** X25.  For a variable set that is attached to no project, the
    context and the variables of the context agree: each variable
    refers to its context by the [_migration_id] that
    [_map_contexts_data] gives to the context. *)
Theorem context_variables_refer_to_their_context
    cfg src_data (variable_sets : list record) (variable_set variable : record)
    (contexts variables : list record) :
  iterate "variable_sets" src_data = Ret variable_sets ->
  find_by_id variable_sets (get variable ["relationships"; "varset"; "data"; "id"])
  = Some variable_set ->
  get variable_set ["id"] = get variable ["relationships"; "varset"; "data"; "id"] ->
  attached variable_set ["relationships"; "projects"; "data"] = Ret false ->
  map_context variable_set = Ret contexts ->
  map_context_variable cfg src_data variable = Ret variables ->
  Forall (fun context =>
    Forall (fun mapped =>
      get mapped ["_relationships"; "context"; "_migration_id"]
      = get context ["_migration_id"]) variables) contexts.
Proof.
  intros Hsets Hfound Hid Hprojects Hcontexts Hvariables.
  unfold map_context_variable in Hvariables. rewrite Hsets in Hvariables.
  simpl in Hvariables. rewrite Hfound in Hvariables.
  destruct (get variable ["attributes"; "key"]) as [| | |key| |]; try discriminate.
  rewrite Hprojects in Hvariables. simpl in Hvariables.
  apply MapperFacts.obind_ret in Hvariables as (mid & _ & Hvariables).
  apply MapperFacts.obind_ret in Hvariables as (space & _ & Hvariables).
  apply MapperFacts.obind_ret in Hvariables as (context_ref & Href & Hvariables).
  injection Hvariables as <-.
  unfold migration_ref in Href.
  apply MapperFacts.obind_ret in Href as (ref_id & Href & Hctx).
  injection Hctx as <-.
  unfold map_context in Hcontexts. rewrite <- Hid in Href.
  destruct (truthy (get variable_set ["attributes"; "global"])).
  - rewrite Href in Hcontexts. simpl in Hcontexts.
    apply MapperFacts.obind_ret in Hcontexts as (space' & _ & Hcontexts).
    injection Hcontexts as <-. repeat constructor.
  - rewrite Hprojects in Hcontexts. simpl in Hcontexts.
    destruct (attached variable_set ["relationships"; "workspaces"; "data"])
      as [[|]| |]; simpl in Hcontexts; try discriminate.
    + apply MapperFacts.obind_ret in Hcontexts as (stacks & _ & Hcontexts).
      rewrite Href in Hcontexts. simpl in Hcontexts.
      apply MapperFacts.obind_ret in Hcontexts as (space' & _ & Hcontexts).
      injection Hcontexts as <-. repeat constructor.
    + injection Hcontexts as <-. constructor.
Qed.

(** *** From the mapper to the expander *)

(** X26.  What [_map_stacks_data] and [_map_stack_variables_data]
    return is what the expander needs: every record has a name that is
    a string, and refers to spaces and stacks only, so that it can be
    expanded in any graph that has these two collections. *)
Theorem mapped_stacks_and_variables_are_expandable
    cfg src_data st st' stacks stack_variables (data : dataset) :
  _map_stacks_data cfg src_data st = (st', Ret stacks) ->
  _map_stack_variables_data cfg src_data = Ret stack_variables ->
  collection "spaces" data <> None ->
  collection "stacks" data <> None ->
  Forall (expandable data) stacks /\ Forall (expandable data) stack_variables.
Proof.
  intros Hstacks Hvariables Hspaces Hstack_collection. split.
  - unfold _map_stacks_data, bind, lift in Hstacks.
    destruct (iterate "workspaces" src_data) as [workspaces| |]; try discriminate.
    apply MapperFacts.mmap_list_Forall2 in Hstacks.
    induction Hstacks as [|workspace stack workspaces stacks' (s & s' & Hone) _ IH];
      [constructor|].
    apply Forall_cons_2; [|exact IH].
    apply map_stack_provider in Hone as (vcs_info & _ & Hname & [name Hstring] & Hrels).
    split; [exists name; congruence|].
    exists [("space", space_id_of workspace)]. split.
    + unfold relationship_entries. now rewrite Hrels.
    + repeat constructor. exact Hspaces.
  - unfold _map_stack_variables_data in Hvariables.
    apply MapperFacts.obind_ret in Hvariables as (variables & _ & Hvariables).
    apply ExpanderFacts.omap_list_Forall2 in Hvariables.
    induction Hvariables as [|variable mapped variables mappeds Hone _ IH];
      [constructor|].
    apply Forall_cons_2; [|exact IH].
    unfold map_stack_variable in Hone.
    apply MapperFacts.obind_ret in Hone as (workspaces & _ & Hone).
    destruct (get variable ["attributes"; "key"]) as [| | |key| |] eqn:Hkey;
      try discriminate.
    destruct (find_by_id _ _) as [workspace|]; [|discriminate].
    injection Hone as <-. split.
    + exists key. unfold get. simpl. fold (get variable ["attributes"; "key"]).
      exact Hkey.
    + eexists. split; [reflexivity|]. repeat constructor; assumption.
Qed.

End Mapper.

End MapperMoreFacts.

(** ** The checks *)

Module CheckFacts.

Import Mapper Checks.

Lemma Forall2_common {A B C} (P : A -> B -> Prop) (Q : A -> C -> Prop)
    (R : B -> C -> Prop) l lb lc :
  (forall a b c, P a b -> Q a c -> R b c) ->
  Forall2 P l lb -> Forall2 Q l lc -> Forall2 R lb lc.
Proof.
  intros HR HP. revert lc. induction HP as [|a b l lb Hab _ IH]; intros lc HQ.
  - inversion HQ. constructor.
  - inversion HQ as [|a' c l' lc' Hac HQ']; subst. constructor; eauto.
Qed.

Lemma dict_set_twice k v v' d : dict_set k v (dict_set k v' d) = dict_set k v d.
Proof.
  induction d as [|[k0 v0] d IH]; simpl.
  - now rewrite String.eqb_refl.
  - destruct (String.eqb k k0) eqn:Hk; simpl; rewrite Hk; [reflexivity | now rewrite IH].
Qed.

Lemma set_collection_same name l data :
  collection name data = Some l -> set_collection name l data = data.
Proof.
  induction data as [|[k l'] data IH]; simpl; [reflexivity|].
  destruct (String.eqb name k); [now intros [= ->] | intros H; now rewrite IH].
Qed.

Lemma get_attributes_with_warnings warnings item rest :
  get (with_warnings warnings item) ("attributes" :: rest)
  = get item ("attributes" :: rest).
Proof.
  unfold with_warnings. rewrite !ProjectFacts.get_cons.
  now rewrite ExpanderFacts.dict_get_set_ne.
Qed.

Lemma get_warnings warnings item :
  get (with_warnings warnings item) ["warnings"] = VStr (String.concat ", " warnings).
Proof.
  unfold with_warnings.
  now rewrite ProjectFacts.get_cons, ExpanderFacts.dict_get_set_eq.
Qed.

Lemma with_warnings_twice warnings warnings' item :
  with_warnings warnings (with_warnings warnings' item) = with_warnings warnings item.
Proof. apply dict_set_twice. Qed.

Lemma check_items_Forall2 warnings_of data checked :
  check_items warnings_of data = Ret checked ->
  Forall2 (fun item item' =>
             exists warnings,
               warnings_of item = Ret warnings /\ item' = with_warnings warnings item)
    data checked.
Proof.
  intros H. apply ExpanderFacts.omap_list_Forall2 in H.
  eapply Forall2_impl; [exact H|]. intros item item' Hone.
  apply MapperFacts.obind_ret in Hone as (warnings & Hw & [= <-]). eauto.
Qed.

(** Checking what was checked changes nothing, when the warnings do
    not depend on the warnings. *)
Lemma check_items_again warnings_of data checked :
  (forall warnings item, warnings_of (with_warnings warnings item) = warnings_of item) ->
  check_items warnings_of data = Ret checked ->
  check_items warnings_of checked = Ret checked.
Proof.
  intros Hindep H. apply check_items_Forall2 in H. unfold check_items.
  induction H as [|item item' data checked (warnings & Hw & ->) _ IH]; [reflexivity|].
  simpl. rewrite Hindep, Hw. simpl. rewrite with_warnings_twice.
  unfold check_items in IH. now rewrite IH.
Qed.

Lemma check_collection_fixed name check data items :
  collection name data = Some items ->
  check items = Ret items ->
  check_collection name check data = Ret data.
Proof.
  intros Hitems Hcheck. unfold check_collection, iterate.
  rewrite Hitems. simpl. rewrite Hcheck. simpl. now rewrite set_collection_same.
Qed.

Lemma check_collection_inv name check data data' :
  check_collection name check data = Ret data' ->
  exists items checked,
    collection name data = Some items
    /\ check items = Ret checked
    /\ data' = set_collection name checked data
    /\ collection name data' = Some checked.
Proof.
  unfold check_collection, iterate. intros H.
  destruct (collection name data) as [items|] eqn:Hitems; [|discriminate].
  simpl in H. apply MapperFacts.obind_ret in H as (checked & Hcheck & [= <-]).
  exists items, checked. repeat split; try assumption.
  apply ExpanderFacts.collection_set_eq. congruence.
Qed.

Section Checks.

Context {libs : Libs}.

Lemma agent_pool_warnings_indep warnings item :
  agent_pool_warnings (with_warnings warnings item) = agent_pool_warnings item.
Proof. unfold agent_pool_warnings. now rewrite get_attributes_with_warnings. Qed.

Lemma module_warnings_indep warnings item :
  module_warnings (with_warnings warnings item) = module_warnings item.
Proof. unfold module_warnings. now rewrite get_attributes_with_warnings. Qed.

Lemma policy_warnings_indep warnings item :
  policy_warnings (with_warnings warnings item) = policy_warnings item.
Proof. unfold policy_warnings. now rewrite get_attributes_with_warnings. Qed.

Lemma workspace_warnings_indep warnings item :
  workspace_warnings (with_warnings warnings item) = workspace_warnings item.
Proof. unfold workspace_warnings. now rewrite !get_attributes_with_warnings. Qed.

Lemma workspace_variable_warnings_indep warnings item :
  workspace_variable_warnings (with_warnings warnings item)
  = workspace_variable_warnings item.
Proof. unfold workspace_variable_warnings. now rewrite get_attributes_with_warnings. Qed.

(** X27.  [_check_data] is idempotent: checking a graph that was
    checked gives the same graph, with the same warnings and no
    more. *)
Theorem checking_twice_changes_nothing (data checked : dataset) :
  _check_data data = Ret checked ->
  _check_data checked = Ret checked.
Proof.
  unfold _check_data. intros H.
  apply MapperFacts.obind_ret in H as (data1 & H1 & H).
  apply MapperFacts.obind_ret in H as (data2 & H2 & H).
  apply MapperFacts.obind_ret in H as (data3 & H3 & H).
  apply MapperFacts.obind_ret in H as (data4 & H4 & H5).
  apply check_collection_inv in H1 as (i1 & c1 & _ & Hc1 & -> & Hs1).
  apply check_collection_inv in H2 as (i2 & c2 & _ & Hc2 & -> & Hs2).
  apply check_collection_inv in H3 as (i3 & c3 & _ & Hc3 & -> & Hs3).
  apply check_collection_inv in H4 as (i4 & c4 & _ & Hc4 & -> & Hs4).
  apply check_collection_inv in H5 as (i5 & c5 & _ & Hc5 & -> & Hs5).
  apply check_items_again in Hc1; [|apply agent_pool_warnings_indep].
  apply check_items_again in Hc2; [|apply module_warnings_indep].
  apply check_items_again in Hc3; [|apply policy_warnings_indep].
  apply check_items_again in Hc4; [|apply workspace_warnings_indep].
  apply check_items_again in Hc5; [|apply workspace_variable_warnings_indep].
  rewrite (check_collection_fixed "agent_pools" _ _ c1);
    [|now rewrite !ExpanderFacts.collection_set_ne by discriminate | exact Hc1].
  simpl.
  rewrite (check_collection_fixed "modules" _ _ c2);
    [|now rewrite !ExpanderFacts.collection_set_ne by discriminate | exact Hc2].
  simpl.
  rewrite (check_collection_fixed "policies" _ _ c3);
    [|now rewrite !ExpanderFacts.collection_set_ne by discriminate | exact Hc3].
  simpl.
  rewrite (check_collection_fixed "workspaces" _ _ c4);
    [|now rewrite !ExpanderFacts.collection_set_ne by discriminate | exact Hc4].
  simpl.
  now apply (check_collection_fixed "workspace_variables" _ _ c5).
Qed.

(** X28.  The check and the mapper agree on the names of the
    variables: a workspace variable gets the warning about its key
    from [_check_workspace_variables_data] exactly when
    [_map_stack_variables_data] maps it with [valid_name] false. *)
Theorem name_check_agrees_with_the_mapper
    cfg src_data (variables checked mapped : list record) :
  iterate "workspace_variables" src_data = Ret variables ->
  _check_workspace_variables_data variables = Ret checked ->
  _map_stack_variables_data cfg src_data = Ret mapped ->
  Forall2 (fun item stack_variable =>
             (get item ["warnings"] = VStr "Key is an invalid env var name"
              /\ get stack_variable ["valid_name"] = VBool false)
             \/ (get item ["warnings"] = VStr ""
                 /\ get stack_variable ["valid_name"] = VBool true))
    checked mapped.
Proof.
  intros Hvariables Hchecked Hmapped.
  unfold _map_stack_variables_data in Hmapped. rewrite Hvariables in Hmapped.
  simpl in Hmapped. apply ExpanderFacts.omap_list_Forall2 in Hmapped.
  apply check_items_Forall2 in Hchecked.
  eapply Forall2_common; [|exact Hchecked | exact Hmapped].
  intros variable item stack_variable (warnings & Hw & ->) Hone. simpl in Hone.
  rewrite get_warnings.
  unfold map_stack_variable in Hone.
  apply MapperFacts.obind_ret in Hone as (workspaces & _ & Hone).
  unfold workspace_variable_warnings in Hw.
  destruct (get variable ["attributes"; "key"]) as [| | |key| |]; try discriminate.
  destruct (find_by_id _ _) as [workspace|]; [|discriminate].
  injection Hone as <-. simpl in Hw. injection Hw as <-.
  unfold get. simpl. destruct (Str.valid_env_var_name key); [right | left]; now split.
Qed.

(** X29.  Provided [semver.match] finds at or above 1.5.7 whatever
    it finds above 1.5.7, a workspace that [_map_stacks_data] maps to
    OpenTofu is one that [_check_workspaces_data] warns of a BSL
    Terraform version for. *)
Theorem open_tofu_stacks_were_warned_about
    cfg src_data (workspace : record) st st' stack :
  (forall v, semver_match v ">1.5.7" = Some true ->
             semver_match v ">=1.5.7" = Some true) ->
  map_stack cfg src_data workspace st = (st', Ret stack) ->
  get stack ["terraform"; "workflow_tool"] = VStr "OPEN_TOFU" ->
  exists warnings,
    _check_workspaces_data [workspace] = Ret [with_warnings warnings workspace]
    /\ In "BSL Terraform version" warnings.
Proof.
  intros Hsemver Hstack Htool.
  apply MapperFacts.map_stack_inv in Hstack
    as (plain & secret & version & tool & _ & _ & Hsel & _ & _ & _ & _ & Htool').
  rewrite Htool' in Htool. injection Htool as ->.
  assert (Hbsl : exists warning,
             check_for_bsl_terraform (get workspace ["attributes"; "terraform-version"])
             = Ret (true, warning)).
  { unfold select_workflow_tool in Hsel. unfold check_for_bsl_terraform.
    destruct (py_eq _ (VStr "latest")) eqn:Hlatest; [discriminate|].
    destruct (get workspace ["attributes"; "terraform-version"]) as [| | |v| |];
      try discriminate.
    destruct (_ || _); [eauto|].
    simpl in Hlatest. rewrite Hlatest.
    destruct (semver_match v ">1.5.7") as [[|]|] eqn:Habove; try discriminate.
    rewrite (Hsemver _ Habove). eauto. }
  destruct Hbsl as [warning Hbsl].
  unfold _check_workspaces_data, check_items. simpl. unfold workspace_warnings.
  rewrite Hbsl. simpl. eexists. split; [reflexivity|].
  apply in_or_app. right. apply in_or_app. right. now left.
Qed.

End Checks.

End CheckFacts.

Module StrWitnesses.

Import Str StrSpec Mapper Examples MoreExamples.

#[local] Existing Instance example_libs.

Lemma env_var_pattern_accepts_a_final_newline_witness :
  valid_env_var_name ("TOKEN" +:+ String newline "") = true
  /\ valid_env_var_name ("TOKEN" +:+ String newline (String newline "")) = false.
Proof.
  split.
  - apply StrFacts.env_var_pattern_accepts_a_final_newline. right.
    exists "TOKEN". split; reflexivity.
  - destruct (valid_env_var_name ("TOKEN" +:+ String newline (String newline "")))
      eqn:Hvalid; [|reflexivity].
    apply StrFacts.env_var_pattern_accepts_a_final_newline in Hvalid
      as [Hname | (w & Heq & Hname)]; [discriminate|].
    do 6 (destruct w as [|? w]; [discriminate|]; injection Heq as <- Heq).
    destruct w as [|? w]; [discriminate|]. injection Heq as _ Heq. now destruct w.
Defined.

Lemma replacing_hyphens_repairs_witness :
  valid_env_var_name (replace_char hyphen underscore "my-api-key") = true.
Proof.
  apply (StrFacts.replacing_hyphens_repairs "m" "y-api-key"); reflexivity.
Defined.

Lemma gitlab_identifier_is_cut_at_the_last_slash_witness :
  exists vcs_namespace vcs_repository,
    snd (_determine_provider
           (workspace_on "ws-2" "cluster" "gitlab_hosted" "acme/platform/cluster")
           no_flags)
    = Ret [ ("vcs_namespace", VStr vcs_namespace);
            ("vcs_repository", VStr vcs_repository);
            ("provider", VStr "gitlab") ]
    /\ has_char is_slash vcs_repository = false
    /\ vcs_namespace +:+ "/" +:+ vcs_repository = "acme/platform/cluster".
Proof.
  destruct (StrFacts.gitlab_identifier_is_cut_at_the_last_slash
              (workspace_on "ws-2" "cluster" "gitlab_hosted" "acme/platform/cluster")
              "acme/platform/cluster" no_flags)
    as (vcs_namespace & vcs_repository & Hrun & Hrepository & Hjoin).
  - reflexivity.
  - reflexivity.
  - discriminate.
  - exists vcs_namespace, vcs_repository. rewrite Hrun.
    split; [reflexivity|]. split; [exact Hrepository | exact Hjoin].
Defined.

Lemma identifier_without_slash_raises_witness :
  snd (_determine_provider (workspace_on "ws-1" "network" "github" "network") no_flags)
  = Raise IndexError.
Proof.
  apply (StrFacts.identifier_without_slash_raises
           (workspace_on "ws-1" "network" "github" "network")
           "github" "github_custom" "network" no_flags);
    try reflexivity; discriminate.
Defined.

End StrWitnesses.

Module MapperMoreWitnesses.

Import Str StrSpec Mapper ExpanderSpec Examples MoreExamples.

#[local] Existing Instance example_libs.

Lemma unknown_provider_aborts_the_mapping_witness :
  exists e,
    snd (_map_stacks_data auto_fix_off unknown_provider_data no_flags) = Raise e.
Proof.
  apply (MapperMoreFacts.unknown_provider_aborts_the_mapping
           auto_fix_off unknown_provider_data
           [ workspace_on "ws-1" "network" "github" "acme/network";
             workspace_on "ws-2" "cluster" "gitea" "acme/cluster" ]
           (workspace_on "ws-2" "cluster" "gitea" "acme/cluster") "gitea" no_flags).
  - reflexivity.
  - simpl. tauto.
  - reflexivity.
  - reflexivity.
Defined.

Lemma versions_stacks :
  exists stacks,
    _map_stacks_data auto_fix_off versions_data no_flags = (no_flags, Ret stacks).
Proof. eexists. vm_compute. reflexivity. Defined.

Lemma mapped_stacks_mark_no_space_witness :
  exists stacks,
    _map_stacks_data auto_fix_off versions_data no_flags = (no_flags, Ret stacks)
    /\ _mark_spaces_for_terraform_custom_workflow
         [("spaces", [map_space organization_1]); ("stacks", stacks)]
       = Ret [("spaces", [map_space organization_1]); ("stacks", stacks)].
Proof.
  destruct versions_stacks as [stacks Hstacks]. exists stacks.
  split; [exact Hstacks|].
  apply (MapperMoreFacts.mapped_stacks_mark_no_space
           auto_fix_off versions_data no_flags no_flags stacks);
    [exact Hstacks | reflexivity].
Defined.

Lemma mixed_providers_stacks :
  exists stacks,
    _map_stacks_data auto_fix_off mixed_providers_data no_flags
    = ({| is_gitlab := true; is_ado := false |}, Ret stacks).
Proof. eexists. vm_compute. reflexivity. Defined.

Lemma mixed_providers_modules :
  exists modules,
    _map_modules_data mixed_providers_data {| is_gitlab := true; is_ado := false |}
    = ({| is_gitlab := true; is_ado := false |}, Ret modules)
    /\ length modules = 1.
Proof. eexists. vm_compute. split; reflexivity. Defined.

Lemma one_gitlab_workspace_makes_every_module_gitlab_witness :
  exists modules,
    _map_modules_data mixed_providers_data {| is_gitlab := true; is_ado := false |}
    = ({| is_gitlab := true; is_ado := false |}, Ret modules)
    /\ length modules = 1
    /\ Forall (fun module => get module ["vcs"; "provider"] = VStr "gitlab") modules.
Proof.
  destruct mixed_providers_stacks as [stacks Hstacks].
  destruct mixed_providers_modules as (modules & Hmodules & Hlength).
  exists modules. split; [exact Hmodules|]. split; [exact Hlength|].
  apply (MapperMoreFacts.one_gitlab_workspace_makes_every_module_gitlab
           auto_fix_off mixed_providers_data
           [ workspace_on "ws-1" "network" "github" "acme/network";
             workspace_on "ws-2" "cluster" "gitlab_hosted" "acme/platform/cluster" ]
           (workspace_on "ws-2" "cluster" "gitlab_hosted" "acme/platform/cluster")
           "acme/platform/cluster" no_flags
           {| is_gitlab := true; is_ado := false |} stacks
           {| is_gitlab := true; is_ado := false |} modules).
  - reflexivity.
  - simpl. tauto.
  - reflexivity.
  - reflexivity.
  - discriminate.
  - exact Hstacks.
  - reflexivity.
  - exact Hmodules.
Defined.

Lemma orphan_variable_aborts_the_mapping_witness :
  exists e, _map_stack_variables_data auto_fix_off orphan_variable_data = Raise e.
Proof.
  apply (MapperMoreFacts.orphan_variable_aborts_the_mapping
           auto_fix_off orphan_variable_data
           [ variable_of "var-1" "REGION" "ws-1" false;
             variable_of "var-2" "ZONE" "ws-9" false ]
           [workspace_with_version "ws-1" "network" "1.5.7"]
           (variable_of "var-2" "ZONE" "ws-9" false)).
  - reflexivity.
  - reflexivity.
  - simpl. tauto.
  - reflexivity.
Defined.

Lemma dotted_name_stack :
  exists stack,
    map_stack auto_fix_on dotted_name_data
      (workspace_with_version "ws-1" "network" "1.5.7") no_flags
    = (no_flags, Ret stack).
Proof. eexists. vm_compute. reflexivity. Defined.

Lemma dotted_name_variable :
  exists mapped,
    map_stack_variable auto_fix_on dotted_name_data
      (variable_of "var-1" "my.var" "ws-1" false)
    = Ret mapped.
Proof. eexists. vm_compute. reflexivity. Defined.

Lemma automatic_fix_hides_what_it_cannot_repair_witness :
  exists stack mapped,
    map_stack auto_fix_on dotted_name_data
      (workspace_with_version "ws-1" "network" "1.5.7") no_flags
    = (no_flags, Ret stack)
    /\ map_stack_variable auto_fix_on dotted_name_data
         (variable_of "var-1" "my.var" "ws-1" false)
       = Ret mapped
    /\ get stack ["has_variables_with_invalid_name"] = VBool false
    /\ get mapped ["valid_name"] = VBool false.
Proof.
  destruct dotted_name_stack as [stack Hstack].
  destruct dotted_name_variable as [mapped Hmapped].
  destruct (MapperMoreFacts.automatic_fix_hides_what_it_cannot_repair
              auto_fix_on dotted_name_data
              (workspace_with_version "ws-1" "network" "1.5.7")
              (variable_of "var-1" "my.var" "ws-1" false) "my.var"
              eq_refl eq_refl eq_refl) as [Hflags Hname].
  exists stack, mapped. split; [exact Hstack|]. split; [exact Hmapped|]. split.
  - exact (proj1 (Hflags _ _ _ Hstack)).
  - exact (proj1 (Hname _ Hmapped)).
Defined.

Lemma doubly_attached_contexts :
  exists contexts, map_context doubly_attached_variable_set = Ret contexts.
Proof. eexists. vm_compute. reflexivity. Defined.

Lemma project_attachment_wins_over_workspaces_witness :
  exists contexts,
    map_context doubly_attached_variable_set = Ret contexts
    /\ length contexts = 3
    /\ Forall (fun context => get context ["_relationships"; "stacks"] = VList [])
         contexts.
Proof.
  destruct doubly_attached_contexts as [contexts Hcontexts].
  destruct (MapperMoreFacts.project_attachment_wins_over_workspaces
              doubly_attached_variable_set "varset-3"
              (VDict [("id", VStr "prj-a")])
              [VDict [("id", VStr "prj-b")]; VDict [("id", VStr "prj-c")]]
              contexts eq_refl eq_refl eq_refl Hcontexts) as [Hlength Hall].
  exists contexts. split; [exact Hcontexts|]. split; [exact Hlength|].
  eapply Forall_impl; [exact Hall|]. intros context (_ & Hstacks & _). exact Hstacks.
Defined.

Lemma local_contexts :
  exists context, map_context workspace_variable_set = Ret [context].
Proof. eexists. vm_compute. reflexivity. Defined.

Lemma local_variables :
  exists mapped, map_context_variable auto_fix_off local_data local_variable = Ret [mapped].
Proof. eexists. vm_compute. reflexivity. Defined.

Lemma context_variables_refer_to_their_context_witness :
  exists context mapped,
    map_context workspace_variable_set = Ret [context]
    /\ map_context_variable auto_fix_off local_data local_variable = Ret [mapped]
    /\ get mapped ["_relationships"; "context"; "_migration_id"]
       = get context ["_migration_id"].
Proof.
  destruct local_contexts as [context Hcontext].
  destruct local_variables as [mapped Hmapped].
  exists context, mapped. split; [exact Hcontext|]. split; [exact Hmapped|].
  pose proof (MapperMoreFacts.context_variables_refer_to_their_context
                auto_fix_off local_data [workspace_variable_set]
                workspace_variable_set local_variable [context] [mapped]
                eq_refl eq_refl eq_refl eq_refl Hcontext Hmapped) as Hall.
  apply Forall_cons_1 in Hall as [Hall _].
  apply Forall_cons_1 in Hall as [Hone _]. exact Hone.
Defined.

Lemma versions_variables :
  exists stack_variables,
    _map_stack_variables_data auto_fix_off versions_data = Ret stack_variables.
Proof. eexists. vm_compute. reflexivity. Defined.

Lemma mapped_stacks_and_variables_are_expandable_witness :
  exists stacks,
    _map_stacks_data auto_fix_off versions_data no_flags = (no_flags, Ret stacks)
    /\ length stacks = 4
    /\ Forall (expandable [("spaces", []); ("stacks", stacks)]) stacks.
Proof.
  destruct versions_stacks as [stacks Hstacks].
  destruct versions_variables as [stack_variables Hvariables].
  exists stacks. split; [exact Hstacks|]. split.
  - vm_compute in Hstacks. now injection Hstacks as <-.
  - apply (MapperMoreFacts.mapped_stacks_and_variables_are_expandable
             auto_fix_off versions_data no_flags no_flags stacks stack_variables
             [("spaces", []); ("stacks", stacks)] Hstacks Hvariables);
      discriminate.
Defined.

End MapperMoreWitnesses.

Module CheckWitnesses.

Import Mapper Checks Examples MoreExamples.

#[local] Existing Instance checking_libs.

Lemma unchecked_data_checked :
  exists checked, _check_data unchecked_data = Ret checked.
Proof. eexists. vm_compute. reflexivity. Defined.

Lemma checking_twice_changes_nothing_witness :
  exists checked,
    _check_data unchecked_data = Ret checked
    /\ _check_data checked = Ret checked.
Proof.
  destruct unchecked_data_checked as [checked Hchecked]. exists checked.
  split; [exact Hchecked|].
  exact (CheckFacts.checking_twice_changes_nothing unchecked_data checked Hchecked).
Defined.

(** What the check leaves on the example: the warnings, joined. *)
Example unchecked_data_warnings :
  match _check_data unchecked_data with
  | Ret checked =>
      map (fun item => get item ["warnings"])
        (default [] (collection "workspaces" checked)
         ++ default [] (collection "workspace_variables" checked))
      = [ VStr "No VCS configuration, BSL Terraform version";
          VStr ("No VCS configuration, BSL Terraform version, "
                +:+ "Pessimistic version, unable to determine if it's BSL Terraform");
          VStr "Key is an invalid env var name";
          VStr "" ]
  | _ => False
  end.
Proof. vm_compute. reflexivity. Qed.

Lemma name_check_agrees_with_the_mapper_witness :
  exists checked mapped,
    _check_workspace_variables_data
      [ variable_of "var-1" "bad-name" "ws-1" false;
        variable_of "var-2" "REGION" "ws-2" false ] = Ret checked
    /\ _map_stack_variables_data auto_fix_off unchecked_data = Ret mapped
    /\ length mapped = 2
    /\ Forall2 (fun item stack_variable =>
                  (get item ["warnings"] = VStr "Key is an invalid env var name"
                   /\ get stack_variable ["valid_name"] = VBool false)
                  \/ (get item ["warnings"] = VStr ""
                      /\ get stack_variable ["valid_name"] = VBool true))
         checked mapped.
Proof.
  assert (Hchecked : exists checked,
             _check_workspace_variables_data
               [ variable_of "var-1" "bad-name" "ws-1" false;
                 variable_of "var-2" "REGION" "ws-2" false ] = Ret checked)
    by (eexists; vm_compute; reflexivity).
  assert (Hmapped : exists mapped,
             _map_stack_variables_data auto_fix_off unchecked_data = Ret mapped
             /\ length mapped = 2)
    by (eexists; vm_compute; split; reflexivity).
  destruct Hchecked as [checked Hchecked]. destruct Hmapped as (mapped & Hmapped & Hlen).
  exists checked, mapped. split; [exact Hchecked|]. split; [exact Hmapped|].
  split; [exact Hlen|].
  exact (CheckFacts.name_check_agrees_with_the_mapper auto_fix_off unchecked_data
           _ checked mapped eq_refl Hchecked Hmapped).
Defined.

Lemma semver_at_least_is_above v :
  semver_at_least v ">1.5.7" = Some true -> semver_at_least v ">=1.5.7" = Some true.
Proof.
  unfold semver_at_least. simpl.
  destruct (example_semver_match v ">1.5.7") as [[|]|]; try discriminate. reflexivity.
Defined.

Lemma open_tofu_stacks_were_warned_about_witness :
  exists warnings,
    _check_workspaces_data [workspace_with_version "ws-1" "network" "1.6.0"]
    = Ret [with_warnings warnings (workspace_with_version "ws-1" "network" "1.6.0")]
    /\ In "BSL Terraform version" warnings.
Proof.
  assert (Hstack : exists stack,
             map_stack auto_fix_off unchecked_data
               (workspace_with_version "ws-1" "network" "1.6.0") no_flags
             = (no_flags, Ret stack)
             /\ get stack ["terraform"; "workflow_tool"] = VStr "OPEN_TOFU")
    by (eexists; vm_compute; split; reflexivity).
  destruct Hstack as (stack & Hstack & Htool).
  exact (CheckFacts.open_tofu_stacks_were_warned_about auto_fix_off unchecked_data
           (workspace_with_version "ws-1" "network" "1.6.0") no_flags no_flags stack
           semver_at_least_is_above Hstack Htool).
Defined.

End CheckWitnesses.

(** ** The saga of the variable sets *)

Module VarsetSagaFacts.

Import Mapper VarsetSaga VarsetSagaSpec.

(** *** The shared calls tear nothing down in the [try] suite *)

Section Platform.

Variable E' : Saga.env.

Lemma exited_later h new container_name :
  exited E' h container_name -> exited E' (h ++ new) container_name.
Proof.
  intros (h1 & h2 & -> & Hexit). exists h1, (h2 ++ new). now rewrite app_assoc.
Qed.

Lemma platform_keeps_same_world s s' :
  Saga.st_world s' = Saga.st_world s -> platform_keeps E' s s'.
Proof.
  intros Hworld. unfold platform_keeps. rewrite Hworld.
  split; [reflexivity|]. split; [now left|].
  exists []. split; [now rewrite app_nil_r|]. split; intros ? [].
Qed.

Lemma platform_keeps_refl s : platform_keeps E' s s.
Proof. now apply platform_keeps_same_world. Qed.

Lemma platform_keeps_trans s1 s2 s3 :
  platform_keeps E' s1 s2 -> platform_keeps E' s2 s3 -> platform_keeps E' s1 s3.
Proof.
  intros (Hp1 & Hc1 & new1 & Ht1 & Hpool1 & Hrun1)
         (Hp2 & Hc2 & new2 & Ht2 & Hpool2 & Hrun2).
  assert (Hlater : forall name,
             name ∈ Saga.containers (Saga.st_world s2)
             \/ exited E' (Saga.trace (Saga.st_world s2)) name ->
             name ∈ Saga.containers (Saga.st_world s3)
             \/ exited E' (Saga.trace (Saga.st_world s3)) name).
  { intros name [Hin|Hexit]; [now apply Hc2|]. right. rewrite Ht2.
    now apply exited_later. }
  split; [now transitivity (Saga.agent_pools (Saga.st_world s2))|].
  split; [intros name Hin; now apply Hlater, Hc1|].
  exists (new1 ++ new2). split; [now rewrite Ht2, Ht1, app_assoc|]. split.
  - intros o Hin. apply in_app_or in Hin as [Hin|Hin]; [|now apply Hpool2].
    apply Hp2. now apply Hpool1.
  - intros n Hin. apply in_app_or in Hin as [Hin|Hin]; [|now apply Hrun2].
    now apply Hlater, Hrun1.
Qed.

Lemma ret_keeps {A} (a : A) s s' r :
  ret a s = (s', r) -> platform_keeps E' s s'.
Proof. intros [= <- _]. apply platform_keeps_refl. Qed.

Lemma raise_keeps {A} e s s' (r : outcome A) :
  raise e s = (s', r) -> platform_keeps E' s s'.
Proof. intros [= <- _]. apply platform_keeps_refl. Qed.

Lemma bind_keeps {A B} (m : M Saga.state A) (k : A -> M Saga.state B) s s' r :
  (forall s s' r, m s = (s', r) -> platform_keeps E' s s') ->
  (forall a s s' r, k a s = (s', r) -> platform_keeps E' s s') ->
  bind m k s = (s', r) -> platform_keeps E' s s'.
Proof.
  intros Hm Hk Hrun. unfold bind in Hrun.
  destruct (m s) as [s1 [a|e|]] eqn:Hfirst.
  - eapply platform_keeps_trans; [eapply Hm | eapply Hk]; eassumption.
  - injection Hrun as <- _. eapply Hm; eassumption.
  - injection Hrun as <- _. eapply Hm; eassumption.
Qed.

(** A call that is no creation, whose effect takes nothing away. *)
Lemma call_keeps c effect s s' r :
  creates c = false ->
  (forall w, Saga.agent_pools w ⊆ Saga.agent_pools (effect w)
             /\ Saga.containers w ⊆ Saga.containers (effect w)
             /\ Saga.trace (effect w) = Saga.trace w) ->
  Saga.external E' c effect s = (s', r) -> platform_keeps E' s s'.
Proof.
  intros Hc Heffect Hrun. unfold Saga.external in Hrun. cbv zeta in Hrun.
  destruct (Heffect (Saga.st_world s)) as (Hpools & Hcontainers & Htrace).
  assert (Hnew : forall ok : bool,
             (forall organization_id,
                In (Saga.CCreatePool organization_id, true) [(c, ok)] -> False)
             /\ (forall container_name,
                   In (Saga.CDockerRun container_name, true) [(c, ok)] -> False)).
  { intros ok. split; intros ? [Heq|[]]; inversion Heq; subst; discriminate. }
  destruct (Saga.fault E' _ c); [destruct (Saga.applied E' _ c)|];
    injection Hrun as <- _.
  - split; [exact Hpools|]. split; [intros name Hin; left; now apply Hcontainers|].
    exists [(c, false)]. split; [simpl; now rewrite Htrace|].
    split; intros x Hin; now destruct (Hnew false) as [H1 H2]; (apply H1 in Hin || apply H2 in Hin).
  - split; [reflexivity|]. split; [now left|].
    exists [(c, false)]. split; [reflexivity|].
    split; intros x Hin; now destruct (Hnew false) as [H1 H2]; (apply H1 in Hin || apply H2 in Hin).
  - split; [exact Hpools|]. split; [intros name Hin; left; now apply Hcontainers|].
    exists [(c, true)]. split; [simpl; now rewrite Htrace|].
    split; intros x Hin; now destruct (Hnew true) as [H1 H2]; (apply H1 in Hin || apply H2 in Hin).
Qed.

Lemma plain_call_keeps c s s' r :
  creates c = false ->
  Saga.external E' c id s = (s', r) -> platform_keeps E' s s'.
Proof. intros Hc. apply call_keeps; [assumption|]. intros w. now repeat split. Qed.

(** The containers that exited by themselves are gone. *)
Lemma settle_keeps s : platform_keeps E' s (Saga.with_world (Saga.settle E') s).
Proof.
  split; [reflexivity|]. split.
  - intros name Hin. simpl.
    destruct (Saga.exits E' (Saga.trace (Saga.st_world s)) name) eqn:Hexit.
    + right. exists (Saga.trace (Saga.st_world s)), []. now rewrite app_nil_r.
    + left. apply elem_of_filter. now split.
  - exists []. split; [simpl; now rewrite app_nil_r|]. split; intros ? [].
Qed.

Lemma runtime_keeps c s s' r :
  creates c = false ->
  Saga.runtime E' c id s = (s', r) -> platform_keeps E' s s'.
Proof.
  intros Hc Hrun. unfold Saga.runtime in Hrun.
  eapply platform_keeps_trans; [apply settle_keeps|]. now apply plain_call_keeps in Hrun.
Qed.

Lemma on_container_keeps container_name c s s' r :
  creates c = false ->
  Saga.on_container E' container_name c id s = (s', r) -> platform_keeps E' s s'.
Proof.
  intros Hc Hrun. unfold Saga.on_container in Hrun. cbv zeta in Hrun.
  eapply platform_keeps_trans; [apply settle_keeps|].
  destruct (bool_decide _); [now apply plain_call_keeps in Hrun|].
  injection Hrun as <- _. split; [reflexivity|]. split; [now left|].
  eexists. split; [reflexivity|].
  split; intros ? [Heq|[]]; inversion Heq; subst; discriminate.
Qed.

Lemma create_agent_pool_keeps organization_id s s' r :
  Saga._create_agent_pool E' organization_id s = (s', r) -> platform_keeps E' s s'.
Proof.
  unfold Saga._create_agent_pool, bind, Saga.external, ret. cbv zeta. intros Hrun.
  destruct (Saga.fault E' _ _); [destruct (Saga.applied E' _ _)|];
    injection Hrun as <- _; simpl.
  - split; [apply union_subseteq_r|]. split; [now left|].
    eexists. split; [reflexivity|]. split; intros ? [[=]|[]].
  - split; [reflexivity|]. split; [now left|].
    eexists. split; [reflexivity|]. split; intros ? [[=]|[]].
  - split; [apply union_subseteq_r|]. split; [now left|].
    eexists. split; [reflexivity|]. split.
    + intros o [Heq|[]]. inversion Heq; subst. simpl.
      apply elem_of_union. left. now apply elem_of_singleton.
    + intros n [[=]|[]].
Qed.

Lemma docker_run_keeps container_name s s' r :
  Saga.runtime E' (Saga.CDockerRun container_name)
    (Saga.set_containers (fun cs => {[ container_name ]} ∪ cs)) s
  = (s', r) ->
  platform_keeps E' s s'.
Proof.
  intros Hrun. unfold Saga.runtime in Hrun.
  eapply platform_keeps_trans; [apply settle_keeps|].
  revert Hrun. generalize (Saga.with_world (Saga.settle E') s). clear s. intros s Hrun.
  unfold Saga.external in Hrun. cbv zeta in Hrun.
  destruct (Saga.fault E' _ _); [destruct (Saga.applied E' _ _)|];
    injection Hrun as <- _; simpl.
  - split; [reflexivity|]. split; [intros name Hin; left; now apply elem_of_union_r|].
    eexists. split; [reflexivity|]. split; intros ? [[=]|[]].
  - split; [reflexivity|]. split; [now left|].
    eexists. split; [reflexivity|]. split; intros ? [[=]|[]].
  - split; [reflexivity|]. split; [intros name Hin; left; now apply elem_of_union_r|].
    eexists. split; [reflexivity|]. split.
    + intros o [[=]|[]].
    + intros n [Heq|[]]. inversion Heq; subst. left. simpl. apply elem_of_union. left.
      now apply elem_of_singleton.
Qed.

Lemma verify_started_keeps container_name remaining attempts s s' r :
  Saga.verify_started E' remaining attempts container_name s = (s', r) ->
  platform_keeps E' s s'.
Proof.
  revert attempts s s' r.
  induction remaining as [|remaining IH]; intros attempts s s' r Hrun;
    cbn [Saga.verify_started] in Hrun.
  - eapply raise_keeps; eassumption.
  - eapply bind_keeps; [| |exact Hrun].
    + intros ? ? ?. now apply runtime_keeps.
    + intros [] s1 s2 r2 Hrest. unfold bind, Saga.read in Hrest.
      destruct (Nat.ltb 10 (S attempts)); [eapply raise_keeps; eassumption|].
      destruct (bool_decide _); [eapply ret_keeps; eassumption | eapply IH; eassumption].
Qed.

Lemma start_agent_container_keeps pool_id container_name s s' r :
  Saga._start_agent_container E' pool_id container_name s = (s', r) ->
  platform_keeps E' s s'.
Proof.
  unfold Saga._start_agent_container, Saga._create_agent_token. intros Hrun.
  eapply bind_keeps; [| |exact Hrun].
  { intros ? ? ?. now apply plain_call_keeps. }
  intros [] s1 s2 r2 Hrest. eapply bind_keeps; [| |exact Hrest].
  - intros ? ? ?. apply docker_run_keeps.
  - intros [] s3 s4 r4 Hlast. eapply bind_keeps; [| |exact Hlast].
    + apply verify_started_keeps.
    + intros [] ? ? ?. apply ret_keeps.
Qed.

Lemma get_plan_keeps fuel id_ attempt s s' r :
  Saga._get_plan E' fuel id_ attempt s = (s', r) -> platform_keeps E' s s'.
Proof.
  revert attempt s s' r.
  induction fuel as [|fuel IH]; intros attempt s s' r Hrun;
    cbn [Saga._get_plan] in Hrun.
  - injection Hrun as <- _. apply platform_keeps_refl.
  - eapply bind_keeps; [| |exact Hrun].
    + intros ? ? ?. now apply plain_call_keeps.
    + intros [] s1 s2 r2. destruct (Saga.plan_status E' id_ attempt) as [status url].
      destruct (_ || _); [apply ret_keeps|].
      destruct (_ || _); [apply ret_keeps | apply IH].
Qed.

End Platform.

Section VarsetSaga.

Context {libs : Libs}.

Variable E : env.

Lemma keeps_refl st : keeps E st st.
Proof.
  split; [apply platform_keeps_refl|]. split; [reflexivity|].
  exists []. split; [now rewrite app_nil_r|]. intros ? ? ? [].
Qed.

Lemma keeps_trans st1 st2 st3 : keeps E st1 st2 -> keeps E st2 st3 -> keeps E st1 st3.
Proof.
  intros (Hp1 & Hw1 & own1 & Hc1 & Hnew1) (Hp2 & Hw2 & own2 & Hc2 & Hnew2).
  split; [eapply platform_keeps_trans; eassumption|].
  split; [now transitivity (smk_workspaces st2)|].
  exists (own1 ++ own2). split; [now rewrite Hc2, Hc1, app_assoc|].
  intros o p w Hin Hw. apply in_app_or in Hin as [Hin|Hin]; [|eapply Hnew2; eassumption].
  apply Hw2. eapply Hnew1; eassumption.
Qed.

(** Code that tears nothing down. *)
Abbreviation safe := (fun A (m : M state A) =>
  forall st st' r, m st = (st', r) -> keeps E st st').

Lemma safe_bind {A B} (m : M state A) (k : A -> M state B) :
  safe A m -> (forall a, safe B (k a)) -> safe B (bind m k).
Proof.
  intros Hm Hk st st' r Hrun. unfold bind in Hrun.
  destruct (m st) as [s1 [a|e|]] eqn:Hfirst.
  - eapply keeps_trans; [eapply Hm | eapply Hk]; eassumption.
  - injection Hrun as <- _. eapply Hm; eassumption.
  - injection Hrun as <- _. eapply Hm; eassumption.
Qed.

Lemma safe_ret {A} (a : A) : safe A (ret a).
Proof. intros st st' r [= <- _]. apply keeps_refl. Qed.

Lemma safe_raise {A} e : safe A (raise e).
Proof. intros st st' r [= <- _]. apply keeps_refl. Qed.

Lemma safe_pure {A} (f : state -> outcome A) : safe A (fun st => (st, f st)).
Proof. intros st st' r [= <- _]. apply keeps_refl. Qed.

Lemma safe_read {A} (f : state -> A) : safe A (read f).
Proof. intros st st' r [= <- _]. apply keeps_refl. Qed.

Lemma safe_assign f : safe unit (assign f).
Proof.
  intros st st' r [= <- _]. split; [apply platform_keeps_refl|].
  split; [reflexivity|]. exists []. split; [simpl; now rewrite app_nil_r|].
  intros ? ? ? [].
Qed.

Lemma safe_shared {A} (m : M Saga.state A) :
  (forall s s' r, m s = (s', r) -> platform_keeps (shared_env E) s s') ->
  safe A (shared m).
Proof.
  intros Hm st st' r Hrun. unfold shared in Hrun.
  destruct (m (platform st)) as [s' r'] eqn:Hfirst. injection Hrun as <- _.
  split; [simpl; eapply Hm; eassumption|]. split; [reflexivity|].
  exists []. split; [simpl; now rewrite app_nil_r|]. intros ? ? ? [].
Qed.

(** A call that creates no workspace and has no effect. *)
Lemma safe_external c :
  creates_workspace c = false -> safe unit (external E c id).
Proof.
  intros Hc st st' r Hrun. unfold external in Hrun.
  destruct (fault E (calls st) c); [destruct (applied E (calls st) c)|];
    injection Hrun as <- _;
    (split; [apply platform_keeps_refl|]; split; [reflexivity|];
     eexists; split; [reflexivity|];
     intros ? ? ? [Heq|[]]; inversion Heq; subst; discriminate).
Qed.

Lemma safe_create_workspace organization_id default_project_id :
  safe string (create_workspace E organization_id default_project_id).
Proof.
  unfold create_workspace. apply safe_bind.
  - intros st st' r Hrun. unfold external in Hrun.
    destruct (fault E (calls st) _); [destruct (applied E (calls st) _)|];
      injection Hrun as <- _.
    + split; [destruct (created_workspace E organization_id); apply platform_keeps_refl|].
      split; [destruct (created_workspace E organization_id);
              [apply union_subseteq_r | reflexivity]|].
      eexists. split; [destruct (created_workspace E organization_id); reflexivity|].
      intros ? ? ? [[=]|[]].
    + split; [apply platform_keeps_refl|]. split; [reflexivity|].
      eexists. split; [reflexivity|]. intros ? ? ? [[=]|[]].
    + destruct (created_workspace E organization_id) as [id_|] eqn:Hcreated.
      * split; [apply platform_keeps_refl|]. split; [apply union_subseteq_r|].
        eexists. split; [reflexivity|].
        intros o p w [Heq|[]] Hw. inversion Heq; subst.
        rewrite Hcreated in Hw. injection Hw as <-.
        simpl. apply elem_of_union. left. now apply elem_of_singleton.
      * split; [apply platform_keeps_refl|]. split; [reflexivity|].
        eexists. split; [reflexivity|].
        intros o p w [Heq|[]] Hw. inversion Heq; subst. congruence.
  - intros []. destruct (created_workspace E organization_id);
      [apply safe_ret | apply safe_raise].
Qed.

Lemma safe_reset s var_set_id backup :
  safe unit (reset_variable_set_relationships E s var_set_id backup).
Proof.
  unfold reset_variable_set_relationships.
  destruct backup; [now apply safe_external | apply safe_raise].
Qed.

Lemma safe_recover_values var_set_id run_id :
  safe unit (recover_values E var_set_id run_id).
Proof.
  unfold recover_values. apply safe_bind.
  - apply safe_shared. intros ? ? ?. now apply plain_call_keeps.
  - intros [] st st' r Hrun.
    destruct (scan_log _ _ _); injection Hrun as <- _; try apply keeps_refl.
    split; [now apply platform_keeps_same_world|]. split; [reflexivity|].
    exists []. split; [simpl; now rewrite app_nil_r|]. intros ? ? ? [].
Qed.

Lemma safe_enrich_variable_set fuel organization_id workspace_id var_set :
  safe unit (enrich_variable_set E fuel organization_id workspace_id var_set).
Proof.
  unfold enrich_variable_set.
  apply safe_bind; [apply safe_assign | intros []].
  apply safe_bind; [now apply safe_external | intros []].
  destruct (backup_of E _) as [backup|]; [|apply safe_raise].
  apply safe_bind; [apply safe_assign | intros []].
  apply safe_bind; [apply safe_assign | intros []].
  apply safe_bind; [now apply safe_external | intros []].
  apply safe_bind; [now apply safe_external | intros []].
  destruct (Saga.run_of _ _) as [[run_id plan_id]|]; [|apply safe_raise].
  apply safe_bind; [apply safe_shared, get_plan_keeps | intros log_read_url].
  apply safe_bind.
  { destruct (truthy log_read_url); [apply safe_recover_values | apply safe_ret]. }
  intros []. apply safe_bind; [apply safe_reset | intros []]. apply safe_assign.
Qed.

Lemma safe_enrich_variable_sets fuel organization_id workspace_id var_sets :
  safe unit (enrich_variable_sets E fuel organization_id workspace_id var_sets).
Proof.
  induction var_sets as [|var_set rest IH]; simpl; [apply safe_ret|].
  apply safe_bind; [apply safe_enrich_variable_set | intros []; exact IH].
Qed.

Lemma safe_enrich_organization fuel organization :
  safe unit (enrich_organization E fuel organization).
Proof.
  unfold enrich_organization.
  apply safe_bind; [now apply safe_external | intros []].
  apply safe_bind; [apply safe_shared, create_agent_pool_keeps | intros pool].
  apply safe_bind; [apply safe_assign | intros []].
  apply safe_bind; [apply safe_shared, start_agent_container_keeps | intros container].
  apply safe_bind; [apply safe_assign | intros []].
  apply safe_bind; [apply safe_create_workspace | intros workspace_id].
  apply safe_bind; [apply safe_assign | intros []].
  apply safe_bind; [now apply safe_external | intros []].
  apply safe_bind; [now apply safe_external | intros []].
  apply safe_bind; [apply safe_pure | intros variable_sets].
  apply safe_bind; [apply safe_enrich_variable_sets | intros []].
  apply safe_bind.
  { apply safe_shared. intros ? ? ?. now apply runtime_keeps. }
  intros []. apply safe_bind; [apply safe_read | intros running].
  destruct running; [|apply safe_ret].
  apply safe_shared. intros ? ? ?. now apply on_container_keeps.
Qed.

Lemma safe_enrich_organizations fuel organizations :
  safe unit (enrich_organizations E fuel organizations).
Proof.
  induction organizations as [|organization rest IH]; simpl; [apply safe_ret|].
  apply safe_bind; [apply safe_enrich_organization | intros []; exact IH].
Qed.

Lemma safe_saga_body fuel : safe unit (saga_body E fuel).
Proof.
  unfold saga_body. apply safe_bind; [apply safe_pure|].
  intros organizations. apply safe_enrich_organizations.
Qed.

(** *** The [finally] suite tears down what the variables hold *)

Lemma loses_refl l st : loses E l st st.
Proof.
  split; [reflexivity|]. split; [now left|]. split; [now left|]. split; [now left|].
  exists [], []. rewrite !app_nil_r. repeat split; intros ? [].
Qed.

Lemma loses_trans l st1 st2 st3 :
  loses E l st1 st2 -> loses E l st2 st3 -> loses E l st1 st3.
Proof.
  intros (Hv1 & Hp1 & Hc1 & Hw1 & fin1 & own1 & Ht1 & Ho1 & Hf1 & Hg1)
         (Hv2 & Hp2 & Hc2 & Hw2 & fin2 & own2 & Ht2 & Ho2 & Hf2 & Hg2).
  split; [congruence|]. split; [|split; [|split]].
  - intros p Hp. destruct (Hp1 p Hp) as [H|H]; [now apply Hp2 | now right].
  - intros c Hc. destruct (Hc1 c Hc) as [H|[H|H]]; [now apply Hc2 | now right; left |].
    right. right. rewrite Ht2. now apply exited_later.
  - intros w Hw. destruct (Hw1 w Hw) as [H|H]; [now apply Hw2 | now right].
  - exists (fin1 ++ fin2), (own1 ++ own2).
    split; [now rewrite Ht2, Ht1, app_assoc|].
    split; [now rewrite Ho2, Ho1, app_assoc|]. split.
    + intros c Hin. apply in_app_or in Hin as [Hin|Hin]; eauto.
    + intros c Hin. apply in_app_or in Hin as [Hin|Hin]; eauto.
Qed.

Abbreviation losing := (fun l A (m : M state A) =>
  forall st st' r, m st = (st', r) -> loses E l st st').

Lemma losing_bind l {A B} (m : M state A) (k : A -> M state B) :
  losing l A m -> (forall a, losing l B (k a)) -> losing l B (bind m k).
Proof.
  intros Hm Hk st st' r Hrun. unfold bind in Hrun.
  destruct (m st) as [s1 [a|e|]] eqn:Hfirst.
  - eapply loses_trans; [eapply Hm | eapply Hk]; eassumption.
  - injection Hrun as <- _. eapply Hm; eassumption.
  - injection Hrun as <- _. eapply Hm; eassumption.
Qed.

Lemma losing_ret l {A} (a : A) : losing l A (ret a).
Proof. intros st st' r [= <- _]. apply loses_refl. Qed.

Lemma losing_raise l {A} e : losing l A (raise e).
Proof. intros st st' r [= <- _]. apply loses_refl. Qed.

(** The calls made by a step that creates nothing: [fin] on the
    platform, [own] otherwise. *)
Lemma loses_calls l st st' :
  variables st' = variables st ->
  (forall pool,
     pool ∈ Saga.agent_pools (Saga.st_world (platform st)) ->
     pool ∈ Saga.agent_pools (Saga.st_world (platform st')) \/ agent_pool_id l = Some pool) ->
  (forall container,
     container ∈ Saga.containers (Saga.st_world (platform st)) ->
     container ∈ Saga.containers (Saga.st_world (platform st'))
     \/ agent_container l = Some container
     \/ exited (shared_env E) (Saga.trace (Saga.st_world (platform st'))) container) ->
  (forall workspace_id,
     workspace_id ∈ smk_workspaces st ->
     workspace_id ∈ smk_workspaces st' \/ new_workspace l = Some workspace_id) ->
  forall fin own,
    Saga.trace (Saga.st_world (platform st'))
    = Saga.trace (Saga.st_world (platform st)) ++ fin ->
    calls st' = calls st ++ own ->
    Forall (fun entry => creates (fst entry) = false) fin ->
    Forall (fun entry => creates_workspace (fst entry) = false) own ->
    loses E l st st'.
Proof.
  intros Hv Hp Hc Hw fin own Ht Ho Hfin Hown.
  split; [assumption|]. split; [assumption|]. split; [assumption|].
  split; [assumption|]. exists fin, own.
  split; [assumption|]. split; [assumption|].
  split.
  - intros c Hin. apply list_elem_of_In in Hin.
    exact (proj1 (Forall_forall _ _) Hfin _ Hin).
  - intros c Hin. apply list_elem_of_In in Hin.
    exact (proj1 (Forall_forall _ _) Hown _ Hin).
Qed.

Lemma gone_or_held (x held : string) (X : gset string) :
  x ∈ X -> x ∈ X ∖ {[ held ]} \/ Some held = Some x.
Proof.
  intros Hx. destruct (decide (x = held)) as [->|Hne]; [now right | left].
  apply elem_of_difference. split; [assumption|].
  intros Hin. apply elem_of_singleton in Hin. contradiction.
Qed.

#[local] Ltac kept := intros; now left.
#[local] Ltac extended := simpl; rewrite ?app_nil_r, <- ?app_assoc; reflexivity.
#[local] Ltac harmless := repeat constructor; assumption.

Lemma losing_external l c :
  creates_workspace c = false -> losing l unit (external E c id).
Proof.
  intros Hc st st' r Hrun. unfold external in Hrun.
  destruct (fault E (calls st) c); [destruct (applied E (calls st) c)|];
    injection Hrun as <- _.
  - eapply loses_calls with (fin := []) (own := [(c, false)]);
      [reflexivity | kept | kept | kept | extended | extended | harmless | harmless].
  - eapply loses_calls with (fin := []) (own := [(c, false)]);
      [reflexivity | kept | kept | kept | extended | extended | harmless | harmless].
  - eapply loses_calls with (fin := []) (own := [(c, true)]);
      [reflexivity | kept | kept | kept | extended | extended | harmless | harmless].
Qed.

Lemma losing_delete_workspace l workspace_id :
  new_workspace l = Some workspace_id ->
  losing l unit
    (external E (CDeleteWorkspace workspace_id)
       (with_smk_workspaces (fun ws => ws ∖ {[ workspace_id ]}))).
Proof.
  intros Hl st st' r Hrun. unfold external in Hrun.
  destruct (fault E (calls st) _); [destruct (applied E (calls st) _)|];
    injection Hrun as <- _.
  - eapply loses_calls with
      (fin := []) (own := [(CDeleteWorkspace workspace_id, false)]);
      [reflexivity | kept | kept | | extended | extended
      | repeat constructor | repeat constructor].
    intros w Hw. simpl. rewrite Hl. now apply gone_or_held.
  - eapply loses_calls with
      (fin := []) (own := [(CDeleteWorkspace workspace_id, false)]);
      [reflexivity | kept | kept | kept | extended | extended
      | repeat constructor | repeat constructor].
  - eapply loses_calls with
      (fin := []) (own := [(CDeleteWorkspace workspace_id, true)]);
      [reflexivity | kept | kept | | extended | extended
      | repeat constructor | repeat constructor].
    intros w Hw. simpl. rewrite Hl. now apply gone_or_held.
Qed.

(** The shared calls of the [finally] suite, on the platform. *)
Abbreviation platform_loses := (fun (l : locals) (s s' : Saga.state) =>
  (forall pool,
     pool ∈ Saga.agent_pools (Saga.st_world s) ->
     pool ∈ Saga.agent_pools (Saga.st_world s') \/ agent_pool_id l = Some pool)
  /\ (forall container,
        container ∈ Saga.containers (Saga.st_world s) ->
        container ∈ Saga.containers (Saga.st_world s')
        \/ agent_container l = Some container
        \/ exited (shared_env E) (Saga.trace (Saga.st_world s')) container)
  /\ exists fin,
       Saga.trace (Saga.st_world s') = Saga.trace (Saga.st_world s) ++ fin
       /\ Forall (fun entry => creates (fst entry) = false) fin).

Lemma losing_shared l {A} (m : M Saga.state A) :
  (forall s s' r, m s = (s', r) -> platform_loses l s s') -> losing l A (shared m).
Proof.
  intros Hm st st' r Hrun. unfold shared in Hrun.
  destruct (m (platform st)) as [s' r'] eqn:Hshared. injection Hrun as <- _.
  apply Hm in Hshared as (Hp & Hc & fin & Ht & Hfin).
  eapply loses_calls with (fin := fin) (own := []);
    [reflexivity | exact Hp | exact Hc | kept | exact Ht | extended | exact Hfin
    | constructor].
Qed.

Lemma platform_loses_trans l s1 s2 s3 :
  platform_loses l s1 s2 -> platform_loses l s2 s3 -> platform_loses l s1 s3.
Proof.
  intros (Hp1 & Hc1 & fin1 & Ht1 & Hf1) (Hp2 & Hc2 & fin2 & Ht2 & Hf2).
  split; [|split].
  - intros p Hp. destruct (Hp1 p Hp) as [H|H]; [now apply Hp2 | now right].
  - intros c Hc. destruct (Hc1 c Hc) as [H|[H|H]]; [now apply Hc2 | now right; left |].
    right. right. rewrite Ht2. now apply exited_later.
  - exists (fin1 ++ fin2). split; [now rewrite Ht2, Ht1, app_assoc|].
    apply Forall_app. now split.
Qed.

Lemma settle_loses l s :
  platform_loses l s (Saga.with_world (Saga.settle (shared_env E)) s).
Proof.
  split; [kept|]. split.
  - intros name Hin. simpl.
    destruct (Saga.exits (shared_env E) (Saga.trace (Saga.st_world s)) name) eqn:Hexit.
    + right. right. exists (Saga.trace (Saga.st_world s)), []. now rewrite app_nil_r.
    + left. apply elem_of_filter. now split.
  - exists []. split; [simpl; now rewrite app_nil_r | constructor].
Qed.

(** A call whose effect removes what the variables hold, at most. *)
Lemma external_loses l c effect s s' r :
  creates c = false ->
  (forall w, Saga.trace (effect w) = Saga.trace w) ->
  (forall w pool,
     pool ∈ Saga.agent_pools w ->
     pool ∈ Saga.agent_pools (effect w) \/ agent_pool_id l = Some pool) ->
  (forall w container,
     container ∈ Saga.containers w ->
     container ∈ Saga.containers (effect w) \/ agent_container l = Some container) ->
  Saga.external (shared_env E) c effect s = (s', r) -> platform_loses l s s'.
Proof.
  intros Hc Htrace Hpools Hcontainers Hrun. unfold Saga.external in Hrun.
  cbv zeta in Hrun.
  destruct (Saga.fault (shared_env E) _ c);
    [destruct (Saga.applied (shared_env E) _ c)|]; injection Hrun as <- _; simpl.
  - split; [apply Hpools|]. split.
    { intros n Hn. destruct (Hcontainers _ _ Hn) as [H|H]; [now left | now right; left]. }
    exists [(c, false)]. split; [now rewrite Htrace | harmless].
  - split; [kept|]. split; [kept|].
    exists [(c, false)]. split; [reflexivity | harmless].
  - split; [apply Hpools|]. split.
    { intros n Hn. destruct (Hcontainers _ _ Hn) as [H|H]; [now left | now right; left]. }
    exists [(c, true)]. split; [now rewrite Htrace | harmless].
Qed.

Lemma runtime_loses l c s s' r :
  creates c = false ->
  Saga.runtime (shared_env E) c id s = (s', r) -> platform_loses l s s'.
Proof.
  intros Hc Hrun. unfold Saga.runtime in Hrun.
  eapply platform_loses_trans; [apply settle_loses|].
  refine (external_loses l _ _ _ _ _ _ _ _ _ Hrun); [exact Hc | reflexivity | kept | kept].
Qed.

Lemma stop_loses l container s s' r :
  agent_container l = Some container ->
  Saga._stop_agent_container (shared_env E) container s = (s', r) ->
  platform_loses l s s'.
Proof.
  intros Hl Hrun. unfold Saga._stop_agent_container, bind in Hrun.
  destruct (Saga.runtime _ _ id s) as [s1 r1] eqn:Hinspect.
  apply (runtime_loses l) in Hinspect; [|reflexivity].
  destruct r1 as [[]|e|]; [|now injection Hrun as <- _ | now injection Hrun as <- _].
  eapply platform_loses_trans; [exact Hinspect|].
  unfold Saga.on_container in Hrun. cbv zeta in Hrun.
  eapply platform_loses_trans; [apply settle_loses|].
  destruct (bool_decide _).
  - refine (external_loses l _ _ _ _ _ _ _ _ _ Hrun); [reflexivity | reflexivity | kept |].
    intros w n Hn. simpl. rewrite Hl. now apply gone_or_held.
  - injection Hrun as <- _. split; [kept|]. split; [kept|].
    eexists. split; [reflexivity | repeat constructor].
Qed.

Lemma losing_stop l container :
  agent_container l = Some container ->
  losing l unit (shared (Saga._stop_agent_container (shared_env E) container)).
Proof.
  intros Hl st st' r.
  apply (losing_shared l (Saga._stop_agent_container (shared_env E) container)).
  intros s1 s2 r'. now apply stop_loses.
Qed.

Lemma losing_delete_pool l pool :
  agent_pool_id l = Some pool ->
  losing l unit (shared (Saga._delete_agent_pool (shared_env E) pool)).
Proof.
  intros Hl st st' r.
  apply (losing_shared l (Saga._delete_agent_pool (shared_env E) pool)).
  intros s1 s2 r' Hrun. unfold Saga._delete_agent_pool in Hrun.
  refine (external_loses l _ _ _ _ _ _ _ _ _ Hrun); [reflexivity | reflexivity | | kept].
  intros w p Hp. simpl. rewrite Hl. now apply gone_or_held.
Qed.

Lemma bind_read {A B} (f : state -> A) (k : A -> M state B) st :
  bind (read f) k st = k (f st) st.
Proof. reflexivity. Qed.

Lemma saga_cleanup_loses st st' r :
  saga_cleanup E st = (st', r) -> loses E (variables st) st st'.
Proof.
  unfold saga_cleanup. rewrite bind_read. generalize (variables st) as l.
  intros l. revert st st' r. apply losing_bind.
  { destruct (new_workspace l) eqn:Hw;
      [now apply losing_delete_workspace | apply losing_ret]. }
  intros []. apply losing_bind.
  { destruct (negb (var_set_reset l)); [|apply losing_ret].
    unfold reset_variable_set_relationships.
    destruct (variable_set_relationship_backup l);
      [now apply losing_external | apply losing_raise]. }
  intros []. apply losing_bind.
  { destruct (agent_container l) eqn:Hc; [now apply losing_stop | apply losing_ret]. }
  intros []. destruct (agent_pool_id l) eqn:Hp; [|apply losing_ret].
  destruct (String.eqb _ ""); [apply losing_ret | now apply losing_delete_pool].
Qed.

(** The [finally] suite runs once, after the loop over the
    organizations: of what the loop created, it tears down what the
    variables hold when the loop is left. *)
Lemma finally_is_outside_the_loop fuel st st' r :
  _enrich_variable_set_data E fuel st = (st', r) ->
  tears_down_the_last_or_exited E st st'.
Proof.
  unfold _enrich_variable_set_data. intros Hrun.
  assert (Hnothing : tears_down_the_last_or_exited E st st).
  { exists [], []. rewrite !app_nil_r. repeat split; intros; contradiction. }
  destruct (negb (Saga.container_runtime_available (shared_env E)));
    [now injection Hrun as <- _|].
  destruct (negb (Saga.confirmed (shared_env E))); [now injection Hrun as <- _|].
  clear Hnothing. unfold bind, assign, try_finally in Hrun.
  destruct (saga_body E fuel (with_variables (fun _ => initial_locals) st))
    as [s1 r1] eqn:Hbody.
  apply safe_saga_body in Hbody
    as ((_ & _ & new & Htrace & Hpools & Hcontainers) & _ & own & Hcalls & Hworkspaces).
  simpl in Htrace, Hcalls.
  assert (Hdiverge : tears_down_the_last_or_exited E st s1).
  { exists new, own. split; [assumption|]. split; [assumption|].
    split; [|split].
    - intros; left; eauto.
    - intros n Hin. destruct (Hcontainers n Hin) as [H|H]; [now left | now right; right].
    - intros; left; eauto. }
  destruct (saga_cleanup E s1) as [s2 r2] eqn:Hcleanup.
  apply saga_cleanup_loses in Hcleanup
    as (Hvars & Hp & Hc & Hw & fin & own' & Htrace' & Hcalls' & Hfin & Hown).
  assert (Hend : tears_down_the_last_or_exited E st s2).
  { exists (new ++ fin), (own ++ own').
    split; [now rewrite Htrace', Htrace, app_assoc|].
    split; [now rewrite Hcalls', Hcalls, app_assoc|].
    rewrite Hvars. split; [|split].
    - intros o Hin. apply in_app_or in Hin as [Hin|Hin]; [now apply Hp, Hpools|].
      now apply Hfin in Hin.
    - intros n Hin. apply in_app_or in Hin as [Hin|Hin]; [|now apply Hfin in Hin].
      destruct (Hcontainers n Hin) as [H|H]; [now apply Hc|].
      right. right. rewrite Htrace'. now apply exited_later.
    - intros o p w Hin Hcreated. apply in_app_or in Hin as [Hin|Hin];
        [eapply Hw, Hworkspaces; eassumption|].
      now apply Hown in Hin. }
  destruct r1 as [[]|e|]; [| |now injection Hrun as <- _];
    destruct r2 as [[]|e2|]; now injection Hrun as <- _.
Qed.

(** X30.  Whatever fails and however many organizations there are,
    [_enrich_variable_set_data] tears down at most one agent pool, one
    agent container and one workspace named SMK: its [finally] suite
    is outside the loop over the organizations, and of all that the
    loop created, only what the variables hold at the end can be gone
    when it returns, besides the containers that exited by themselves;
    when no container exits by itself, nothing else is gone.  The
    pool, the container and the workspace of every organization but
    the last are left behind. *)
Theorem variable_set_saga_tears_down_the_last_agent_only fuel st st' r :
  _enrich_variable_set_data E fuel st = (st', r) ->
  tears_down_the_last_or_exited E st st'
  /\ (SagaSpec.agent_stays_up (shared_env E) -> tears_down_at_most_the_last E st st').
Proof.
  intros Hrun. apply finally_is_outside_the_loop in Hrun as Hgone.
  split; [exact Hgone|]. intros Hup.
  destruct Hgone as (new & own & Htrace & Hcalls & Hpools & Hcontainers & Hworkspaces).
  exists new, own. repeat (split; [assumption|]). split; [|assumption].
  intros container_name Hin.
  destruct (Hcontainers container_name Hin) as [H|[H|(h1 & h2 & _ & Hexit)]];
    [now left | now right |].
  now rewrite Hup in Hexit.
Qed.

End VarsetSaga.

End VarsetSagaFacts.

Module VarsetSagaWitnesses.

Import Mapper VarsetSaga VarsetSagaSpec Examples VarsetExamples.

#[local] Existing Instance example_libs.

Lemma variable_set_saga_tears_down_the_last_agent_only_witness :
  ("apool-org-1"
     ∈ Saga.agent_pools
         (Saga.st_world
            (platform
               (fst (_enrich_variable_set_data nothing_fails 5 two_organizations_state))))
   \/ agent_pool_id
        (variables
           (fst (_enrich_variable_set_data nothing_fails 5 two_organizations_state)))
      = Some "apool-org-1")
  /\ ("ws-smk-org-1"
        ∈ smk_workspaces
            (fst (_enrich_variable_set_data nothing_fails 5 two_organizations_state))
      \/ new_workspace
           (variables
              (fst (_enrich_variable_set_data nothing_fails 5 two_organizations_state)))
         = Some "ws-smk-org-1")
  /\ ("smk-tfc-agent-org-1"
        ∈ Saga.containers
            (Saga.st_world
               (platform
                  (fst (_enrich_variable_set_data nothing_fails 5
                          two_organizations_state))))
      \/ agent_container
           (variables
              (fst (_enrich_variable_set_data nothing_fails 5 two_organizations_state)))
         = Some "smk-tfc-agent-org-1").
Proof.
  destruct (_enrich_variable_set_data nothing_fails 5 two_organizations_state)
    as [st' r] eqn:Hrun.
  destruct (VarsetSagaFacts.variable_set_saga_tears_down_the_last_agent_only
              nothing_fails 5 two_organizations_state st' r Hrun)
    as [_ Hlast].
  destruct (Hlast (fun _ _ => eq_refl))
    as (new & own & Htrace & Hcalls & Hpools & Hcontainers & Hworkspaces).
  simpl in Htrace, Hcalls. subst new own.
  vm_compute in Hrun. injection Hrun as <- _. simpl fst. split; [|split].
  - apply (Hpools "org-1"). vm_compute. tauto.
  - apply (Hworkspaces "org-1" (VStr "prj-0")); [vm_compute; tauto | reflexivity].
  - apply (Hcontainers "smk-tfc-agent-org-1"). vm_compute. tauto.
Defined.

(** The run of the example: when it returns, the variables hold what
    was created for the second organization, which is gone; the agent
    pool, the container and the workspace of the first organization
    are still there. *)
Example first_organization_is_left_behind :
  let '(st', r) := _enrich_variable_set_data nothing_fails 5 two_organizations_state in
  r = Ret tt
  /\ agent_pool_id (variables st') = Some "apool-org-2"
  /\ agent_container (variables st') = Some "smk-tfc-agent-org-2"
  /\ new_workspace (variables st') = Some "ws-smk-org-2"
  /\ elements (Saga.agent_pools (Saga.st_world (platform st'))) = ["apool-org-1"]
  /\ elements (Saga.containers (Saga.st_world (platform st'))) = ["smk-tfc-agent-org-1"]
  /\ elements (smk_workspaces st') = ["ws-smk-org-1"]
  /\ map (fun variable => get variable ["attributes"; "value"])
       (default [] (collection "variable_set_variables"
                      (Saga.st_data (platform st'))))
     = [VStr "s3cr3t"; VStr "hunter2"].
Proof. vm_compute. repeat split; reflexivity. Qed.

(** A container can be gone without the variables holding it: started
    with [remove=True], the agent of the first organization exits by
    itself and the runtime removes it. *)
Example exited_agent_is_gone :
  let '(st', r) := _enrich_variable_set_data first_agent_exits 5 two_organizations_state in
  r = Ret tt
  /\ In (Saga.CDockerRun "smk-tfc-agent-org-1", true)
       (Saga.trace (Saga.st_world (platform st')))
  /\ elements (Saga.containers (Saga.st_world (platform st'))) = []
  /\ agent_container (variables st') = Some "smk-tfc-agent-org-2"
  /\ elements (Saga.agent_pools (Saga.st_world (platform st'))) = ["apool-org-1"].
Proof. vm_compute. repeat split; try reflexivity. tauto. Qed.

End VarsetSagaWitnesses.
